(** * golf_messenger: the TTR roster manager and the invitation workflow

    A shallow embedding of the service layer ([internal/service]) over the
    repositories ([internal/repository]) and the relational schema
    ([migrations]), followed by the properties of the capacity,
    authorization and invitation-lifecycle rules.

    Layout: models, errors, the store and its constraints, the
    repositories, the services, then lemmas and theorems. *)

From Stdlib Require Import ZArith String List Bool Lia.
From stdpp Require Import base option gmap list strings fin_maps.

Local Open Scope string_scope.
Local Open Scope Z_scope.

(** [uuid.UUID] values are 128-bit identifiers; only their equality and the
    order of the primary-key index matter here.  [time.Time] is a point on
    an integer time line. *)
Abbreviation UUID := N (only parsing).
Abbreviation Time := Z (only parsing).

(** ** internal/models *)

Module models.

(** models.User.  The password hash, handicap, phone and avatar columns
    are never read by the two services and are left out. *)
Module User.
Record t : Type := mk {
  ID : UUID;
  Email : string;
  FirstName : string;
  LastName : string;
  DeletedAt : option Time
}.

Definition with_ID (v : UUID) (r : t) : t :=
  mk v (Email r) (FirstName r) (LastName r) (DeletedAt r).
End User.

Definition TTRStatusOpen : string := "OPEN".
Definition TTRStatusConfirmed : string := "CONFIRMED".
Definition TTRStatusCancelled : string := "CANCELLED".
Definition TTRStatusCompleted : string := "COMPLETED".

Definition TTRPlayerStatusConfirmed : string := "CONFIRMED".
Definition TTRPlayerStatusMaybe : string := "MAYBE".
Definition TTRPlayerStatusDeclined : string := "DECLINED".

Module TTRCoCaptain.
Record t : Type := mk { TTRID : UUID; UserID : UUID }.
End TTRCoCaptain.

Module TTRPlayer.
Record t : Type := mk { TTRID : UUID; UserID : UUID; Status : string }.
End TTRPlayer.

(** models.TTR.  [CoCaptains] and [Players] are associations: they are
    filled by [Preload] when a TTR is read and are not columns.
    [MaxPlayers] is a Go [int] that the services only compare, never
    compute with, so no wrap-around arises and it is a [Z]. *)
Module TTR.
Record t : Type := mk {
  ID : UUID;
  CourseName : string;
  CourseLocation : option string;
  TeeDate : Time;
  TeeTime : Time;
  MaxPlayers : Z;
  CreatedByUserID : UUID;
  CaptainUserID : UUID;
  Status : string;
  Notes : option string;
  DeletedAt : option Time;
  CoCaptains : list TTRCoCaptain.t;
  Players : list TTRPlayer.t
}.

Definition with_ID (v : UUID) (r : t) : t :=
  mk v (CourseName r) (CourseLocation r) (TeeDate r) (TeeTime r)
     (MaxPlayers r) (CreatedByUserID r) (CaptainUserID r) (Status r)
     (Notes r) (DeletedAt r) (CoCaptains r) (Players r).
Definition with_CourseName (v : string) (r : t) : t :=
  mk (ID r) v (CourseLocation r) (TeeDate r) (TeeTime r)
     (MaxPlayers r) (CreatedByUserID r) (CaptainUserID r) (Status r)
     (Notes r) (DeletedAt r) (CoCaptains r) (Players r).
Definition with_CourseLocation (v : option string) (r : t) : t :=
  mk (ID r) (CourseName r) v (TeeDate r) (TeeTime r)
     (MaxPlayers r) (CreatedByUserID r) (CaptainUserID r) (Status r)
     (Notes r) (DeletedAt r) (CoCaptains r) (Players r).
Definition with_TeeDate (v : Time) (r : t) : t :=
  mk (ID r) (CourseName r) (CourseLocation r) v (TeeTime r)
     (MaxPlayers r) (CreatedByUserID r) (CaptainUserID r) (Status r)
     (Notes r) (DeletedAt r) (CoCaptains r) (Players r).
Definition with_TeeTime (v : Time) (r : t) : t :=
  mk (ID r) (CourseName r) (CourseLocation r) (TeeDate r) v
     (MaxPlayers r) (CreatedByUserID r) (CaptainUserID r) (Status r)
     (Notes r) (DeletedAt r) (CoCaptains r) (Players r).
Definition with_MaxPlayers (v : Z) (r : t) : t :=
  mk (ID r) (CourseName r) (CourseLocation r) (TeeDate r) (TeeTime r)
     v (CreatedByUserID r) (CaptainUserID r) (Status r)
     (Notes r) (DeletedAt r) (CoCaptains r) (Players r).
Definition with_Status (v : string) (r : t) : t :=
  mk (ID r) (CourseName r) (CourseLocation r) (TeeDate r) (TeeTime r)
     (MaxPlayers r) (CreatedByUserID r) (CaptainUserID r) v
     (Notes r) (DeletedAt r) (CoCaptains r) (Players r).
Definition with_Notes (v : option string) (r : t) : t :=
  mk (ID r) (CourseName r) (CourseLocation r) (TeeDate r) (TeeTime r)
     (MaxPlayers r) (CreatedByUserID r) (CaptainUserID r) (Status r)
     v (DeletedAt r) (CoCaptains r) (Players r).
Definition with_DeletedAt (v : option Time) (r : t) : t :=
  mk (ID r) (CourseName r) (CourseLocation r) (TeeDate r) (TeeTime r)
     (MaxPlayers r) (CreatedByUserID r) (CaptainUserID r) (Status r)
     (Notes r) v (CoCaptains r) (Players r).
Definition with_associations
    (cc : list TTRCoCaptain.t) (ps : list TTRPlayer.t) (r : t) : t :=
  mk (ID r) (CourseName r) (CourseLocation r) (TeeDate r) (TeeTime r)
     (MaxPlayers r) (CreatedByUserID r) (CaptainUserID r) (Status r)
     (Notes r) (DeletedAt r) cc ps.
End TTR.

Definition InvitationStatusPending : string := "PENDING".
Definition InvitationStatusYes : string := "YES".
Definition InvitationStatusNo : string := "NO".
Definition InvitationStatusMaybe : string := "MAYBE".
Definition InvitationStatusCanceled : string := "CANCELED".

(** models.Invitation, without the preloaded TTR and user pointers. *)
Module Invitation.
Record t : Type := mk {
  ID : UUID;
  TTRID : UUID;
  InviterUserID : UUID;
  InviteeUserID : UUID;
  Status : string;
  Message : option string;
  RespondedAt : option Time
}.

Definition with_ID (v : UUID) (r : t) : t :=
  mk v (TTRID r) (InviterUserID r) (InviteeUserID r) (Status r)
     (Message r) (RespondedAt r).
Definition with_Status (v : string) (r : t) : t :=
  mk (ID r) (TTRID r) (InviterUserID r) (InviteeUserID r) v
     (Message r) (RespondedAt r).
Definition with_RespondedAt (v : option Time) (r : t) : t :=
  mk (ID r) (TTRID r) (InviterUserID r) (InviteeUserID r) (Status r)
     (Message r) v.
End Invitation.

End models.

Import models.

(** ** Errors

    Go's [error] values: [errors.New msg] and [fmt.Errorf "prefix: %w" err],
    which keeps the wrapped cause. *)

Inductive error : Type :=
| errors_New (msg : string)
| fmt_Errorf (prefix : string) (cause : error).

Fixpoint Error (e : error) : string :=
  match e with
  | errors_New msg => msg
  | fmt_Errorf prefix cause => prefix +:+ ": " +:+ Error cause
  end.

(** The error taxonomy of the specification (section 7).  The service layer
    has no error type of its own: it reports each kind through a fixed
    message, and the handlers tell the kinds apart by comparing
    [err.Error()] with these messages; [kind_of_message] is that reading.
    Anything else (a wrapped error, a failure of the store) is
    [Internal]. *)
Inductive ErrorKind : Type :=
| NotFound | Unauthorized | InvalidArgument | AlreadyExists
| Full | InvalidOperation | Internal.

Definition one_of (s : string) (l : list string) : bool :=
  existsb (String.eqb s) l.

Definition kind_of_message (s : string) : ErrorKind :=
  if one_of s [ "TTR not found"; "user not found"; "co-captain user not found";
                "invitee user not found"; "invitation not found";
                "player not found in TTR" ] then NotFound
  else if String.prefix "unauthorized: " s then Unauthorized
  else if one_of s [ "max_players must be greater than 0";
                     "invalid player status"; "invalid invitation status" ]
       then InvalidArgument
  else if one_of s [ "user is already a co-captain"; "user is already a player";
                     "invitee is already a player in this TTR";
                     "pending invitation already exists for this user" ]
       then AlreadyExists
  else if one_of s [ "TTR is full"; "TTR is full, cannot accept invitation" ]
       then Full
  else if one_of s [ "captain cannot leave TTR";
                     "invitation has already been responded to";
                     "only pending invitations can be canceled" ]
       then InvalidOperation
  else Internal.

Definition kind (e : error) : ErrorKind := kind_of_message (Error e).

(** ** The store

    The tables of migrations 000001 and 000002, each indexed by its primary
    key.  The id column of [users], [ttrs] and [invitations] is the key of
    the index: every read returns the row with its [ID] set from the key.
    [ttr_players] maps the key (ttr_id, user_id) to the status column;
    [ttr_co_captains] has no column besides its key.  The
    timestamp columns that the store fills by default (created_at,
    updated_at, joined_at, assigned_at) are read by neither service and
    are left out. *)
Record DB : Type := mkDB {
  users : gmap N User.t;
  ttrs : gmap N TTR.t;
  ttr_co_captains : gset (N * N);
  ttr_players : gmap (N * N) string;
  invitations : gmap N Invitation.t
}.

Definition set_ttrs (v : gmap N TTR.t) (db : DB) : DB :=
  mkDB (users db) v (ttr_co_captains db) (ttr_players db) (invitations db).
Definition set_ttr_co_captains (v : gset (N * N)) (db : DB) : DB :=
  mkDB (users db) (ttrs db) v (ttr_players db) (invitations db).
Definition set_ttr_players (v : gmap (N * N) string) (db : DB) : DB :=
  mkDB (users db) (ttrs db) (ttr_co_captains db) v (invitations db).
Definition set_invitations (v : gmap N Invitation.t) (db : DB) : DB :=
  mkDB (users db) (ttrs db) (ttr_co_captains db) (ttr_players db) v.

(** ** Results and the request monad

    A service call runs against the store and returns a value or an error;
    writes made before an error stay (no call opens a transaction). *)
Inductive result (A : Type) : Type :=
| Ok (a : A)
| Err (e : error).
Arguments Ok {A} a.
Arguments Err {A} e.

Definition M (A : Type) : Type := DB -> result A * DB.

Definition ret {A : Type} (a : A) : M A := fun db => (Ok a, db).

Definition fail {A : Type} (e : error) : M A := fun db => (Err e, db).

Definition bind {A B : Type} (m : M A) (k : A -> M B) : M B :=
  fun db =>
    match m db with
    | (Ok a, db') => k a db'
    | (Err e, db') => (Err e, db')
    end.

(** [if err != nil { return fmt.Errorf("prefix: %w", err) }] *)
Definition wrapped {A : Type} (prefix : string) (m : M A) : M A :=
  fun db =>
    match m db with
    | (Ok a, db') => (Ok a, db')
    | (Err e, db') => (Err (fmt_Errorf prefix e), db')
    end.

(** [if err != nil { return err }] needs no wrapper: it is [bind]. *)

Definition query {A : Type} (f : DB -> A) : M A := fun db => (Ok (f db), db).

Definition exec (f : DB -> DB) : M unit := fun db => (Ok tt, f db).

Notation "x <- m ;; k" := (bind m (fun x => k))
  (at level 100, m at next level, right associativity).
Notation "m ;;; k" := (bind m (fun _ => k))
  (at level 100, right associativity).

Definition fails_with {A : Type} (k : ErrorKind) (r : result A) : Prop :=
  exists e, r = Err e /\ kind e = k.

Definition succeeds {A : Type} (r : result A) : Prop :=
  exists a, r = Ok a.

(** ** Constraints of the schema

    What PostgreSQL checks on every INSERT and UPDATE: column types,
    primary keys, the UNIQUE (ttr_id, invitee_user_id) index of
    [invitations], and the REFERENCES clauses.  TTRs and users are
    soft-deleted ([gorm.DeletedAt]), so their rows stay in the table and
    no ON DELETE CASCADE ever fires. *)

Definition ErrDuplicateKey : error :=
  errors_New "duplicate key value violates unique constraint".
Definition ErrForeignKey : error :=
  errors_New "insert or update violates foreign key constraint".
Definition ErrValueTooLong : error :=
  errors_New "value too long for type character varying".
Definition ErrIntegerOutOfRange : error :=
  errors_New "integer out of range".

(** VARCHAR(n) *)
Definition varchar (n : nat) (s : string) : bool :=
  (String.length s <=? n)%nat.

Definition varchar_opt (n : nat) (s : option string) : bool :=
  match s with
  | Some s => varchar n s
  | None => true
  end.

(** INTEGER *)
Definition int4 (z : Z) : bool :=
  (- 2147483648 <=? z) && (z <=? 2147483647).

Definition has_row {K : Type} `{Countable K} {V : Type}
    (k : K) (m : gmap K V) : bool :=
  match m !! k with
  | Some _ => true
  | None => false
  end.

(** Rows of [ttr_players] for one TTR, as [models.TTRPlayer] values. *)
Definition players_of (db : DB) (ttrID : UUID) : list TTRPlayer.t :=
  (fun kv : N * N * string => TTRPlayer.mk kv.1.1 kv.1.2 kv.2)
    <$> filter (fun kv : N * N * string => kv.1.1 = ttrID)
               (map_to_list (ttr_players db)).

(** Rows of [ttr_co_captains] for one TTR. *)
Definition co_captains_of (db : DB) (ttrID : UUID) : list TTRCoCaptain.t :=
  (fun k : N * N => TTRCoCaptain.mk k.1 k.2)
    <$> filter (fun k : N * N => k.1 = ttrID)
               (elements (ttr_co_captains db)).

(** Rows of [invitations] with the given ttr_id and invitee_user_id. *)
Definition invitations_for (ttrID inviteeUserID : UUID)
    (m : gmap N Invitation.t) : list (N * Invitation.t) :=
  filter (fun kv : N * Invitation.t =>
            Invitation.TTRID kv.2 = ttrID /\
            Invitation.InviteeUserID kv.2 = inviteeUserID)
         (map_to_list m).

(** [First]: ORDER BY the primary key, LIMIT 1. *)
Definition first_by_key {A : Type} (l : list (N * A)) : option (N * A) :=
  foldr (fun kv acc =>
           match acc with
           | None => Some kv
           | Some kv' => if (kv.1 <? kv'.1)%N then Some kv else Some kv'
           end) None l.

Definition is_nil {A : Type} (l : list A) : bool :=
  match l with
  | [] => true
  | _ :: _ => false
  end.

(** ** internal/repository *)

(** ttrRepository over the store. *)
Module ttrRepository.

(** Column values of a row that is written: the associations are not
    columns. *)
Definition columns (ttr : TTR.t) : TTR.t := TTR.with_associations [] [] ttr.

Definition check_row (ttr : TTR.t) (db : DB) : option error :=
  if negb (varchar 255 (TTR.CourseName ttr)
           && varchar_opt 255 (TTR.CourseLocation ttr)
           && varchar 50 (TTR.Status ttr))
  then Some ErrValueTooLong
  else if negb (int4 (TTR.MaxPlayers ttr)) then Some ErrIntegerOutOfRange
  else if negb (has_row (TTR.CreatedByUserID ttr) (users db)
                && has_row (TTR.CaptainUserID ttr) (users db))
  then Some ErrForeignKey
  else None.

(** [db.Create(ttr)]: a zero field that has a [default:] tag takes the
    column default; [gen] is the value uuid_generate_v4() returns.  The
    generated key is written back into the caller's struct, which is
    the result here. *)
Definition Create (gen : UUID) (ttr : TTR.t) : M TTR.t :=
  wrapped "failed to create ttr" (fun db =>
    let ttr := if (TTR.ID ttr =? 0)%N then TTR.with_ID gen ttr else ttr in
    let ttr := if TTR.MaxPlayers ttr =? 0
               then TTR.with_MaxPlayers 4 ttr else ttr in
    let ttr := if String.eqb (TTR.Status ttr) ""
               then TTR.with_Status "OPEN" ttr else ttr in
    match check_row ttr db with
    | Some e => (Err e, db)
    | None =>
        if has_row (TTR.ID ttr) (ttrs db) then (Err ErrDuplicateKey, db)
        else (Ok ttr, set_ttrs (<[TTR.ID ttr := columns ttr]> (ttrs db)) db)
    end).

(** [Where("id = ?", id).First(&ttr)] with the four preloads; the
    soft-delete scope hides rows whose deleted_at is set.  A missing row
    is [nil, nil]. *)
Definition find (db : DB) (id : UUID) : option TTR.t :=
  match ttrs db !! id with
  | Some row =>
      match TTR.DeletedAt row with
      | None => Some (TTR.with_associations
                        (co_captains_of db id) (players_of db id)
                        (TTR.with_ID id row))
      | Some _ => None
      end
  | None => None
  end.

Definition FindByID (id : UUID) : M (option TTR.t) :=
  wrapped "failed to find ttr by ID" (query (fun db => find db id)).

(** [db.Save(ttr)] on a struct that carries its primary key: every
    column is written at that key.  The association upserts that Save
    issues for the preloaded players and co-captains are ON CONFLICT DO
    NOTHING on rows that already exist and change nothing. *)
Definition Update (ttr : TTR.t) : M unit :=
  wrapped "failed to update ttr" (fun db =>
    match check_row ttr db with
    | Some e => (Err e, db)
    | None => (Ok tt, set_ttrs (<[TTR.ID ttr := columns ttr]> (ttrs db)) db)
    end).

(** [db.Delete(&models.TTR{}, id)]: a soft delete, which stamps
    deleted_at on the live row. *)
Definition Delete (now : Time) (id : UUID) : M unit :=
  wrapped "failed to delete ttr" (exec (fun db =>
    match ttrs db !! id with
    | Some row =>
        match TTR.DeletedAt row with
        | None => set_ttrs (<[id := TTR.with_DeletedAt (Some now) row]>
                              (ttrs db)) db
        | Some _ => db
        end
    | None => db
    end)).

Definition AddCoCaptain (ttrID userID : UUID) : M unit :=
  wrapped "failed to add co-captain" (fun db =>
    if bool_decide ((ttrID, userID) ∈ ttr_co_captains db)
    then (Err ErrDuplicateKey, db)
    else if negb (has_row ttrID (ttrs db) && has_row userID (users db))
    then (Err ErrForeignKey, db)
    else (Ok tt,
          set_ttr_co_captains ({[ (ttrID, userID) ]} ∪ ttr_co_captains db) db)).

Definition RemoveCoCaptain (ttrID userID : UUID) : M unit :=
  wrapped "failed to remove co-captain" (exec (fun db =>
    set_ttr_co_captains (ttr_co_captains db ∖ {[ (ttrID, userID) ]}) db)).

(** [Count(&count)] and [count > 0] *)
Definition IsCoCaptain (ttrID userID : UUID) : M bool :=
  wrapped "failed to check co-captain status" (query (fun db =>
    bool_decide ((ttrID, userID) ∈ ttr_co_captains db))).

Definition AddPlayer (ttrID userID : UUID) (status : string) : M unit :=
  wrapped "failed to add player" (fun db =>
    if negb (varchar 50 status) then (Err ErrValueTooLong, db)
    else if has_row (ttrID, userID) (ttr_players db)
    then (Err ErrDuplicateKey, db)
    else if negb (has_row ttrID (ttrs db) && has_row userID (users db))
    then (Err ErrForeignKey, db)
    else (Ok tt,
          set_ttr_players (<[(ttrID, userID) := status]> (ttr_players db)) db)).

Definition RemovePlayer (ttrID userID : UUID) : M unit :=
  wrapped "failed to remove player" (exec (fun db =>
    set_ttr_players (delete (ttrID, userID) (ttr_players db)) db)).

Definition GetPlayers (ttrID : UUID) : M (list TTRPlayer.t) :=
  wrapped "failed to get players" (query (fun db => players_of db ttrID)).

Definition IsPlayer (ttrID userID : UUID) : M bool :=
  wrapped "failed to check player status" (query (fun db =>
    has_row (ttrID, userID) (ttr_players db))).

End ttrRepository.

Module userRepository.

(** [Where("id = ?", id).First(&user)] under the soft-delete scope. *)
Definition find (db : DB) (id : UUID) : option User.t :=
  match users db !! id with
  | Some u =>
      match User.DeletedAt u with
      | None => Some (User.with_ID id u)
      | Some _ => None
      end
  | None => None
  end.

Definition FindByID (id : UUID) : M (option User.t) :=
  wrapped "failed to find user by ID" (query (fun db => find db id)).

End userRepository.

Module invitationRepository.

Definition check_row (inv : Invitation.t) (db : DB) : option error :=
  if negb (varchar 50 (Invitation.Status inv)) then Some ErrValueTooLong
  else if negb (has_row (Invitation.TTRID inv) (ttrs db)
                && has_row (Invitation.InviterUserID inv) (users db)
                && has_row (Invitation.InviteeUserID inv) (users db))
  then Some ErrForeignKey
  else if negb (is_nil (invitations_for (Invitation.TTRID inv)
                          (Invitation.InviteeUserID inv)
                          (delete (Invitation.ID inv) (invitations db))))
  then Some ErrDuplicateKey
  else None.

Definition Create (gen : UUID) (inv : Invitation.t) : M Invitation.t :=
  wrapped "failed to create invitation" (fun db =>
    let inv := if (Invitation.ID inv =? 0)%N
               then Invitation.with_ID gen inv else inv in
    let inv := if String.eqb (Invitation.Status inv) ""
               then Invitation.with_Status "PENDING" inv else inv in
    if has_row (Invitation.ID inv) (invitations db)
    then (Err ErrDuplicateKey, db)
    else
      match check_row inv db with
      | Some e => (Err e, db)
      | None =>
          (Ok inv,
           set_invitations (<[Invitation.ID inv := inv]> (invitations db)) db)
      end).

Definition FindByID (id : UUID) : M (option Invitation.t) :=
  wrapped "failed to find invitation by ID"
    (query (fun db => Invitation.with_ID id <$> invitations db !! id)).

(** [db.Save(invitation)] on a struct that carries its primary key. *)
Definition Update (inv : Invitation.t) : M unit :=
  wrapped "failed to update invitation" (fun db =>
    match check_row inv db with
    | Some e => (Err e, db)
    | None =>
        (Ok tt,
         set_invitations (<[Invitation.ID inv := inv]> (invitations db)) db)
    end).

Definition Delete (id : UUID) : M unit :=
  wrapped "failed to delete invitation" (exec (fun db =>
    set_invitations (delete id (invitations db)) db)).

(** [Where("ttr_id = ? AND invitee_user_id = ?", ...).First(&invitation)]:
    the status is not part of the condition. *)
Definition FindByTTRAndInvitee (ttrID inviteeUserID : UUID)
    : M (option Invitation.t) :=
  wrapped "failed to find invitation by TTR and invitee" (query (fun db =>
    (fun kv : N * Invitation.t => Invitation.with_ID kv.1 kv.2)
      <$> first_by_key
            (invitations_for ttrID inviteeUserID (invitations db)))).

End invitationRepository.

(** ** internal/service *)

Module NotificationService.

(** A logging stub: it writes a log line and returns nil. *)
Definition CreateNotification (userID : UUID) (notificationType : string)
    (title message : string) (targetType : option string)
    (targetID : option UUID) : M unit :=
  ret tt.

End NotificationService.

Module TTRService.

Definition isCaptain (ttrID userID : UUID) : M bool :=
  ttr <- wrapped "failed to find TTR" (ttrRepository.FindByID ttrID) ;;
  match ttr with
  | None => fail (errors_New "TTR not found")
  | Some ttr => ret (TTR.CaptainUserID ttr =? userID)%N
  end.

Definition isCoCaptain (ttrID userID : UUID) : M bool :=
  ttrRepository.IsCoCaptain ttrID userID.

Definition canManageTTR (ttrID userID : UUID) : M bool :=
  isCaptain <- isCaptain ttrID userID ;;
  if isCaptain : bool then ret true
  else
    isCoCaptain <- isCoCaptain ttrID userID ;;
    ret isCoCaptain.

Definition getPlayerCount (ttrID : UUID) : M Z :=
  players <- wrapped "failed to get players"
               (ttrRepository.GetPlayers ttrID) ;;
  ret (Z.of_nat (length players)).

Definition CreateTTR (gen : UUID) (userID : UUID) (courseName : string)
    (courseLocation : option string) (teeDate teeTime : Time)
    (maxPlayers : Z) (notes : option string) : M (option TTR.t) :=
  if maxPlayers <=? 0
  then fail (errors_New "max_players must be greater than 0")
  else
    user <- wrapped "failed to find user" (userRepository.FindByID userID) ;;
    match user with
    | None => fail (errors_New "user not found")
    | Some _ =>
        let ttr :=
          TTR.mk 0%N courseName courseLocation teeDate teeTime maxPlayers
                 userID userID TTRStatusOpen notes None [] [] in
        ttr <- wrapped "failed to create TTR"
                 (ttrRepository.Create gen ttr) ;;
        (wrapped "failed to add captain as player"
           (ttrRepository.AddPlayer (TTR.ID ttr) userID
              TTRPlayerStatusConfirmed)) ;;;
        createdTTR <- wrapped "failed to retrieve created TTR"
                        (ttrRepository.FindByID (TTR.ID ttr)) ;;
        ret createdTTR
    end.

Definition GetTTR (id : UUID) : M TTR.t :=
  ttr <- wrapped "failed to get TTR" (ttrRepository.FindByID id) ;;
  match ttr with
  | None => fail (errors_New "TTR not found")
  | Some ttr => ret ttr
  end.

(** The pointer arguments are options: [None] is a nil pointer, a field
    that the request does not supply. *)
Definition UpdateTTR (ttrID userID : UUID) (courseName : option string)
    (courseLocation : option string) (teeDate teeTime : option Time)
    (maxPlayers : option Z) (status : option string)
    (notes : option string) : M (option TTR.t) :=
  canManage <- wrapped "failed to check permissions"
                 (canManageTTR ttrID userID) ;;
  if negb canManage
  then fail (errors_New
               "unauthorized: only captain or co-captain can update TTR")
  else
    ttr <- wrapped "failed to find TTR" (ttrRepository.FindByID ttrID) ;;
    match ttr with
    | None => fail (errors_New "TTR not found")
    | Some ttr =>
        let ttr := match courseName with
                   | Some v => TTR.with_CourseName v ttr
                   | None => ttr
                   end in
        let ttr := match courseLocation with
                   | Some v => TTR.with_CourseLocation (Some v) ttr
                   | None => ttr
                   end in
        let ttr := match teeDate with
                   | Some v => TTR.with_TeeDate v ttr
                   | None => ttr
                   end in
        let ttr := match teeTime with
                   | Some v => TTR.with_TeeTime v ttr
                   | None => ttr
                   end in
        match
          match maxPlayers with
          | Some v =>
              if v <=? 0 then None else Some (TTR.with_MaxPlayers v ttr)
          | None => Some ttr
          end
        with
        | None => fail (errors_New "max_players must be greater than 0")
        | Some ttr =>
            let ttr := match status with
                       | Some v => TTR.with_Status v ttr
                       | None => ttr
                       end in
            let ttr := match notes with
                       | Some v => TTR.with_Notes (Some v) ttr
                       | None => ttr
                       end in
            (wrapped "failed to update TTR" (ttrRepository.Update ttr)) ;;;
            updatedTTR <- wrapped "failed to retrieve updated TTR"
                            (ttrRepository.FindByID ttrID) ;;
            ret updatedTTR
        end
    end.

Definition DeleteTTR (now : Time) (ttrID userID : UUID) : M unit :=
  isCaptain <- wrapped "failed to check captain status"
                 (isCaptain ttrID userID) ;;
  if negb isCaptain
  then fail (errors_New "unauthorized: only captain can delete TTR")
  else
    (wrapped "failed to delete TTR" (ttrRepository.Delete now ttrID)) ;;;
    ret tt.

Definition AddCoCaptain (ttrID captainUserID coCaptainUserID : UUID)
    : M unit :=
  isCaptain <- wrapped "failed to check captain status"
                 (isCaptain ttrID captainUserID) ;;
  if negb isCaptain
  then fail (errors_New "unauthorized: only captain can add co-captains")
  else
    coCaptainUser <- wrapped "failed to find co-captain user"
                       (userRepository.FindByID coCaptainUserID) ;;
    match coCaptainUser with
    | None => fail (errors_New "co-captain user not found")
    | Some _ =>
        isAlreadyCoCaptain <- wrapped "failed to check co-captain status"
          (ttrRepository.IsCoCaptain ttrID coCaptainUserID) ;;
        if isAlreadyCoCaptain : bool
        then fail (errors_New "user is already a co-captain")
        else
          (wrapped "failed to add co-captain"
             (ttrRepository.AddCoCaptain ttrID coCaptainUserID)) ;;;
          ret tt
    end.

Definition RemoveCoCaptain (ttrID captainUserID coCaptainUserID : UUID)
    : M unit :=
  isCaptain <- wrapped "failed to check captain status"
                 (isCaptain ttrID captainUserID) ;;
  if negb isCaptain
  then fail (errors_New "unauthorized: only captain can remove co-captains")
  else
    (wrapped "failed to remove co-captain"
       (ttrRepository.RemoveCoCaptain ttrID coCaptainUserID)) ;;;
    ret tt.

Definition JoinTTR (ttrID userID : UUID) : M unit :=
  ttr <- wrapped "failed to find TTR" (ttrRepository.FindByID ttrID) ;;
  match ttr with
  | None => fail (errors_New "TTR not found")
  | Some ttr =>
      playerCount <- wrapped "failed to get player count"
                       (getPlayerCount ttrID) ;;
      if playerCount >=? TTR.MaxPlayers ttr
      then fail (errors_New "TTR is full")
      else
        isAlreadyPlayer <- wrapped "failed to check player status"
                             (ttrRepository.IsPlayer ttrID userID) ;;
        if isAlreadyPlayer : bool
        then fail (errors_New "user is already a player")
        else
          (wrapped "failed to join TTR"
             (ttrRepository.AddPlayer ttrID userID
                TTRPlayerStatusConfirmed)) ;;;
          ret tt
  end.

Definition LeaveTTR (ttrID userID : UUID) : M unit :=
  ttr <- wrapped "failed to find TTR" (ttrRepository.FindByID ttrID) ;;
  match ttr with
  | None => fail (errors_New "TTR not found")
  | Some ttr =>
      if (TTR.CaptainUserID ttr =? userID)%N
      then fail (errors_New "captain cannot leave TTR")
      else
        (wrapped "failed to leave TTR"
           (ttrRepository.RemovePlayer ttrID userID)) ;;;
        ret tt
  end.

Definition validStatuses : list string :=
  [ TTRPlayerStatusConfirmed; TTRPlayerStatusMaybe; TTRPlayerStatusDeclined ].

Definition UpdatePlayerStatus (ttrID managerUserID playerUserID : UUID)
    (status : string) : M unit :=
  canManage <- wrapped "failed to check permissions"
                 (canManageTTR ttrID managerUserID) ;;
  if negb canManage
  then fail (errors_New
    "unauthorized: only captain or co-captain can update player status")
  else if negb (one_of status validStatuses)
  then fail (errors_New "invalid player status")
  else
    players <- wrapped "failed to get players"
                 (ttrRepository.GetPlayers ttrID) ;;
    let found :=
      existsb (fun player => (TTRPlayer.UserID player =? playerUserID)%N)
              players in
    if negb found
    then fail (errors_New "player not found in TTR")
    else
      (wrapped "failed to remove player"
         (ttrRepository.RemovePlayer ttrID playerUserID)) ;;;
      (wrapped "failed to add player with new status"
         (ttrRepository.AddPlayer ttrID playerUserID status)) ;;;
      ret tt.

Definition GetPlayers (ttrID : UUID) : M (list TTRPlayer.t) :=
  players <- wrapped "failed to get players"
               (ttrRepository.GetPlayers ttrID) ;;
  ret players.

End TTRService.

Module InvitationService.

Definition CreateInvitation (gen : UUID)
    (ttrID inviterUserID inviteeUserID : UUID) (message : option string)
    : M (option Invitation.t) :=
  ttr <- wrapped "failed to find TTR" (ttrRepository.FindByID ttrID) ;;
  match ttr with
  | None => fail (errors_New "TTR not found")
  | Some ttr =>
      let isCaptain := (TTR.CaptainUserID ttr =? inviterUserID)%N in
      isCoCaptain <- wrapped "failed to check co-captain status"
                       (ttrRepository.IsCoCaptain ttrID inviterUserID) ;;
      if negb isCaptain && negb isCoCaptain
      then fail (errors_New
        "unauthorized: only captain or co-captain can send invitations")
      else
        inviteeUser <- wrapped "failed to find invitee user"
                         (userRepository.FindByID inviteeUserID) ;;
        match inviteeUser with
        | None => fail (errors_New "invitee user not found")
        | Some _ =>
            players <- wrapped "failed to get players"
                         (ttrRepository.GetPlayers ttrID) ;;
            if Z.of_nat (length players) >=? TTR.MaxPlayers ttr
            then fail (errors_New "TTR is full")
            else
              isAlreadyPlayer <- wrapped "failed to check player status"
                (ttrRepository.IsPlayer ttrID inviteeUserID) ;;
              if isAlreadyPlayer : bool
              then fail (errors_New
                           "invitee is already a player in this TTR")
              else
                existingInvitation <-
                  wrapped "failed to check existing invitation"
                    (invitationRepository.FindByTTRAndInvitee
                       ttrID inviteeUserID) ;;
                if match existingInvitation with
                   | Some existing =>
                       String.eqb (Invitation.Status existing)
                                  InvitationStatusPending
                   | None => false
                   end
                then fail (errors_New
                  "pending invitation already exists for this user")
                else
                  let invitation :=
                    Invitation.mk 0%N ttrID inviterUserID inviteeUserID
                      InvitationStatusPending message None in
                  invitation <- wrapped "failed to create invitation"
                    (invitationRepository.Create gen invitation) ;;
                  (fun db =>
                     match NotificationService.CreateNotification
                             inviteeUserID "invitation_received"
                             "New TTR Invitation"
                             ("You have been invited to join a tee time at "
                                +:+ TTR.CourseName ttr)
                             (Some "invitation")
                             (Some (Invitation.ID invitation)) db with
                     | (_, db') => (Ok tt, db')
                     end) ;;;
                  createdInvitation <-
                    wrapped "failed to retrieve created invitation"
                      (invitationRepository.FindByID
                         (Invitation.ID invitation)) ;;
                  ret createdInvitation
        end
  end.

Definition validStatuses : list string :=
  [ InvitationStatusYes; InvitationStatusNo; InvitationStatusMaybe ].

Definition RespondToInvitation (now : Time)
    (invitationID inviteeUserID : UUID) (status : string)
    : M (option Invitation.t) :=
  if negb (one_of status validStatuses)
  then fail (errors_New "invalid invitation status")
  else
    invitation <- wrapped "failed to find invitation"
                    (invitationRepository.FindByID invitationID) ;;
    match invitation with
    | None => fail (errors_New "invitation not found")
    | Some invitation =>
        if negb (Invitation.InviteeUserID invitation =? inviteeUserID)%N
        then fail (errors_New
          "unauthorized: you can only respond to your own invitations")
        else if negb (String.eqb (Invitation.Status invitation)
                                 InvitationStatusPending)
        then fail (errors_New "invitation has already been responded to")
        else
          let invitation := Invitation.with_Status status invitation in
          let invitation :=
            Invitation.with_RespondedAt (Some now) invitation in
          (if String.eqb status InvitationStatusYes
           then
             ttr <- wrapped "failed to find TTR"
                      (ttrRepository.FindByID
                         (Invitation.TTRID invitation)) ;;
             match ttr with
             | None => fail (errors_New "TTR not found")
             | Some ttr =>
                 players <- wrapped "failed to get players"
                   (ttrRepository.GetPlayers
                      (Invitation.TTRID invitation)) ;;
                 if Z.of_nat (length players) >=? TTR.MaxPlayers ttr
                 then fail (errors_New
                              "TTR is full, cannot accept invitation")
                 else
                   wrapped "failed to add player to TTR"
                     (ttrRepository.AddPlayer
                        (Invitation.TTRID invitation) inviteeUserID
                        TTRPlayerStatusConfirmed)
             end
           else ret tt) ;;;
          (wrapped "failed to update invitation"
             (invitationRepository.Update invitation)) ;;;
          updatedInvitation <-
            wrapped "failed to retrieve updated invitation"
              (invitationRepository.FindByID invitationID) ;;
          ret updatedInvitation
    end.

Definition GetInvitation (id : UUID) : M Invitation.t :=
  invitation <- wrapped "failed to get invitation"
                  (invitationRepository.FindByID id) ;;
  match invitation with
  | None => fail (errors_New "invitation not found")
  | Some invitation => ret invitation
  end.

Definition CancelInvitation (invitationID userID : UUID) : M unit :=
  invitation <- wrapped "failed to find invitation"
                  (invitationRepository.FindByID invitationID) ;;
  match invitation with
  | None => fail (errors_New "invitation not found")
  | Some invitation =>
      if negb (Invitation.InviterUserID invitation =? userID)%N
      then fail (errors_New
                   "unauthorized: only the inviter can cancel the invitation")
      else if negb (String.eqb (Invitation.Status invitation)
                               InvitationStatusPending)
      then fail (errors_New "only pending invitations can be canceled")
      else
        let invitation :=
          Invitation.with_Status InvitationStatusCanceled invitation in
        (wrapped "failed to cancel invitation"
           (invitationRepository.Update invitation)) ;;;
        ret tt
  end.

End InvitationService.

(** ** Reading the store

    The vocabulary of the properties below. *)

(** [len(ttr.Players) <= ttr.MaxPlayers] on a materialized TTR. *)
Definition within_capacity (ttr : TTR.t) : Prop :=
  Z.of_nat (length (TTR.Players ttr)) <= TTR.MaxPlayers ttr.

(** The roster is at capacity: [len(ttr.Players) >= ttr.MaxPlayers]. *)
Definition at_capacity (ttr : TTR.t) : Prop :=
  Z.of_nat (length (TTR.Players ttr)) >= TTR.MaxPlayers ttr.

(** Every live TTR of the store is within its capacity. *)
Definition capacity_invariant (db : DB) : Prop :=
  forall id ttr, ttrRepository.find db id = Some ttr -> within_capacity ttr.

(** From [db] to [db'] no roster outgrows its capacity: every TTR of [db']
    was a TTR of [db], and is within its capacity if it was. *)
Definition capacity_kept (db db' : DB) : Prop :=
  forall id ttr',
    ttrRepository.find db' id = Some ttr' ->
    exists ttr,
      ttrRepository.find db id = Some ttr /\
      (within_capacity ttr -> within_capacity ttr').

(** The store holds a PENDING invitation of [inviteeUserID] to [ttrID]. *)
Definition pending_invitation (db : DB) (ttrID inviteeUserID : UUID) : Prop :=
  exists id inv,
    invitations db !! id = Some inv /\
    Invitation.TTRID inv = ttrID /\
    Invitation.InviteeUserID inv = inviteeUserID /\
    Invitation.Status inv = InvitationStatusPending.

(** At most one PENDING invitation per (TTR, invitee) pair. *)
Definition at_most_one_pending (db : DB) : Prop :=
  forall i j a b,
    invitations db !! i = Some a -> invitations db !! j = Some b ->
    Invitation.TTRID a = Invitation.TTRID b ->
    Invitation.InviteeUserID a = Invitation.InviteeUserID b ->
    Invitation.Status a = InvitationStatusPending ->
    Invitation.Status b = InvitationStatusPending ->
    i = j.

(** The two constraints of the schema that the properties rely on: the
    foreign key of [ttr_players] into [ttrs], and the UNIQUE index of
    [invitations] on (ttr_id, invitee_user_id).  Every write of the
    repositories keeps them ([store_consistent_kept] below). *)
Record store_consistent (db : DB) : Prop := {
  players_ttr_fkey :
    forall t u, is_Some (ttr_players db !! (t, u)) -> is_Some (ttrs db !! t);
  invitations_unique :
    forall i j a b,
      invitations db !! i = Some a -> invitations db !! j = Some b ->
      Invitation.TTRID a = Invitation.TTRID b ->
      Invitation.InviteeUserID a = Invitation.InviteeUserID b ->
      i = j
}.

(** A computation keeps a property of the store. *)
Definition keeps {A : Type} (P : DB -> Prop) (m : M A) : Prop :=
  forall db, P db -> P (snd (m db)).

(** Some invitation of [inviteeUserID] to [ttrID] is PENDING
    ([pending_invitation], as a check). *)
Definition has_pending_invitation (db : DB) (ttrID inviteeUserID : UUID)
    : bool :=
  existsb (fun kv : N * Invitation.t =>
             String.eqb (Invitation.Status kv.2) InvitationStatusPending)
          (invitations_for ttrID inviteeUserID (invitations db)).

(** The user is on the roster, respectively among the co-captains, of a
    materialized TTR. *)
Definition is_player (ttr : TTR.t) (userID : UUID) : bool :=
  existsb (fun p => (TTRPlayer.UserID p =? userID)%N) (TTR.Players ttr).

Definition is_co_captain (ttr : TTR.t) (userID : UUID) : bool :=
  existsb (fun c => (TTRCoCaptain.UserID c =? userID)%N) (TTR.CoCaptains ttr).

(** The six preconditions of CreateInvitation as the specification lists
    them (section 4.2), read on the store: the kind of the first one that
    does not hold, or [None] when all six hold. *)
Definition CreateInvitation_first_failure
    (db : DB) (ttrID inviterUserID inviteeUserID : UUID) : option ErrorKind :=
  match ttrRepository.find db ttrID with
  | None => Some NotFound
  | Some ttr =>
      if negb ((TTR.CaptainUserID ttr =? inviterUserID)%N
               || is_co_captain ttr inviterUserID)
      then Some Unauthorized
      else if negb (bool_decide
                      (is_Some (userRepository.find db inviteeUserID)))
      then Some NotFound
      else if negb (Z.of_nat (length (TTR.Players ttr)) <? TTR.MaxPlayers ttr)
      then Some Full
      else if is_player ttr inviteeUserID then Some AlreadyExists
      else if has_pending_invitation db ttrID inviteeUserID
      then Some AlreadyExists
      else None
  end.

(** The struct that CreateInvitation builds, with the key it is stored
    under. *)
Definition new_invitation (id ttrID inviter invitee : UUID)
    (message : option string) : Invitation.t :=
  Invitation.mk id ttrID inviter invitee InvitationStatusPending message None.

(** The struct that UpdateTTR saves when no supplied maxPlayers is
    rejected: each supplied field overwrites in turn, each omitted one is
    kept. *)
Definition updated_fields (courseName courseLocation : option string)
    (teeDate teeTime : option Time) (maxPlayers : option Z)
    (status notes : option string) (ttr : TTR.t) : TTR.t :=
  let ttr := match courseName with
             | Some v => TTR.with_CourseName v ttr
             | None => ttr
             end in
  let ttr := match courseLocation with
             | Some v => TTR.with_CourseLocation (Some v) ttr
             | None => ttr
             end in
  let ttr := match teeDate with
             | Some v => TTR.with_TeeDate v ttr
             | None => ttr
             end in
  let ttr := match teeTime with
             | Some v => TTR.with_TeeTime v ttr
             | None => ttr
             end in
  let ttr := match maxPlayers with
             | Some v => TTR.with_MaxPlayers v ttr
             | None => ttr
             end in
  let ttr := match status with
             | Some v => TTR.with_Status v ttr
             | None => ttr
             end in
  match notes with
  | Some v => TTR.with_Notes (Some v) ttr
  | None => ttr
  end.

(** The status values of a TTR that [models] names. *)
Definition recognized_statuses : list string :=
  [ TTRStatusOpen; TTRStatusConfirmed; TTRStatusCancelled; TTRStatusCompleted ].

(** Executable checks of the two predicates, for concrete stores. *)
Definition capacity_invariantb (db : DB) : bool :=
  forallb (fun kv : N * TTR.t =>
             match TTR.DeletedAt kv.2 with
             | None =>
                 Z.of_nat (length (players_of db kv.1)) <=? TTR.MaxPlayers kv.2
             | Some _ => true
             end)
          (map_to_list (ttrs db)).

Definition store_consistentb (db : DB) : bool :=
  forallb (fun kv : N * N * string => has_row kv.1.1 (ttrs db))
          (map_to_list (ttr_players db))
  && forallb (fun kv : N * Invitation.t =>
                is_nil (invitations_for (Invitation.TTRID kv.2)
                          (Invitation.InviteeUserID kv.2)
                          (delete kv.1 (invitations db))))
             (map_to_list (invitations db)).

(** ** A sample store

    Four users; TTR 1 (two seats) and TTR 2 (one seat), both of captain
    10, who is their only player; user 11 is co-captain of TTR 1.
    Invitations 5 and 6 are PENDING (user 12 to TTR 2 and to TTR 1),
    invitation 7 (user 13 to TTR 1) was declined. *)
Module sample.

Definition user (id : UUID) (name : string) : User.t :=
  User.mk id (name +:+ "@example.com") name "Doe" None.

Definition ttr (id : UUID) (course : string) (maxPlayers : Z) : TTR.t :=
  TTR.mk id course None 20250 600 maxPlayers 10%N 10%N TTRStatusOpen
         None None [] [].

Definition store : DB :=
  mkDB
    (list_to_map [ (10%N, user 10 "ann"); (11%N, user 11 "bob");
                   (12%N, user 12 "cyd"); (13%N, user 13 "dee") ])
    (list_to_map [ (1%N, ttr 1 "Pebble Beach" 2);
                   (2%N, ttr 2 "Augusta" 1) ])
    {[ (1%N, 11%N) ]}
    (list_to_map [ ((1%N, 10%N), TTRPlayerStatusConfirmed);
                   ((2%N, 10%N), TTRPlayerStatusConfirmed) ])
    (list_to_map
       [ (5%N, Invitation.mk 5 2 10 12 InvitationStatusPending None None);
         (6%N, Invitation.mk 6 1 10 12 InvitationStatusPending None None);
         (7%N, Invitation.mk 7 1 11 13 InvitationStatusNo None (Some 100)) ]).

(** A store with the four users and nothing else, and the scenario of
    the specification (section 8) and of TestTTRCompleteFlow run on it:
    user 10 creates a TTR of four seats and makes 11 co-captain, invites
    12, who accepts; the captain sets 12 to MAYBE; 12 leaves.  The result
    is the roster after the acceptance, after the status update and after
    the leave. *)
Definition users_only : DB :=
  mkDB (users store) ∅ ∅ ∅ ∅.

Definition complete_flow
    : M (list TTRPlayer.t * list TTRPlayer.t * list TTRPlayer.t) :=
  TTRService.CreateTTR 1 10 "Pebble Beach" (Some "California") 20250 600 4
    (Some "Fun round") ;;;
  TTRService.AddCoCaptain 1 10 11 ;;;
  InvitationService.CreateInvitation 5 1 10 12 (Some "Join us for golf!") ;;;
  InvitationService.RespondToInvitation 100 5 12 InvitationStatusYes ;;;
  accepted <- TTRService.GetPlayers 1 ;;
  TTRService.UpdatePlayerStatus 1 10 12 TTRPlayerStatusMaybe ;;;
  updated <- TTRService.GetPlayers 1 ;;
  TTRService.LeaveTTR 1 12 ;;;
  left <- TTRService.GetPlayers 1 ;;
  ret (accepted, updated, left).

End sample.

(** ** What a service leaves alone

    From [db] to [db'], as the operations of TTRService go: [users] and
    [invitations] are as they were and no row of [ttrs] is gone. *)
Definition TTRService_frame (db db' : DB) : Prop :=
  users db' = users db /\
  invitations db' = invitations db /\
  forall id, is_Some (ttrs db !! id) -> is_Some (ttrs db' !! id).

(** As the operations of InvitationService go: [users], [ttrs] and
    [ttr_co_captains] are as they were and no row of [invitations] is
    gone. *)
Definition InvitationService_frame (db db' : DB) : Prop :=
  users db' = users db /\
  ttrs db' = ttrs db /\
  ttr_co_captains db' = ttr_co_captains db /\
  forall id, is_Some (invitations db !! id) -> is_Some (invitations db' !! id).

(** * Lemmas *)

(** ** Running the monad *)

Ltac mrun :=
  unfold bind, wrapped, query, exec, ret, fail in *; simpl in *.

Lemma fails_with_Err_elim {A : Type} k (e : error) :
  fails_with (A := A) k (Err e) -> kind e = k.
Proof. by intros (e' & [= <-] & Hk). Qed.

Lemma Err_not_succeeds {A : Type} (e : error) : ~ succeeds (A := A) (Err e).
Proof. intros (a & Ha). discriminate. Qed.

Lemma find_Players db id ttr :
  ttrRepository.find db id = Some ttr ->
  TTR.Players ttr = players_of db id.
Proof.
  unfold ttrRepository.find.
  destruct (ttrs db !! id) as [row|]; [|discriminate].
  destruct (TTR.DeletedAt row); [discriminate|].
  by intros [= <-].
Qed.

Lemma find_columns db id ttr :
  ttrRepository.find db id = Some ttr ->
  exists row, ttrs db !! id = Some row /\ TTR.DeletedAt row = None /\
    ttr = TTR.with_associations (co_captains_of db id) (players_of db id)
            (TTR.with_ID id row).
Proof.
  unfold ttrRepository.find.
  destruct (ttrs db !! id) as [row|]; [|discriminate].
  destruct (TTR.DeletedAt row) eqn:E; [discriminate|].
  intros [= <-]. eauto.
Qed.

Lemma has_row_true {K : Type} `{Countable K} {V : Type} (k : K) (m : gmap K V) :
  has_row k m = true <-> is_Some (m !! k).
Proof.
  unfold has_row. destruct (m !! k) eqn:E; split; intros Hx; try done; eauto.
Qed.

Lemma has_row_false {K : Type} `{Countable K} {V : Type} (k : K) (m : gmap K V) :
  has_row k m = false <-> m !! k = None.
Proof. unfold has_row. destruct (m !! k); split; intros; done. Qed.

Lemma set_ttr_players_id db : set_ttr_players (ttr_players db) db = db.
Proof. by destruct db. Qed.

(** ** Rosters under insertion *)

Lemma players_of_length_insert db t u s id :
  ttr_players db !! (t, u) = None ->
  length (players_of (set_ttr_players (<[(t, u) := s]> (ttr_players db)) db) id)
  = if decide (id = t) then S (length (players_of db id))
    else length (players_of db id).
Proof.
  intros Hnone. unfold players_of. simpl. rewrite !length_fmap.
  rewrite (Permutation_length
             (filter_Permutation _ _ _ (map_to_list_insert _ _ s Hnone))).
  rewrite filter_cons. simpl.
  destruct (decide (id = t)) as [->|Hne].
  - by rewrite decide_True.
  - rewrite decide_False by congruence. done.
Qed.

Lemma capacity_kept_add_player db t u s ttr :
  ttrRepository.find db t = Some ttr ->
  Z.of_nat (length (players_of db t)) < TTR.MaxPlayers ttr ->
  ttr_players db !! (t, u) = None ->
  capacity_kept db (set_ttr_players (<[(t, u) := s]> (ttr_players db)) db).
Proof.
  intros Hf Hlt Hnone id ttr' Hf'.
  destruct (find_columns _ _ _ Hf') as (row & Hrow & Hdel & ->).
  simpl in Hrow.
  assert (Hold : ttrRepository.find db id
                 = Some (TTR.with_associations (co_captains_of db id)
                           (players_of db id) (TTR.with_ID id row))).
  { unfold ttrRepository.find. by rewrite Hrow, Hdel. }
  eexists. split; [exact Hold|].
  unfold within_capacity. simpl.
  rewrite (players_of_length_insert db t u s id Hnone).
  destruct (decide (id = t)) as [->|Hne]; [|done].
  rewrite Hf in Hold. injection Hold as ->. simpl in Hlt. lia.
Qed.

Lemma capacity_kept_set_invitations db db' v :
  capacity_kept db db' -> capacity_kept db (set_invitations v db').
Proof. intros Hk id ttr Hf. exact (Hk id ttr Hf). Qed.

Lemma capacity_kept_invariant db db' :
  capacity_kept db db' -> capacity_invariant db -> capacity_invariant db'.
Proof.
  intros Hk Hinv id ttr' Hf'.
  destruct (Hk id ttr' Hf') as (ttr & Hf & Hw). apply Hw. by apply (Hinv id).
Qed.

(** ** JoinTTR *)

Lemma JoinTTR_full db ttrID userID ttr :
  ttrRepository.find db ttrID = Some ttr ->
  at_capacity ttr ->
  TTRService.JoinTTR ttrID userID db = (Err (errors_New "TTR is full"), db).
Proof.
  intros Hf Hc. unfold TTRService.JoinTTR, TTRService.getPlayerCount,
    ttrRepository.FindByID, ttrRepository.GetPlayers. mrun.
  rewrite Hf. simpl. unfold at_capacity in Hc.
  rewrite (find_Players _ _ _ Hf) in Hc.
  destruct (Z.geb_spec (Z.of_nat (length (players_of db ttrID)))
              (TTR.MaxPlayers ttr)); [done|lia].
Qed.

Lemma JoinTTR_Ok db ttrID userID u db' :
  TTRService.JoinTTR ttrID userID db = (Ok u, db') ->
  exists ttr,
    ttrRepository.find db ttrID = Some ttr /\
    Z.of_nat (length (players_of db ttrID)) < TTR.MaxPlayers ttr /\
    ttr_players db !! (ttrID, userID) = None /\
    db' = set_ttr_players
            (<[(ttrID, userID) := TTRPlayerStatusConfirmed]> (ttr_players db))
            db.
Proof.
  unfold TTRService.JoinTTR, TTRService.getPlayerCount,
    ttrRepository.FindByID, ttrRepository.GetPlayers,
    ttrRepository.IsPlayer, ttrRepository.AddPlayer. mrun.
  destruct (ttrRepository.find db ttrID) as [ttr|] eqn:Hf; simpl; [|done].
  destruct (Z.geb_spec (Z.of_nat (length (players_of db ttrID)))
              (TTR.MaxPlayers ttr)) as [|Hlt]; simpl; [done|].
  destruct (has_row (ttrID, userID) (ttr_players db)) eqn:Hp; simpl; [done|].
  rewrite Hp.
  destruct (has_row ttrID (ttrs db) && has_row userID (users db));
    simpl; [|done].
  intros [= _ <-]. exists ttr. apply has_row_false in Hp. auto.
Qed.

(** ** RespondToInvitation *)

Ltac unfold_respond :=
  unfold InvitationService.RespondToInvitation,
    invitationRepository.FindByID, invitationRepository.Update,
    ttrRepository.FindByID, ttrRepository.GetPlayers,
    ttrRepository.AddPlayer in *.

Lemma Respond_not_pending db now id actor status inv :
  invitations db !! id = Some inv ->
  Invitation.Status inv <> InvitationStatusPending ->
  exists e,
    InvitationService.RespondToInvitation now id actor status db = (Err e, db)
    /\ (Invitation.InviteeUserID inv = actor ->
        one_of status InvitationService.validStatuses = true ->
        e = errors_New "invitation has already been responded to").
Proof.
  intros Hinv Hst. unfold_respond. mrun.
  destruct (String.eqb status InvitationStatusYes
            || (String.eqb status InvitationStatusNo
                || (String.eqb status InvitationStatusMaybe || false)))
    eqn:Hv; simpl.
  2:{ eexists; split; [reflexivity|]. intros _ Hone.
      unfold one_of in Hone. simpl in Hone. congruence. }
  rewrite Hinv. simpl.
  destruct (N.eqb_spec (Invitation.InviteeUserID inv) actor) as [He|Hne]; simpl.
  2:{ eexists; split; [reflexivity|]. intros He. by destruct Hne. }
  destruct (String.eqb_spec (Invitation.Status inv) InvitationStatusPending)
    as [Hp|Hnp]; simpl.
  { by destruct Hst. }
  eexists; split; [reflexivity|]. done.
Qed.

Lemma Respond_YES_full db now id actor inv ttr :
  invitations db !! id = Some inv ->
  Invitation.Status inv = InvitationStatusPending ->
  Invitation.InviteeUserID inv = actor ->
  ttrRepository.find db (Invitation.TTRID inv) = Some ttr ->
  at_capacity ttr ->
  InvitationService.RespondToInvitation now id actor InvitationStatusYes db
  = (Err (errors_New "TTR is full, cannot accept invitation"), db).
Proof.
  intros Hinv Hst Hact Hf Hc. unfold_respond. mrun.
  rewrite Hinv. simpl. rewrite Hact, N.eqb_refl, Hst. simpl.
  rewrite Hf. simpl.
  unfold at_capacity in Hc. rewrite (find_Players _ _ _ Hf) in Hc.
  destruct (Z.geb_spec
              (Z.of_nat (length (players_of db (Invitation.TTRID inv))))
              (TTR.MaxPlayers ttr)); [done|lia].
Qed.

Lemma Respond_YES_at_capacity db now id actor inv ttr :
  invitations db !! id = Some inv ->
  ttrRepository.find db (Invitation.TTRID inv) = Some ttr ->
  at_capacity ttr ->
  exists e,
    InvitationService.RespondToInvitation now id actor InvitationStatusYes db
    = (Err e, db).
Proof.
  intros Hinv Hf Hc.
  destruct (String.eqb_spec (Invitation.Status inv) InvitationStatusPending)
    as [Hp|Hnp].
  - destruct (N.eqb_spec (Invitation.InviteeUserID inv) actor) as [He|Hne].
    + eexists. by apply (Respond_YES_full _ _ _ _ inv ttr).
    + unfold_respond. mrun. rewrite Hinv. simpl.
      apply N.eqb_neq in Hne. rewrite Hne. simpl. eauto.
  - destruct (Respond_not_pending db now id actor InvitationStatusYes
                inv Hinv Hnp) as (e & He & _). eauto.
Qed.

Lemma Respond_YES_Ok db now id actor r db' :
  InvitationService.RespondToInvitation now id actor InvitationStatusYes db
  = (Ok r, db') ->
  exists inv ttr,
    invitations db !! id = Some inv /\
    Invitation.Status inv = InvitationStatusPending /\
    Invitation.InviteeUserID inv = actor /\
    ttrRepository.find db (Invitation.TTRID inv) = Some ttr /\
    Z.of_nat (length (players_of db (Invitation.TTRID inv)))
      < TTR.MaxPlayers ttr /\
    ttr_players db !! (Invitation.TTRID inv, actor) = None /\
    db' = set_invitations
            (<[id := Invitation.with_RespondedAt (Some now)
                       (Invitation.with_Status InvitationStatusYes
                          (Invitation.with_ID id inv))]>
               (invitations db))
            (set_ttr_players
               (<[(Invitation.TTRID inv, actor) := TTRPlayerStatusConfirmed]>
                  (ttr_players db)) db).
Proof.
  unfold_respond. mrun.
  destruct (invitations db !! id) as [inv|] eqn:Hinv; simpl; [|done].
  destruct (N.eqb_spec (Invitation.InviteeUserID inv) actor) as [He|Hne];
    simpl; [|done].
  destruct (String.eqb_spec (Invitation.Status inv) InvitationStatusPending)
    as [Hp|Hnp]; simpl; [|done].
  destruct (ttrRepository.find db (Invitation.TTRID inv)) as [ttr|] eqn:Hf;
    simpl; [|done].
  destruct (Z.geb_spec
              (Z.of_nat (length (players_of db (Invitation.TTRID inv))))
              (TTR.MaxPlayers ttr)) as [|Hlt]; simpl; [done|].
  destruct (has_row (Invitation.TTRID inv, actor) (ttr_players db)) eqn:Hrow;
    simpl; [done|].
  destruct (has_row (Invitation.TTRID inv) (ttrs db)
            && has_row actor (users db)); simpl; [|done].
  destruct (invitationRepository.check_row _ _) eqn:Hchk; simpl; [done|].
  intros [= _ <-]. exists inv, ttr. apply has_row_false in Hrow.
  repeat split; try done.
Qed.

(** ** The executable checks are sound *)

Lemma capacity_invariantb_sound db :
  capacity_invariantb db = true -> capacity_invariant db.
Proof.
  unfold capacity_invariantb. rewrite forallb_forall.
  intros Hall id ttr Hf.
  destruct (find_columns _ _ _ Hf) as (row & Hrow & Hdel & ->).
  specialize (Hall (id, row)). simpl in Hall. rewrite Hdel in Hall.
  unfold within_capacity. simpl. apply Z.leb_le, Hall.
  apply list_elem_of_In. by apply elem_of_map_to_list.
Qed.

Lemma invitations_for_spec t u (m : gmap N Invitation.t) i a :
  (i, a) ∈ invitations_for t u m <->
  m !! i = Some a /\ Invitation.TTRID a = t /\ Invitation.InviteeUserID a = u.
Proof.
  unfold invitations_for. rewrite list_elem_of_filter, elem_of_map_to_list.
  simpl. tauto.
Qed.

Lemma is_nil_true {A : Type} (l : list A) : is_nil l = true <-> l = [].
Proof. by destruct l. Qed.

Lemma store_consistentb_sound db :
  store_consistentb db = true -> store_consistent db.
Proof.
  unfold store_consistentb. rewrite andb_true_iff, !forallb_forall.
  intros [Hfk Huniq]. split.
  - intros t u [s Hs]. apply has_row_true.
    apply (Hfk ((t, u), s)). apply list_elem_of_In.
    by apply elem_of_map_to_list.
  - intros i j a b Ha Hb Ht Hu.
    destruct (decide (i = j)) as [|Hne]; [done|exfalso].
    assert (Hia : In (i, a) (map_to_list (invitations db))).
    { apply list_elem_of_In. by apply elem_of_map_to_list. }
    apply Huniq, is_nil_true in Hia. simpl in Hia.
    assert (Hin : (j, b) ∈ invitations_for (Invitation.TTRID a)
                    (Invitation.InviteeUserID a) (delete i (invitations db))).
    { apply invitations_for_spec. rewrite lookup_delete_ne by done. auto. }
    rewrite Hia in Hin. by apply elem_of_nil in Hin.
Qed.

(** ** The scenarios of the specification, run on the model *)

Example complete_flow_rosters :
  fst (sample.complete_flow sample.users_only)
  = Ok ([ TTRPlayer.mk 1 10 TTRPlayerStatusConfirmed;
          TTRPlayer.mk 1 12 TTRPlayerStatusConfirmed ],
        [ TTRPlayer.mk 1 10 TTRPlayerStatusConfirmed;
          TTRPlayer.mk 1 12 TTRPlayerStatusMaybe ],
        [ TTRPlayer.mk 1 10 TTRPlayerStatusConfirmed ]).
Proof. vm_compute. reflexivity. Qed.

Example join_full_ttr :
  TTRService.JoinTTR 2 11 sample.store
  = (Err (errors_New "TTR is full"), sample.store).
Proof. vm_compute. reflexivity. Qed.

Example respond_by_stranger :
  InvitationService.RespondToInvitation 100 6 13 InvitationStatusYes
    sample.store
  = (Err (errors_New
            "unauthorized: you can only respond to your own invitations"),
     sample.store).
Proof. vm_compute. reflexivity. Qed.

Example reinvite_after_decline :
  CreateInvitation_first_failure sample.store 1 10 13 = None /\
  InvitationService.CreateInvitation 8 1 10 13 None sample.store
  = (Err (fmt_Errorf "failed to create invitation"
            (fmt_Errorf "failed to create invitation" ErrDuplicateKey)),
     sample.store).
Proof. split; vm_compute; reflexivity. Qed.

(** ** The constraints of the schema are kept

    Every write of the repositories keeps [store_consistent], and so does
    every operation of the two services. *)

Lemma keeps_ret {A : Type} (P : DB -> Prop) (a : A) : keeps P (ret a).
Proof. by intros db. Qed.

Lemma keeps_fail {A : Type} (P : DB -> Prop) (e : error) :
  keeps P (fail (A := A) e).
Proof. by intros db. Qed.

Lemma keeps_query {A : Type} (P : DB -> Prop) (f : DB -> A) :
  keeps P (query f).
Proof. by intros db. Qed.

Lemma keeps_wrapped {A : Type} (P : DB -> Prop) prefix (m : M A) :
  keeps P m -> keeps P (wrapped prefix m).
Proof.
  intros Hm db Hdb. specialize (Hm db Hdb). unfold wrapped.
  by destruct (m db) as [[a|e] db'].
Qed.

Lemma keeps_bind {A B : Type} (P : DB -> Prop) (m : M A) (k : A -> M B) :
  keeps P m -> (forall a, keeps P (k a)) -> keeps P (bind m k).
Proof.
  intros Hm Hk db Hdb. specialize (Hm db Hdb). unfold bind.
  destruct (m db) as [[a|e] db']; [|done]. by apply Hk.
Qed.

Lemma store_consistent_set_ttrs db row id :
  store_consistent db ->
  store_consistent (set_ttrs (<[id := row]> (ttrs db)) db).
Proof.
  intros [Hfk Huniq]. split; [|done].
  intros t u Hp. simpl in *.
  destruct (decide (id = t)) as [->|Hne].
  - rewrite lookup_insert_eq. eauto.
  - rewrite lookup_insert_ne by done. eauto.
Qed.

Lemma ttr_Create_keeps gen ttr :
  keeps store_consistent (ttrRepository.Create gen ttr).
Proof.
  apply keeps_wrapped. intros db Hdb. cbv beta zeta.
  destruct (ttrRepository.check_row _ db); [done|].
  destruct (has_row _ (ttrs db)); [done|].
  by apply store_consistent_set_ttrs.
Qed.

Lemma ttr_Update_keeps ttr : keeps store_consistent (ttrRepository.Update ttr).
Proof.
  apply keeps_wrapped. intros db Hdb. cbv beta.
  destruct (ttrRepository.check_row _ db); [done|].
  by apply store_consistent_set_ttrs.
Qed.

Lemma ttr_Delete_keeps now id :
  keeps store_consistent (ttrRepository.Delete now id).
Proof.
  apply keeps_wrapped. intros db Hdb. unfold exec. simpl.
  destruct (ttrs db !! id) as [row|]; [|done].
  destruct (TTR.DeletedAt row); [done|].
  by apply store_consistent_set_ttrs.
Qed.

Lemma AddCoCaptain_keeps t u :
  keeps store_consistent (ttrRepository.AddCoCaptain t u).
Proof.
  apply keeps_wrapped. intros db Hdb. cbv beta.
  destruct (bool_decide _); [done|]. destruct (negb _); [done|].
  by destruct Hdb.
Qed.

Lemma RemoveCoCaptain_keeps t u :
  keeps store_consistent (ttrRepository.RemoveCoCaptain t u).
Proof. apply keeps_wrapped. intros db Hdb. by destruct Hdb. Qed.

Lemma AddPlayer_keeps t u s :
  keeps store_consistent (ttrRepository.AddPlayer t u s).
Proof.
  apply keeps_wrapped. intros db [Hfk Huniq]. cbv beta.
  destruct (negb (varchar 50 s)); [done|].
  destruct (has_row (t, u) (ttr_players db)); [done|].
  destruct (has_row t (ttrs db)) eqn:Ht; simpl; [|done].
  destruct (has_row u (users db)); simpl; [|done].
  split; [|done]. intros t' u' Hp. simpl in *.
  destruct (decide ((t, u) = (t', u'))) as [[= <- <-]|Hne].
  - by apply has_row_true.
  - rewrite lookup_insert_ne in Hp by done. eauto.
Qed.

Lemma RemovePlayer_keeps t u :
  keeps store_consistent (ttrRepository.RemovePlayer t u).
Proof.
  apply keeps_wrapped. intros db [Hfk Huniq]. split; [|done].
  intros t' u' [s Hp]. simpl in *.
  apply lookup_delete_Some in Hp as [_ Hp]. eauto.
Qed.

Lemma store_consistent_write_invitation db inv :
  store_consistent db ->
  invitationRepository.check_row inv db = None ->
  store_consistent
    (set_invitations (<[Invitation.ID inv := inv]> (invitations db)) db).
Proof.
  intros [Hfk Huniq] Hchk. split; [done|].
  unfold invitationRepository.check_row in Hchk.
  destruct (negb (varchar _ _)); [done|].
  destruct (negb (_ && _ && _)); [done|].
  destruct (is_nil _) eqn:Hnil; [|done]. apply is_nil_true in Hnil.
  assert (Hfresh : forall j b, j <> Invitation.ID inv ->
                     invitations db !! j = Some b ->
                     Invitation.TTRID b = Invitation.TTRID inv ->
                     Invitation.InviteeUserID b = Invitation.InviteeUserID inv
                     -> False).
  { intros j b Hj Hb Ht Hu.
    assert (Hin : (j, b) ∈ invitations_for (Invitation.TTRID inv)
                    (Invitation.InviteeUserID inv)
                    (delete (Invitation.ID inv) (invitations db))).
    { apply invitations_for_spec. by rewrite lookup_delete_ne. }
    rewrite Hnil in Hin. by apply elem_of_nil in Hin. }
  intros i j a b. simpl.
  destruct (decide (i = Invitation.ID inv)) as [->|Hi];
    destruct (decide (j = Invitation.ID inv)) as [->|Hj]; [done| | |].
  - rewrite lookup_insert_eq, lookup_insert_ne by done.
    intros [= <-] Hb Ht Hu. destruct (Hfresh j b); done.
  - rewrite lookup_insert_eq, lookup_insert_ne by done.
    intros Ha [= <-] Ht Hu. destruct (Hfresh i a); done.
  - rewrite !lookup_insert_ne by done. apply Huniq.
Qed.

Lemma invitation_Create_keeps gen inv :
  keeps store_consistent (invitationRepository.Create gen inv).
Proof.
  apply keeps_wrapped. intros db Hdb. cbv beta zeta.
  destruct (has_row _ (invitations db)); [done|].
  destruct (invitationRepository.check_row _ db) eqn:Hchk; [done|].
  by apply store_consistent_write_invitation.
Qed.

Lemma invitation_Update_keeps inv :
  keeps store_consistent (invitationRepository.Update inv).
Proof.
  apply keeps_wrapped. intros db Hdb. cbv beta.
  destruct (invitationRepository.check_row _ db) eqn:Hchk; [done|].
  by apply store_consistent_write_invitation.
Qed.

Create HintDb keeps_db.
#[local] Hint Resolve ttr_Create_keeps ttr_Update_keeps ttr_Delete_keeps
  AddCoCaptain_keeps RemoveCoCaptain_keeps AddPlayer_keeps RemovePlayer_keeps
  invitation_Create_keeps invitation_Update_keeps : keeps_db.

Ltac keeps_step :=
  first
    [ apply keeps_ret
    | apply keeps_fail
    | apply keeps_query
    | solve [auto with keeps_db]
    | apply keeps_wrapped
    | apply keeps_bind; [|intros ?]
    | match goal with
      | |- keeps _ (if ?c then _ else _) => destruct c
      | |- keeps _ (match ?x with _ => _ end) => destruct x
      | |- keeps _ (let _ := _ in _) => cbv zeta
      end ].

Ltac keeps_tac := repeat keeps_step.

(** Every operation of the two services keeps the constraints. *)
Lemma store_consistent_kept :
  (forall gen userID courseName courseLocation teeDate teeTime maxPlayers notes,
      keeps store_consistent
        (TTRService.CreateTTR gen userID courseName courseLocation teeDate
           teeTime maxPlayers notes)) /\
  (forall ttrID userID courseName courseLocation teeDate teeTime maxPlayers
          status notes,
      keeps store_consistent
        (TTRService.UpdateTTR ttrID userID courseName courseLocation teeDate
           teeTime maxPlayers status notes)) /\
  (forall now ttrID userID,
      keeps store_consistent (TTRService.DeleteTTR now ttrID userID)) /\
  (forall ttrID captainUserID coCaptainUserID,
      keeps store_consistent
        (TTRService.AddCoCaptain ttrID captainUserID coCaptainUserID)) /\
  (forall ttrID captainUserID coCaptainUserID,
      keeps store_consistent
        (TTRService.RemoveCoCaptain ttrID captainUserID coCaptainUserID)) /\
  (forall ttrID userID,
      keeps store_consistent (TTRService.JoinTTR ttrID userID)) /\
  (forall ttrID userID,
      keeps store_consistent (TTRService.LeaveTTR ttrID userID)) /\
  (forall ttrID managerUserID playerUserID status,
      keeps store_consistent
        (TTRService.UpdatePlayerStatus ttrID managerUserID playerUserID
           status)) /\
  (forall gen ttrID inviterUserID inviteeUserID message,
      keeps store_consistent
        (InvitationService.CreateInvitation gen ttrID inviterUserID
           inviteeUserID message)) /\
  (forall now invitationID inviteeUserID status,
      keeps store_consistent
        (InvitationService.RespondToInvitation now invitationID inviteeUserID
           status)) /\
  (forall invitationID userID,
      keeps store_consistent
        (InvitationService.CancelInvitation invitationID userID)).
Proof.
  repeat apply conj; intros.
  - unfold TTRService.CreateTTR, userRepository.FindByID,
      ttrRepository.FindByID. keeps_tac.
  - unfold TTRService.UpdateTTR, TTRService.canManageTTR,
      TTRService.isCaptain, TTRService.isCoCaptain,
      ttrRepository.IsCoCaptain, ttrRepository.FindByID. keeps_tac.
  - unfold TTRService.DeleteTTR, TTRService.isCaptain,
      ttrRepository.FindByID. keeps_tac.
  - unfold TTRService.AddCoCaptain, TTRService.isCaptain,
      ttrRepository.IsCoCaptain, userRepository.FindByID,
      ttrRepository.FindByID. keeps_tac.
  - unfold TTRService.RemoveCoCaptain, TTRService.isCaptain,
      ttrRepository.FindByID. keeps_tac.
  - unfold TTRService.JoinTTR, TTRService.getPlayerCount,
      ttrRepository.GetPlayers, ttrRepository.IsPlayer,
      ttrRepository.FindByID. keeps_tac.
  - unfold TTRService.LeaveTTR, ttrRepository.FindByID. keeps_tac.
  - unfold TTRService.UpdatePlayerStatus, TTRService.canManageTTR,
      TTRService.isCaptain, TTRService.isCoCaptain,
      ttrRepository.IsCoCaptain, ttrRepository.GetPlayers,
      ttrRepository.FindByID. keeps_tac.
  - unfold InvitationService.CreateInvitation, ttrRepository.IsCoCaptain,
      userRepository.FindByID, ttrRepository.GetPlayers,
      ttrRepository.IsPlayer, invitationRepository.FindByTTRAndInvitee,
      invitationRepository.FindByID, ttrRepository.FindByID. keeps_tac.
  - unfold InvitationService.RespondToInvitation, ttrRepository.GetPlayers,
      invitationRepository.FindByID, ttrRepository.FindByID. keeps_tac.
  - unfold InvitationService.CancelInvitation,
      invitationRepository.FindByID. keeps_tac.
Qed.

(** * Capacity *)

(** C1.  A successful JoinTTR and a successful RespondToInvitation with
    YES leave every roster that was within its capacity within its
    capacity ([len(players) <= MaxPlayers]).  When the roster of an
    existing TTR is at capacity ([len(players) >= MaxPlayers]), JoinTTR
    fails with Full and RespondToInvitation with YES never succeeds,
    failing with Full for the invitee of a PENDING invitation; both leave
    the store as it was. *)
Theorem C1_roster_within_capacity (db : DB) :
  (forall ttrID userID,
      let (r, db') := TTRService.JoinTTR ttrID userID db in
      (succeeds r -> capacity_kept db db') /\
      (forall ttr, ttrRepository.find db ttrID = Some ttr -> at_capacity ttr ->
                   fails_with Full r /\ db' = db)) /\
  (forall now invitationID inviteeUserID,
      let (r, db') :=
        InvitationService.RespondToInvitation now invitationID inviteeUserID
          InvitationStatusYes db in
      (succeeds r -> capacity_kept db db') /\
      (forall inv ttr,
          invitations db !! invitationID = Some inv ->
          ttrRepository.find db (Invitation.TTRID inv) = Some ttr ->
          at_capacity ttr ->
          ~ succeeds r /\ db' = db /\
          (Invitation.Status inv = InvitationStatusPending ->
           Invitation.InviteeUserID inv = inviteeUserID ->
           fails_with Full r))).
Proof.
  split.
  - intros ttrID userID.
    destruct (TTRService.JoinTTR ttrID userID db) as [r db'] eqn:Hrun.
    split.
    + intros [[] ->].
      destruct (JoinTTR_Ok _ _ _ _ _ Hrun) as (ttr & Hf & Hlt & Hnone & ->).
      by apply (capacity_kept_add_player db ttrID userID _ ttr).
    + intros ttr Hf Hc. rewrite (JoinTTR_full _ _ _ _ Hf Hc) in Hrun.
      injection Hrun as <- <-. split; [|done].
      eexists; split; [reflexivity|]. reflexivity.
  - intros now invitationID inviteeUserID.
    destruct (InvitationService.RespondToInvitation now invitationID
                inviteeUserID InvitationStatusYes db) as [r db'] eqn:Hrun.
    split.
    + intros [a ->].
      destruct (Respond_YES_Ok _ _ _ _ _ _ Hrun)
        as (inv & ttr & Hi & Hp & He & Hf & Hlt & Hnone & ->).
      apply capacity_kept_set_invitations.
      by apply (capacity_kept_add_player db _ _ _ ttr).
    + intros inv ttr Hi Hf Hc.
      destruct (Respond_YES_at_capacity db now invitationID inviteeUserID
                  inv ttr Hi Hf Hc) as (e & He).
      rewrite He in Hrun. injection Hrun as <- <-.
      split; [apply Err_not_succeeds|]. split; [done|].
      intros Hp Hact.
      rewrite (Respond_YES_full _ _ _ _ _ _ Hi Hp Hact Hf Hc) in He.
      injection He as <-. eexists; split; [reflexivity|]. reflexivity.
Qed.

Lemma C1_roster_within_capacity_witness :
  capacity_invariant sample.store /\
  (succeeds (fst (TTRService.JoinTTR 1 12 sample.store)) /\
   capacity_invariant (snd (TTRService.JoinTTR 1 12 sample.store))) /\
  (fails_with Full (fst (TTRService.JoinTTR 2 12 sample.store)) /\
   snd (TTRService.JoinTTR 2 12 sample.store) = sample.store) /\
  (succeeds (fst (InvitationService.RespondToInvitation 200 6 12
                    InvitationStatusYes sample.store)) /\
   capacity_invariant
     (snd (InvitationService.RespondToInvitation 200 6 12
             InvitationStatusYes sample.store))) /\
  (fails_with Full (fst (InvitationService.RespondToInvitation 200 5 12
                           InvitationStatusYes sample.store)) /\
   snd (InvitationService.RespondToInvitation 200 5 12
          InvitationStatusYes sample.store) = sample.store).
Proof.
  assert (Hinv : capacity_invariant sample.store).
  { apply capacity_invariantb_sound. vm_compute. reflexivity. }
  destruct (C1_roster_within_capacity sample.store) as [HJ HR].
  split; [exact Hinv|]. split; [|split; [|split]].
  - specialize (HJ 1%N 12%N).
    destruct (TTRService.JoinTTR 1 12 sample.store) as [r db'] eqn:E.
    assert (Hs : succeeds r).
    { vm_compute in E. injection E as <- _. by eexists. }
    simpl. split; [exact Hs|].
    apply (capacity_kept_invariant sample.store); [by apply HJ|exact Hinv].
  - specialize (HJ 2%N 12%N).
    destruct (TTRService.JoinTTR 2 12 sample.store) as [r db'] eqn:E.
    destruct HJ as [_ HJ]. simpl.
    destruct (ttrRepository.find sample.store 2) as [ttr|] eqn:Hf;
      [|vm_compute in Hf; discriminate].
    apply (HJ ttr eq_refl).
    vm_compute in Hf. injection Hf as <-. vm_compute. discriminate.
  - specialize (HR 200 6%N 12%N).
    destruct (InvitationService.RespondToInvitation 200 6 12
                InvitationStatusYes sample.store) as [r db'] eqn:E.
    assert (Hs : succeeds r).
    { vm_compute in E. injection E as <- _. by eexists. }
    simpl. split; [exact Hs|].
    apply (capacity_kept_invariant sample.store); [by apply HR|exact Hinv].
  - specialize (HR 200 5%N 12%N).
    destruct (InvitationService.RespondToInvitation 200 5 12
                InvitationStatusYes sample.store) as [r db'] eqn:E.
    destruct HR as [_ HR]. simpl.
    destruct (invitations sample.store !! 5%N) as [inv|] eqn:Hi;
      [|vm_compute in Hi; discriminate].
    destruct (ttrRepository.find sample.store (Invitation.TTRID inv))
      as [ttr|] eqn:Hf;
      [|vm_compute in Hi; injection Hi as <-; vm_compute in Hf; discriminate].
    destruct (HR inv ttr eq_refl Hf) as (_ & Hdb & Hfull).
    + vm_compute in Hi. injection Hi as <-.
      vm_compute in Hf. injection Hf as <-. vm_compute. discriminate.
    + split; [|exact Hdb]. apply Hfull.
      * vm_compute in Hi. by injection Hi as <-.
      * vm_compute in Hi. by injection Hi as <-.
Defined.

(** C3.  Accepting a PENDING invitation to a TTR whose roster is at
    capacity fails with Full and writes nothing: the stored invitation is
    still the same PENDING row, with the respondedAt it had, and the
    roster has not changed. *)
Theorem C3_accept_on_full_roster (db : DB) (now : Time) (invitationID : UUID)
    (inv : Invitation.t) (ttr : TTR.t) :
  invitations db !! invitationID = Some inv ->
  Invitation.Status inv = InvitationStatusPending ->
  ttrRepository.find db (Invitation.TTRID inv) = Some ttr ->
  at_capacity ttr ->
  let (r, db') :=
    InvitationService.RespondToInvitation now invitationID
      (Invitation.InviteeUserID inv) InvitationStatusYes db in
  fails_with Full r /\
  db' = db /\
  Invitation.Status <$> invitations db' !! invitationID
    = Some InvitationStatusPending /\
  Invitation.RespondedAt <$> invitations db' !! invitationID
    = Some (Invitation.RespondedAt inv) /\
  players_of db' (Invitation.TTRID inv) = TTR.Players ttr.
Proof.
  intros Hi Hp Hf Hc.
  rewrite (Respond_YES_full db now invitationID _ inv ttr Hi Hp eq_refl Hf Hc).
  split; [eexists; split; reflexivity|]. split; [done|].
  rewrite Hi. simpl. rewrite Hp. repeat split.
  symmetry. by apply find_Players.
Qed.

Lemma C3_accept_on_full_roster_witness :
  fails_with Full
    (fst (InvitationService.RespondToInvitation 200 5 12 InvitationStatusYes
            sample.store)) /\
  snd (InvitationService.RespondToInvitation 200 5 12 InvitationStatusYes
         sample.store) = sample.store.
Proof.
  pose proof (C3_accept_on_full_roster sample.store 200 5%N
                (Invitation.mk 5 2 10 12 InvitationStatusPending None None)
                (TTR.mk 2 "Augusta" None 20250 600 1 10%N 10%N TTRStatusOpen
                   None None []
                   [TTRPlayer.mk 2 10 TTRPlayerStatusConfirmed])) as H.
  simpl in H.
  destruct (InvitationService.RespondToInvitation 200 5 12
              InvitationStatusYes sample.store) as [r db'].
  destruct H as (Hfull & Hdb & _).
  - vm_compute. reflexivity.
  - reflexivity.
  - vm_compute. reflexivity.
  - vm_compute. discriminate.
  - simpl. split; [exact Hfull|exact Hdb].
Defined.

(** * Captain-only operations *)

Lemma isCaptain_run db ttrID userID ttr :
  ttrRepository.find db ttrID = Some ttr ->
  TTRService.isCaptain ttrID userID db
  = (Ok (TTR.CaptainUserID ttr =? userID)%N, db).
Proof.
  intros Hf. unfold TTRService.isCaptain, ttrRepository.FindByID. mrun.
  by rewrite Hf.
Qed.

(** C6.  On an existing TTR, AddCoCaptain, RemoveCoCaptain and DeleteTTR
    called by anyone but the captain (a co-captain included) fail with
    Unauthorized and leave the store as it was; so they succeed only for
    the captain. *)
Theorem C6_captain_only (db : DB) (ttrID actor : UUID) (ttr : TTR.t) :
  ttrRepository.find db ttrID = Some ttr ->
  actor <> TTR.CaptainUserID ttr ->
  (forall target,
      fails_with Unauthorized
        (fst (TTRService.AddCoCaptain ttrID actor target db)) /\
      snd (TTRService.AddCoCaptain ttrID actor target db) = db) /\
  (forall target,
      fails_with Unauthorized
        (fst (TTRService.RemoveCoCaptain ttrID actor target db)) /\
      snd (TTRService.RemoveCoCaptain ttrID actor target db) = db) /\
  (forall now,
      fails_with Unauthorized (fst (TTRService.DeleteTTR now ttrID actor db)) /\
      snd (TTRService.DeleteTTR now ttrID actor db) = db).
Proof.
  intros Hf Hne.
  assert (Hcap : TTRService.isCaptain ttrID actor db = (Ok false, db)).
  { rewrite (isCaptain_run _ _ _ _ Hf).
    replace (TTR.CaptainUserID ttr =? actor)%N with false; [done|].
    symmetry. apply N.eqb_neq. congruence. }
  repeat split.
  - unfold TTRService.AddCoCaptain, bind, wrapped. rewrite Hcap. simpl.
    eexists; split; reflexivity.
  - unfold TTRService.AddCoCaptain, bind, wrapped. by rewrite Hcap.
  - unfold TTRService.RemoveCoCaptain, bind, wrapped. rewrite Hcap. simpl.
    eexists; split; reflexivity.
  - unfold TTRService.RemoveCoCaptain, bind, wrapped. by rewrite Hcap.
  - unfold TTRService.DeleteTTR, bind, wrapped. rewrite Hcap. simpl.
    eexists; split; reflexivity.
  - unfold TTRService.DeleteTTR, bind, wrapped. by rewrite Hcap.
Qed.

Lemma C6_captain_only_witness :
  TTRService.isCoCaptain 1 11 sample.store = (Ok true, sample.store) /\
  fails_with Unauthorized
    (fst (TTRService.AddCoCaptain 1 11 12 sample.store)) /\
  fails_with Unauthorized
    (fst (TTRService.RemoveCoCaptain 1 11 11 sample.store)) /\
  fails_with Unauthorized (fst (TTRService.DeleteTTR 300 1 11 sample.store)) /\
  snd (TTRService.DeleteTTR 300 1 11 sample.store) = sample.store.
Proof.
  split; [vm_compute; reflexivity|].
  destruct (ttrRepository.find sample.store 1) as [ttr|] eqn:Hf;
    [|vm_compute in Hf; discriminate].
  destruct (C6_captain_only sample.store 1%N 11%N ttr Hf) as (HA & HR & HD).
  - vm_compute in Hf. injection Hf as <-. simpl. discriminate.
  - split; [apply HA|]. split; [apply HR|]. apply HD.
Defined.

(** * Invitation life cycle *)

Lemma Cancel_not_pending db id actor inv :
  invitations db !! id = Some inv ->
  Invitation.Status inv <> InvitationStatusPending ->
  exists e,
    InvitationService.CancelInvitation id actor db = (Err e, db) /\
    (Invitation.InviterUserID inv = actor ->
     e = errors_New "only pending invitations can be canceled").
Proof.
  intros Hinv Hst.
  unfold InvitationService.CancelInvitation, invitationRepository.FindByID.
  mrun. rewrite Hinv. simpl.
  destruct (N.eqb_spec (Invitation.InviterUserID inv) actor) as [He|Hne]; simpl.
  2:{ eexists; split; [reflexivity|]. intros He. by destruct Hne. }
  destruct (String.eqb_spec (Invitation.Status inv) InvitationStatusPending)
    as [Hp|Hnp]; simpl.
  { by destruct Hst. }
  eexists; split; [reflexivity|]. done.
Qed.

Lemma invitation_Create_keeps_rows gen inv db id row :
  invitations db !! id = Some row ->
  invitations (snd (invitationRepository.Create gen inv db)) !! id = Some row.
Proof.
  intros Hrow. unfold invitationRepository.Create. mrun.
  destruct (has_row _ (invitations db)) eqn:Hk; simpl; [done|].
  destruct (invitationRepository.check_row _ _); simpl; [done|].
  apply has_row_false in Hk.
  rewrite lookup_insert_ne; [done|]. intros <-. congruence.
Qed.

Lemma CreateInvitation_keeps_rows gen ttrID inviter invitee message db id row :
  invitations db !! id = Some row ->
  invitations
    (snd (InvitationService.CreateInvitation gen ttrID inviter invitee
            message db)) !! id = Some row.
Proof.
  intros Hrow.
  unfold InvitationService.CreateInvitation,
    NotificationService.CreateNotification, ttrRepository.FindByID,
    ttrRepository.IsCoCaptain, userRepository.FindByID,
    ttrRepository.GetPlayers, ttrRepository.IsPlayer,
    invitationRepository.FindByTTRAndInvitee, invitationRepository.FindByID.
  unfold bind at 1 2 3 4 5 6 7 8. unfold wrapped at 1 2 3 4 5 6 7 8 9 10 11.
  unfold query, ret, fail. simpl.
  repeat (match goal with
          | |- context [match ?x with _ => _ end] =>
              lazymatch x with
              | context [invitationRepository.Create] => fail
              | _ => destruct x eqn:?; simpl; try done
              end
          end).
  all: pose proof (invitation_Create_keeps_rows gen
         (Invitation.mk 0 ttrID inviter invitee InvitationStatusPending
            message None) db id row Hrow) as Hk.
  all: unfold bind, wrapped, ret.
  all: destruct (invitationRepository.Create _ _ db) as [[c|e] db1]; simpl in *.
  all: done.
Qed.

(** C7.  An invitation whose status is not PENDING stays as it is: neither
    RespondToInvitation nor CancelInvitation ever succeeds on it, both
    leave the store as it was, and the error is InvalidOperation when the
    call is the invitee's (with a valid answer), respectively the
    inviter's; CreateInvitation leaves the row as it was too. *)
Theorem C7_no_transition_from_answered (db : DB) (invitationID : UUID)
    (inv : Invitation.t) :
  invitations db !! invitationID = Some inv ->
  Invitation.Status inv <> InvitationStatusPending ->
  (forall now actor status,
      let (r, db') :=
        InvitationService.RespondToInvitation now invitationID actor status db
      in
      ~ succeeds r /\ db' = db /\
      (actor = Invitation.InviteeUserID inv ->
       one_of status InvitationService.validStatuses = true ->
       fails_with InvalidOperation r)) /\
  (forall actor,
      let (r, db') := InvitationService.CancelInvitation invitationID actor db
      in
      ~ succeeds r /\ db' = db /\
      (actor = Invitation.InviterUserID inv -> fails_with InvalidOperation r)) /\
  (forall gen ttrID inviter invitee message,
      invitations
        (snd (InvitationService.CreateInvitation gen ttrID inviter invitee
                message db)) !! invitationID = Some inv).
Proof.
  intros Hi Hst. split; [|split].
  - intros now actor status.
    destruct (Respond_not_pending db now invitationID actor status inv Hi Hst)
      as (e & -> & He).
    split; [apply Err_not_succeeds|]. split; [done|].
    intros -> Hv. rewrite (He eq_refl Hv). eexists; split; reflexivity.
  - intros actor.
    destruct (Cancel_not_pending db invitationID actor inv Hi Hst)
      as (e & -> & He).
    split; [apply Err_not_succeeds|]. split; [done|].
    intros ->. rewrite (He eq_refl). eexists; split; reflexivity.
  - intros. by apply CreateInvitation_keeps_rows.
Qed.

Lemma C7_no_transition_from_answered_witness :
  fails_with InvalidOperation
    (fst (InvitationService.RespondToInvitation 200 7 13 InvitationStatusYes
            sample.store)) /\
  snd (InvitationService.RespondToInvitation 200 7 13 InvitationStatusYes
         sample.store) = sample.store /\
  fails_with InvalidOperation
    (fst (InvitationService.CancelInvitation 7 11 sample.store)) /\
  snd (InvitationService.CancelInvitation 7 11 sample.store) = sample.store.
Proof.
  destruct (C7_no_transition_from_answered sample.store 7%N
              (Invitation.mk 7 1 11 13 InvitationStatusNo None (Some 100)))
    as (HR & HC & _).
  - vm_compute. reflexivity.
  - vm_compute. discriminate.
  - specialize (HR 200 13%N InvitationStatusYes). specialize (HC 11%N).
    destruct (InvitationService.RespondToInvitation 200 7 13
                InvitationStatusYes sample.store) as [r1 db1].
    destruct (InvitationService.CancelInvitation 7 11 sample.store)
      as [r2 db2].
    destruct HR as (_ & -> & HR). destruct HC as (_ & -> & HC). simpl.
    split; [by apply HR|]. split; [done|]. split; [by apply HC|done].
Defined.

(** * Creating invitations *)

Lemma is_player_has_row db ttrID ttr userID :
  ttrRepository.find db ttrID = Some ttr ->
  is_player ttr userID = has_row (ttrID, userID) (ttr_players db).
Proof.
  intros Hf. unfold is_player. rewrite (find_Players _ _ _ Hf).
  apply eq_iff_eq_true. rewrite existsb_exists, has_row_true. split.
  - intros (p & Hin & Hp). apply N.eqb_eq in Hp.
    apply list_elem_of_In in Hin. unfold players_of in Hin.
    apply list_elem_of_fmap in Hin as ([[t u] s] & -> & Hin).
    apply list_elem_of_filter in Hin as [Ht Hin]. simpl in *. subst.
    apply elem_of_map_to_list in Hin. eauto.
  - intros [s Hs].
    exists (TTRPlayer.mk ttrID userID s). split; [|by apply N.eqb_eq].
    apply list_elem_of_In. unfold players_of.
    apply list_elem_of_fmap. exists ((ttrID, userID), s). split; [done|].
    apply list_elem_of_filter. split; [done|]. by apply elem_of_map_to_list.
Qed.

Lemma is_co_captain_decide db ttrID ttr userID :
  ttrRepository.find db ttrID = Some ttr ->
  is_co_captain ttr userID
  = bool_decide ((ttrID, userID) ∈ ttr_co_captains db).
Proof.
  intros Hf. destruct (find_columns _ _ _ Hf) as (row & _ & _ & ->).
  unfold is_co_captain. simpl.
  apply eq_iff_eq_true. rewrite existsb_exists, bool_decide_eq_true. split.
  - intros (c & Hin & Hc). apply N.eqb_eq in Hc.
    apply list_elem_of_In in Hin. unfold co_captains_of in Hin.
    apply list_elem_of_fmap in Hin as ([t u] & -> & Hin).
    apply list_elem_of_filter in Hin as [Ht Hin]. simpl in *. subst.
    by apply elem_of_elements in Hin.
  - intros Hin.
    exists (TTRCoCaptain.mk ttrID userID). split; [|by apply N.eqb_eq].
    apply list_elem_of_In. unfold co_captains_of.
    apply list_elem_of_fmap. exists (ttrID, userID). split; [done|].
    apply list_elem_of_filter. split; [done|]. by apply elem_of_elements.
Qed.

Lemma NoDup_all_equal {A : Type} (l : list A) (y : A) :
  NoDup l -> (forall x, x ∈ l -> x = y) -> l = [] \/ l = [y].
Proof.
  intros Hnd Hall. destruct l as [|x l]; [by left|right].
  assert (x = y) as -> by (apply Hall; left).
  destruct l as [|z l]; [done|exfalso].
  assert (z = y) as -> by (apply Hall; right; left).
  apply NoDup_cons in Hnd as [Hnin _]. apply Hnin. left.
Qed.

Lemma invitations_for_at_most_one db t u :
  store_consistent db ->
  invitations_for t u (invitations db) = [] \/
  exists i a, invitations_for t u (invitations db) = [(i, a)].
Proof.
  intros [_ Huniq].
  destruct (invitations_for t u (invitations db)) as [|[i a] l] eqn:E;
    [by left|right].
  exists i, a.
  assert (Hia : (i, a) ∈ invitations_for t u (invitations db)).
  { rewrite E. left. }
  apply invitations_for_spec in Hia as (Hi & Ht & Hu).
  destruct (NoDup_all_equal ((i, a) :: l) (i, a)) as [|Hl]; [| |done|done].
  - rewrite <- E. apply NoDup_filter, NoDup_map_to_list.
  - intros [j b] Hjb. rewrite <- E in Hjb.
    apply invitations_for_spec in Hjb as (Hj & Ht' & Hu').
    assert (j = i) as -> by (apply (Huniq j i b a); congruence).
    congruence.
Qed.

Lemma pending_check_agrees db t u :
  store_consistent db ->
  match (fun kv : N * Invitation.t => Invitation.with_ID kv.1 kv.2)
          <$> first_by_key (invitations_for t u (invitations db)) with
  | Some existing =>
      String.eqb (Invitation.Status existing) InvitationStatusPending
  | None => false
  end = has_pending_invitation db t u.
Proof.
  intros Hc. unfold has_pending_invitation.
  destruct (invitations_for_at_most_one db t u Hc) as [->|(i & a & ->)].
  - done.
  - simpl. by rewrite orb_false_r.
Qed.

Lemma has_pending_invitation_spec db t u :
  has_pending_invitation db t u = true <-> pending_invitation db t u.
Proof.
  unfold has_pending_invitation, pending_invitation.
  rewrite existsb_exists. split.
  - intros ([i a] & Hin & Hp). apply String.eqb_eq in Hp.
    apply list_elem_of_In, invitations_for_spec in Hin as (Hi & Ht & Hu).
    exists i, a. auto.
  - intros (i & a & Hi & Ht & Hu & Hp). exists (i, a).
    split; [|by apply String.eqb_eq].
    apply list_elem_of_In, invitations_for_spec. auto.
Qed.

Lemma invitation_Create_new gen ttrID inviter invitee message db :
  (exists e,
     invitationRepository.Create gen
       (new_invitation 0 ttrID inviter invitee message) db
     = (Err (fmt_Errorf "failed to create invitation" e), db) /\
     (e = ErrDuplicateKey \/ e = ErrForeignKey \/ e = ErrValueTooLong)) \/
  (invitations db !! gen = None /\
   invitationRepository.Create gen
     (new_invitation 0 ttrID inviter invitee message) db
   = (Ok (new_invitation gen ttrID inviter invitee message),
      set_invitations
        (<[gen := new_invitation gen ttrID inviter invitee message]>
           (invitations db)) db)).
Proof.
  unfold invitationRepository.Create, invitationRepository.check_row. mrun.
  destruct (has_row gen (invitations db)) eqn:Hk; simpl.
  { left. eexists; split; [reflexivity|]. auto. }
  destruct (has_row ttrID (ttrs db) && has_row inviter (users db)
            && has_row invitee (users db)); simpl.
  2:{ left. eexists; split; [reflexivity|]. auto. }
  destruct (is_nil _); simpl.
  2:{ left. eexists; split; [reflexivity|]. auto. }
  right. split; [by apply has_row_false|done].
Qed.

Lemma CreateInvitation_cases gen ttrID inviter invitee message db :
  InvitationService.CreateInvitation gen ttrID inviter invitee message db =
  match ttrRepository.find db ttrID with
  | None => (Err (errors_New "TTR not found"), db)
  | Some ttr =>
      if negb (TTR.CaptainUserID ttr =? inviter)%N
         && negb (bool_decide ((ttrID, inviter) ∈ ttr_co_captains db))
      then (Err (errors_New
              "unauthorized: only captain or co-captain can send invitations"),
            db)
      else
        match userRepository.find db invitee with
        | None => (Err (errors_New "invitee user not found"), db)
        | Some _ =>
            if Z.of_nat (length (players_of db ttrID)) >=? TTR.MaxPlayers ttr
            then (Err (errors_New "TTR is full"), db)
            else if has_row (ttrID, invitee) (ttr_players db)
            then (Err (errors_New "invitee is already a player in this TTR"),
                  db)
            else if
              match (fun kv : N * Invitation.t =>
                       Invitation.with_ID kv.1 kv.2)
                      <$> first_by_key
                            (invitations_for ttrID invitee (invitations db))
              with
              | Some existing =>
                  String.eqb (Invitation.Status existing)
                             InvitationStatusPending
              | None => false
              end
            then (Err (errors_New
                         "pending invitation already exists for this user"),
                  db)
            else
              match invitationRepository.Create gen
                      (new_invitation 0 ttrID inviter invitee message) db with
              | (Ok inv, db1) =>
                  (Ok (Invitation.with_ID (Invitation.ID inv)
                         <$> invitations db1 !! Invitation.ID inv), db1)
              | (Err e, db1) =>
                  (Err (fmt_Errorf "failed to create invitation" e), db1)
              end
        end
  end.
Proof.
  unfold InvitationService.CreateInvitation,
    NotificationService.CreateNotification, ttrRepository.FindByID,
    ttrRepository.IsCoCaptain, userRepository.FindByID,
    ttrRepository.GetPlayers, ttrRepository.IsPlayer,
    invitationRepository.FindByTTRAndInvitee, invitationRepository.FindByID.
  unfold new_invitation.
  unfold bind at 1 2 3 4 5 6 7 8. unfold wrapped at 1 2 3 4 5 6 7 8 9 10 11.
  unfold query, ret, fail. simpl.
  destruct (ttrRepository.find db ttrID) as [ttr|]; simpl; [|done].
  destruct (negb (TTR.CaptainUserID ttr =? inviter)%N
            && negb (bool_decide ((ttrID, inviter) ∈ ttr_co_captains db)));
    simpl; [done|].
  destruct (userRepository.find db invitee); simpl; [|done].
  destruct (Z.of_nat (length (players_of db ttrID)) >=? TTR.MaxPlayers ttr);
    simpl; [done|].
  destruct (has_row (ttrID, invitee) (ttr_players db)); simpl; [done|].
  destruct (match _ <$> first_by_key _ with Some _ => _ | None => _ end);
    simpl; [done|].
  unfold bind, wrapped, ret.
  destruct (invitationRepository.Create _ _ db) as [[inv|e] db1]; done.
Qed.

(** C2.  CreateInvitation checks the six preconditions in the order of
    the specification, and the first that fails decides the error; a
    failed precondition leaves the store as it was.  When all six hold,
    either the store rejects the row and nothing is written, or exactly
    one invitation is added: a PENDING one from the inviter to the invitee
    for this TTR, which is the value returned. *)
Theorem C2_create_invitation_preconditions (db : DB) (gen : UUID)
    (ttrID inviter invitee : UUID) (message : option string) :
  store_consistent db ->
  let (r, db') :=
    InvitationService.CreateInvitation gen ttrID inviter invitee message db in
  match CreateInvitation_first_failure db ttrID inviter invitee with
  | Some k => fails_with k r /\ db' = db
  | None =>
      (fails_with Internal r /\ db' = db) \/
      (exists inv,
          r = Ok (Some inv) /\
          inv = Invitation.mk (Invitation.ID inv) ttrID inviter invitee
                  InvitationStatusPending message None /\
          invitations db !! Invitation.ID inv = None /\
          db' = set_invitations
                  (<[Invitation.ID inv := inv]> (invitations db)) db)
  end.
Proof.
  intros Hc. rewrite CreateInvitation_cases.
  unfold CreateInvitation_first_failure.
  destruct (ttrRepository.find db ttrID) as [ttr|] eqn:Hf.
  2:{ split; [eexists; split; reflexivity|done]. }
  rewrite (is_co_captain_decide _ _ _ _ Hf), (is_player_has_row _ _ _ _ Hf),
    (find_Players _ _ _ Hf), negb_orb.
  destruct (negb (TTR.CaptainUserID ttr =? inviter)%N
            && negb (bool_decide ((ttrID, inviter) ∈ ttr_co_captains db)));
    simpl.
  { split; [eexists; split; reflexivity|done]. }
  destruct (userRepository.find db invitee) as [u|]; simpl.
  2:{ split; [eexists; split; reflexivity|done]. }
  rewrite Z.geb_leb, Z.ltb_antisym, negb_involutive.
  destruct (TTR.MaxPlayers ttr <=? Z.of_nat (length (players_of db ttrID)));
    simpl.
  { split; [eexists; split; reflexivity|done]. }
  destruct (has_row (ttrID, invitee) (ttr_players db)); simpl.
  { split; [eexists; split; reflexivity|done]. }
  rewrite (pending_check_agrees db ttrID invitee Hc).
  destruct (has_pending_invitation db ttrID invitee); simpl.
  { split; [eexists; split; reflexivity|done]. }
  destruct (invitation_Create_new gen ttrID inviter invitee message db)
    as [(e & -> & He)|(Hnone & ->)].
  - left. split; [|done]. eexists; split; [reflexivity|].
    by destruct He as [->|[->| ->]].
  - right. exists (new_invitation gen ttrID inviter invitee message).
    simpl. rewrite lookup_insert_eq. done.
Qed.

Lemma C2_create_invitation_preconditions_witness :
  store_consistent sample.store /\
  (CreateInvitation_first_failure sample.store 1 10 11 = None /\
   fst (InvitationService.CreateInvitation 8 1 10 11 None sample.store)
   = Ok (Some (new_invitation 8 1 10 11 None))) /\
  (CreateInvitation_first_failure sample.store 2 10 11 = Some Full /\
   fails_with Full
     (fst (InvitationService.CreateInvitation 8 2 10 11 None sample.store)) /\
   snd (InvitationService.CreateInvitation 8 2 10 11 None sample.store)
   = sample.store).
Proof.
  assert (Hc : store_consistent sample.store).
  { apply store_consistentb_sound. vm_compute. reflexivity. }
  split; [exact Hc|]. split.
  - split; [vm_compute; reflexivity|].
    pose proof (C2_create_invitation_preconditions sample.store 8%N 1%N 10%N
                  11%N None Hc) as H.
    destruct (InvitationService.CreateInvitation 8 1 10 11 None sample.store)
      as [r db'] eqn:E.
    vm_compute in E. injection E as <- _. reflexivity.
  - split; [vm_compute; reflexivity|].
    pose proof (C2_create_invitation_preconditions sample.store 8%N 2%N 10%N
                  11%N None Hc) as H.
    destruct (InvitationService.CreateInvitation 8 2 10 11 None sample.store)
      as [r db'].
    replace (CreateInvitation_first_failure sample.store 2 10 11)
      with (Some Full) in H by (vm_compute; reflexivity).
    exact H.
Defined.

(** ** At most one PENDING invitation *)

Lemma at_most_one_pending_answer db id row v :
  Invitation.Status row <> InvitationStatusPending ->
  is_Some (invitations db !! id) ->
  at_most_one_pending db ->
  at_most_one_pending
    (set_invitations (<[id := row]> (invitations db)) v).
Proof.
  intros Hst Hsome Hone i j a b. simpl.
  destruct (decide (i = id)) as [->|Hi].
  { rewrite lookup_insert_eq. intros [= <-]. congruence. }
  destruct (decide (j = id)) as [->|Hj].
  { rewrite (lookup_insert_eq _ id). intros _ [= <-]. congruence. }
  rewrite !lookup_insert_ne by done. apply Hone.
Qed.

Lemma valid_answer_not_pending status :
  one_of status InvitationService.validStatuses = true ->
  status <> InvitationStatusPending.
Proof. intros Hv ->. vm_compute in Hv. discriminate. Qed.

Lemma Respond_keeps_at_most_one_pending now id actor status :
  keeps at_most_one_pending
    (InvitationService.RespondToInvitation now id actor status).
Proof.
  intros db Hone. unfold_respond. mrun.
  destruct (one_of status InvitationService.validStatuses) eqn:Hv;
    unfold one_of in Hv; simpl in Hv; rewrite Hv; simpl; [|done].
  apply valid_answer_not_pending in Hv.
  destruct (invitations db !! id) as [inv|] eqn:Hi; simpl; [|done].
  destruct (negb _); simpl; [done|].
  destruct (negb _); simpl; [done|].
  destruct (String.eqb status InvitationStatusYes); simpl.
  - destruct (ttrRepository.find db (Invitation.TTRID inv)); simpl; [|done].
    destruct (_ >=? _); simpl; [done|].
    destruct (has_row (Invitation.TTRID inv, actor) (ttr_players db));
      simpl; [done|].
    destruct (negb _); simpl; [done|].
    destruct (invitationRepository.check_row _ _); simpl; [done|].
    apply at_most_one_pending_answer; [done|by rewrite Hi|done].
  - destruct (invitationRepository.check_row _ _); simpl; [done|].
    apply at_most_one_pending_answer; [done|by rewrite Hi|done].
Qed.

Lemma Cancel_keeps_at_most_one_pending id actor :
  keeps at_most_one_pending (InvitationService.CancelInvitation id actor).
Proof.
  intros db Hone.
  unfold InvitationService.CancelInvitation, invitationRepository.FindByID,
    invitationRepository.Update. mrun.
  destruct (invitations db !! id) as [inv|] eqn:Hi; simpl; [|done].
  destruct (negb _); simpl; [done|].
  destruct (negb _); simpl; [done|].
  destruct (invitationRepository.check_row _ _); simpl; [done|].
  apply at_most_one_pending_answer; [done|by rewrite Hi|done].
Qed.

Lemma CreateInvitation_keeps_at_most_one_pending gen ttrID inviter invitee
    message :
  keeps at_most_one_pending
    (InvitationService.CreateInvitation gen ttrID inviter invitee message).
Proof.
  intros db Hone. rewrite CreateInvitation_cases.
  destruct (ttrRepository.find db ttrID) as [ttr|]; [|done].
  destruct (negb _ && negb _); [done|].
  destruct (userRepository.find db invitee); [|done].
  destruct (_ >=? _); [done|].
  destruct (has_row _ _); [done|].
  destruct (match _ <$> first_by_key _ with Some _ => _ | None => _ end);
    [done|].
  unfold invitationRepository.Create, invitationRepository.check_row. mrun.
  destruct (has_row gen (invitations db)) eqn:Hk; simpl; [done|].
  destruct (negb _); simpl; [done|].
  destruct (is_nil _) eqn:Hnil; simpl; [|done].
  apply has_row_false in Hk. apply is_nil_true in Hnil.
  rewrite (delete_id _ _ Hk) in Hnil.
  assert (Hfresh : forall j b, invitations db !! j = Some b ->
                     Invitation.TTRID b = ttrID ->
                     Invitation.InviteeUserID b = invitee -> False).
  { intros j b Hb Ht Hu.
    assert (Hin : (j, b) ∈ invitations_for ttrID invitee (invitations db))
      by (by apply invitations_for_spec).
    rewrite Hnil in Hin. by apply elem_of_nil in Hin. }
  intros i j a b. simpl.
  destruct (decide (i = gen)) as [->|Hi];
    destruct (decide (j = gen)) as [->|Hj]; [done| | |].
  - rewrite lookup_insert_eq, lookup_insert_ne by done.
    intros [= <-] Hb Ht Hu. simpl in *. destruct (Hfresh j b Hb); done.
  - rewrite lookup_insert_eq, lookup_insert_ne by done.
    intros Ha [= <-] Ht Hu. simpl in *. destruct (Hfresh i a Ha); done.
  - rewrite !lookup_insert_ne by done. apply Hone.
Qed.

Lemma store_consistent_at_most_one_pending db :
  store_consistent db -> at_most_one_pending db.
Proof. intros [_ Huniq] i j a b Ha Hb Ht Hu _ _. by apply (Huniq i j a b). Qed.

(** C4.  While the store holds a PENDING invitation for a (TTR, invitee)
    pair, CreateInvitation for that pair fails with AlreadyExists whoever
    the authorized inviter is, once the five earlier preconditions hold,
    and writes nothing.  The store has at most one PENDING invitation per
    pair, and every operation of the workflow keeps it so. *)
Theorem C4_duplicate_pending_invitation (db : DB) :
  store_consistent db ->
  (forall gen ttrID ttr inviter invitee message,
      pending_invitation db ttrID invitee ->
      ttrRepository.find db ttrID = Some ttr ->
      inviter = TTR.CaptainUserID ttr \/ is_co_captain ttr inviter = true ->
      is_Some (userRepository.find db invitee) ->
      Z.of_nat (length (TTR.Players ttr)) < TTR.MaxPlayers ttr ->
      is_player ttr invitee = false ->
      let (r, db') :=
        InvitationService.CreateInvitation gen ttrID inviter invitee message db
      in fails_with AlreadyExists r /\ db' = db) /\
  at_most_one_pending db /\
  (forall gen ttrID inviter invitee message,
      at_most_one_pending
        (snd (InvitationService.CreateInvitation gen ttrID inviter invitee
                message db))) /\
  (forall now invitationID actor status,
      at_most_one_pending
        (snd (InvitationService.RespondToInvitation now invitationID actor
                status db))) /\
  (forall invitationID actor,
      at_most_one_pending
        (snd (InvitationService.CancelInvitation invitationID actor db))).
Proof.
  intros Hc.
  pose proof (store_consistent_at_most_one_pending db Hc) as Hone.
  split; [|split; [done|split; [|split]]].
  - intros gen ttrID ttr inviter invitee message Hpend Hf Hauth [u Hu] Hlt Hnp.
    rewrite CreateInvitation_cases, Hf.
    rewrite (is_co_captain_decide _ _ _ _ Hf) in Hauth.
    rewrite (is_player_has_row _ _ _ _ Hf) in Hnp.
    rewrite (find_Players _ _ _ Hf) in Hlt.
    replace (negb (TTR.CaptainUserID ttr =? inviter)%N
             && negb (bool_decide ((ttrID, inviter) ∈ ttr_co_captains db)))
      with false.
    2:{ symmetry. rewrite <- negb_orb. apply negb_false_iff, orb_true_iff.
        destruct Hauth as [->|Hcc]; [left; apply N.eqb_refl|by right]. }
    rewrite Hu, Hnp.
    replace (Z.of_nat (length (players_of db ttrID)) >=? TTR.MaxPlayers ttr)
      with false by (symmetry; rewrite Z.geb_leb; apply Z.leb_gt; lia).
    rewrite (pending_check_agrees db ttrID invitee Hc).
    apply has_pending_invitation_spec in Hpend. rewrite Hpend.
    split; [eexists; split; reflexivity|done].
  - intros. by apply CreateInvitation_keeps_at_most_one_pending.
  - intros. by apply Respond_keeps_at_most_one_pending.
  - intros. by apply Cancel_keeps_at_most_one_pending.
Qed.

Lemma C4_duplicate_pending_invitation_witness :
  store_consistent sample.store /\
  pending_invitation sample.store 1 12 /\
  (fails_with AlreadyExists
     (fst (InvitationService.CreateInvitation 8 1 10 12 None sample.store)) /\
   snd (InvitationService.CreateInvitation 8 1 10 12 None sample.store)
   = sample.store) /\
  (fails_with AlreadyExists
     (fst (InvitationService.CreateInvitation 9 1 11 12 (Some "hi")
             sample.store)) /\
   snd (InvitationService.CreateInvitation 9 1 11 12 (Some "hi") sample.store)
   = sample.store).
Proof.
  assert (Hc : store_consistent sample.store).
  { apply store_consistentb_sound. vm_compute. reflexivity. }
  assert (Hp : pending_invitation sample.store 1 12).
  { apply has_pending_invitation_spec. vm_compute. reflexivity. }
  destruct (C4_duplicate_pending_invitation sample.store Hc) as [H _].
  destruct (ttrRepository.find sample.store 1) as [ttr|] eqn:Hf;
    [|vm_compute in Hf; discriminate].
  assert (Httr : ttr = TTR.mk 1 "Pebble Beach" None 20250 600 2 10%N 10%N
                         TTRStatusOpen None None [TTRCoCaptain.mk 1 11]
                         [TTRPlayer.mk 1 10 TTRPlayerStatusConfirmed]).
  { vm_compute in Hf. by injection Hf as <-. }
  split; [exact Hc|]. split; [exact Hp|]. split.
  - specialize (H 8%N 1%N ttr 10%N 12%N None Hp Hf).
    destruct (InvitationService.CreateInvitation 8 1 10 12 None sample.store)
      as [r db'].
    apply H; subst ttr.
    + by left.
    + vm_compute. eauto.
    + vm_compute. reflexivity.
    + vm_compute. reflexivity.
  - specialize (H 9%N 1%N ttr 11%N 12%N (Some "hi") Hp Hf).
    destruct (InvitationService.CreateInvitation 9 1 11 12 (Some "hi")
                sample.store) as [r db'].
    apply H; subst ttr.
    + right. vm_compute. reflexivity.
    + vm_compute. eauto.
    + vm_compute. reflexivity.
    + vm_compute. reflexivity.
Defined.

(** * Creating a TTR *)

Lemma players_of_insert_fresh db db' t u s :
  (forall u', ttr_players db !! (t, u') = None) ->
  ttr_players db' = <[(t, u) := s]> (ttr_players db) ->
  players_of db' t = [TTRPlayer.mk t u s].
Proof.
  intros Hfresh Heq. unfold players_of. rewrite Heq.
  assert (Hnil : filter (fun kv : N * N * string => kv.1.1 = t)
                   (map_to_list (ttr_players db)) = []).
  { apply elem_of_nil_inv. intros [[t' u'] s'] Hin.
    apply list_elem_of_filter in Hin as [Ht Hin]. simpl in Ht. subst t'.
    apply elem_of_map_to_list in Hin. rewrite Hfresh in Hin. discriminate. }
  assert (Hperm : filter (fun kv : N * N * string => kv.1.1 = t)
                    (map_to_list (<[(t, u) := s]> (ttr_players db)))
                  ≡ₚ [((t, u), s)]).
  { rewrite (map_to_list_insert _ _ s (Hfresh u)).
    rewrite filter_cons_True by done. by rewrite Hnil. }
  apply Permutation_singleton_r in Hperm. by rewrite Hperm.
Qed.

Lemma CreateTTR_Ok db gen userID courseName courseLocation teeDate teeTime
    maxPlayers notes res db' :
  store_consistent db ->
  TTRService.CreateTTR gen userID courseName courseLocation teeDate teeTime
    maxPlayers notes db = (Ok res, db') ->
  res = Some (TTR.mk gen courseName courseLocation teeDate teeTime maxPlayers
                userID userID TTRStatusOpen notes None
                (co_captains_of db gen)
                [TTRPlayer.mk gen userID TTRPlayerStatusConfirmed]) /\
  ttrs db !! gen = None /\
  ttrRepository.find db' gen = res.
Proof.
  intros [Hfk _].
  unfold TTRService.CreateTTR, userRepository.FindByID, ttrRepository.Create,
    ttrRepository.AddPlayer, ttrRepository.FindByID. mrun.
  destruct (Z.leb_spec maxPlayers 0) as [|Hpos]; simpl; [done|].
  destruct (userRepository.find db userID); simpl; [|done].
  destruct (Z.eqb_spec maxPlayers 0) as [|_]; [lia|]. simpl.
  destruct (ttrRepository.check_row _ db); simpl; [done|].
  destruct (has_row gen (ttrs db)) eqn:Hk; simpl; [done|].
  apply has_row_false in Hk.
  assert (Hfresh : forall u', ttr_players db !! (gen, u') = None).
  { intros u'. destruct (ttr_players db !! (gen, u')) eqn:E; [|done].
    destruct (Hfk gen u') as [row Hrow]; [by rewrite E|congruence]. }
  rewrite (proj2 (has_row_false _ _) (Hfresh userID)). simpl.
  unfold has_row at 1. rewrite lookup_insert_eq. simpl.
  destruct (has_row userID (users db)); simpl; [|done].
  intros [= <- <-]. unfold ttrRepository.find. simpl.
  rewrite lookup_insert_eq. simpl.
  erewrite (players_of_insert_fresh db); [|exact Hfresh|reflexivity].
  done.
Qed.

(** C5.  CreateTTR fails with InvalidArgument when maxPlayers <= 0 and,
    otherwise, with NotFound when the actor does not exist; neither
    writes.  On success the TTR returned has the actor as creator and as
    captain, status OPEN, and a roster of exactly one player: the actor,
    CONFIRMED. *)
Theorem C5_create_ttr (db : DB) (gen actor : UUID) (courseName : string)
    (courseLocation : option string) (teeDate teeTime : Time)
    (maxPlayers : Z) (notes : option string) :
  store_consistent db ->
  let (r, db') :=
    TTRService.CreateTTR gen actor courseName courseLocation teeDate teeTime
      maxPlayers notes db in
  (maxPlayers <= 0 -> fails_with InvalidArgument r /\ db' = db) /\
  (0 < maxPlayers -> userRepository.find db actor = None ->
   fails_with NotFound r /\ db' = db) /\
  (forall res, r = Ok res ->
     exists ttr,
       res = Some ttr /\
       TTR.CreatedByUserID ttr = actor /\
       TTR.CaptainUserID ttr = actor /\
       TTR.Status ttr = TTRStatusOpen /\
       TTR.Players ttr
       = [TTRPlayer.mk (TTR.ID ttr) actor TTRPlayerStatusConfirmed] /\
       length (TTR.Players ttr) = 1%nat).
Proof.
  intros Hc.
  destruct (TTRService.CreateTTR gen actor courseName courseLocation teeDate
              teeTime maxPlayers notes db) as [r db'] eqn:Hrun.
  split; [|split].
  - intros Hle. revert Hrun. unfold TTRService.CreateTTR. mrun.
    destruct (Z.leb_spec maxPlayers 0); [|lia].
    intros [= <- <-]. split; [eexists; split; reflexivity|done].
  - intros Hpos Hnone. revert Hrun.
    unfold TTRService.CreateTTR, userRepository.FindByID. mrun.
    destruct (Z.leb_spec maxPlayers 0); [lia|]. rewrite Hnone. simpl.
    intros [= <- <-]. split; [eexists; split; reflexivity|done].
  - intros res ->.
    destruct (CreateTTR_Ok _ _ _ _ _ _ _ _ _ _ _ Hc Hrun) as (-> & _ & _).
    eexists. split; [reflexivity|]. simpl. done.
Qed.

Lemma C5_create_ttr_witness :
  store_consistent sample.store /\
  (exists ttr,
     fst (TTRService.CreateTTR 3 11 "St Andrews" None 20300 540 4 None
            sample.store) = Ok (Some ttr) /\
     TTR.CaptainUserID ttr = 11%N /\
     TTR.Players ttr = [TTRPlayer.mk 3 11 TTRPlayerStatusConfirmed]) /\
  fails_with InvalidArgument
    (fst (TTRService.CreateTTR 3 11 "St Andrews" None 20300 540 0 None
            sample.store)) /\
  fails_with NotFound
    (fst (TTRService.CreateTTR 3 99 "St Andrews" None 20300 540 4 None
            sample.store)).
Proof.
  assert (Hc : store_consistent sample.store).
  { apply store_consistentb_sound. vm_compute. reflexivity. }
  split; [exact Hc|]. split; [|split].
  - pose proof (C5_create_ttr sample.store 3%N 11%N "St Andrews" None 20300
                  540 4 None Hc) as H.
    destruct (TTRService.CreateTTR 3 11 "St Andrews" None 20300 540 4 None
                sample.store) as [r db'] eqn:E.
    destruct H as (_ & _ & H).
    assert (Hr : exists res, r = Ok res).
    { vm_compute in E. injection E as <- _. eauto. }
    destruct Hr as [res ->].
    destruct (H res eq_refl) as (ttr & -> & _ & Hcap & _ & Hp & _).
    exists ttr. simpl. split; [done|]. split; [done|].
    rewrite Hp. vm_compute in E. by injection E as <- _.
  - pose proof (C5_create_ttr sample.store 3%N 11%N "St Andrews" None 20300
                  540 0 None Hc) as H.
    destruct (TTRService.CreateTTR 3 11 "St Andrews" None 20300 540 0 None
                sample.store) as [r db'].
    apply H. lia.
  - pose proof (C5_create_ttr sample.store 3%N 99%N "St Andrews" None 20300
                  540 4 None Hc) as H.
    destruct (TTRService.CreateTTR 3 99 "St Andrews" None 20300 540 4 None
                sample.store) as [r db'].
    apply H; [lia|]. vm_compute. reflexivity.
Defined.

(** * Leaving a TTR *)

Lemma LeaveTTR_cases db ttrID userID ttr :
  ttrRepository.find db ttrID = Some ttr ->
  TTRService.LeaveTTR ttrID userID db =
  if (TTR.CaptainUserID ttr =? userID)%N
  then (Err (errors_New "captain cannot leave TTR"), db)
  else (Ok tt,
        set_ttr_players (delete (ttrID, userID) (ttr_players db)) db).
Proof.
  intros Hf.
  unfold TTRService.LeaveTTR, ttrRepository.FindByID,
    ttrRepository.RemovePlayer. mrun.
  rewrite Hf. simpl. by destruct (TTR.CaptainUserID ttr =? userID)%N.
Qed.

(** C8.  On an existing TTR, LeaveTTR by the captain fails with
    InvalidOperation and leaves the store as it was, whatever the roster
    (the captain alone included); LeaveTTR by anyone else does not fail
    with that error: it succeeds. *)
Theorem C8_captain_cannot_leave (db : DB) (ttrID : UUID) (ttr : TTR.t) :
  ttrRepository.find db ttrID = Some ttr ->
  (fails_with InvalidOperation
     (fst (TTRService.LeaveTTR ttrID (TTR.CaptainUserID ttr) db)) /\
   snd (TTRService.LeaveTTR ttrID (TTR.CaptainUserID ttr) db) = db) /\
  (forall actor,
      actor <> TTR.CaptainUserID ttr ->
      ~ fails_with InvalidOperation (fst (TTRService.LeaveTTR ttrID actor db))
      /\ succeeds (fst (TTRService.LeaveTTR ttrID actor db))).
Proof.
  intros Hf. split.
  - rewrite (LeaveTTR_cases _ _ _ _ Hf), N.eqb_refl. simpl.
    split; [eexists; split; reflexivity|done].
  - intros actor Hne. rewrite (LeaveTTR_cases _ _ _ _ Hf).
    replace (TTR.CaptainUserID ttr =? actor)%N with false
      by (symmetry; apply N.eqb_neq; congruence).
    simpl. split; [|by eexists]. intros (e & He & _). discriminate.
Qed.

Lemma C8_captain_cannot_leave_witness :
  TTRService.GetPlayers 1 sample.store
  = (Ok [TTRPlayer.mk 1 10 TTRPlayerStatusConfirmed], sample.store) /\
  fails_with InvalidOperation (fst (TTRService.LeaveTTR 1 10 sample.store)) /\
  snd (TTRService.LeaveTTR 1 10 sample.store) = sample.store /\
  succeeds (fst (TTRService.LeaveTTR 1 11 sample.store)).
Proof.
  split; [vm_compute; reflexivity|].
  destruct (ttrRepository.find sample.store 1) as [ttr|] eqn:Hf;
    [|vm_compute in Hf; discriminate].
  destruct (C8_captain_cannot_leave sample.store 1%N ttr Hf) as [[H1 H2] H3].
  assert (Hcap : TTR.CaptainUserID ttr = 10%N).
  { vm_compute in Hf. by injection Hf as <-. }
  rewrite Hcap in H1, H2. split; [exact H1|]. split; [exact H2|].
  apply H3. rewrite Hcap. discriminate.
Defined.

(** C10.  On an existing TTR, LeaveTTR by an actor who is neither the
    captain nor a player succeeds, and the store (the roster with it) is
    as it was: nothing checks that the actor is on the roster. *)
Theorem C10_leave_without_membership (db : DB) (ttrID actor : UUID)
    (ttr : TTR.t) :
  ttrRepository.find db ttrID = Some ttr ->
  actor <> TTR.CaptainUserID ttr ->
  is_player ttr actor = false ->
  TTRService.LeaveTTR ttrID actor db = (Ok tt, db).
Proof.
  intros Hf Hne Hnp. rewrite (LeaveTTR_cases _ _ _ _ Hf).
  replace (TTR.CaptainUserID ttr =? actor)%N with false
    by (symmetry; apply N.eqb_neq; congruence).
  rewrite (is_player_has_row _ _ _ _ Hf) in Hnp. apply has_row_false in Hnp.
  by rewrite (delete_id _ _ Hnp), set_ttr_players_id.
Qed.

Lemma C10_leave_without_membership_witness :
  fst (ttrRepository.IsPlayer 1 12 sample.store) = Ok false /\
  TTRService.LeaveTTR 1 12 sample.store = (Ok tt, sample.store).
Proof.
  split; [vm_compute; reflexivity|].
  destruct (ttrRepository.find sample.store 1) as [ttr|] eqn:Hf;
    [|vm_compute in Hf; discriminate].
  apply (C10_leave_without_membership sample.store 1%N 12%N ttr Hf).
  - vm_compute in Hf. injection Hf as <-. simpl. discriminate.
  - vm_compute in Hf. injection Hf as <-. vm_compute. reflexivity.
Defined.

(** * Updating a TTR *)

Lemma canManageTTR_run db ttrID userID ttr :
  ttrRepository.find db ttrID = Some ttr ->
  TTRService.canManageTTR ttrID userID db
  = (Ok ((TTR.CaptainUserID ttr =? userID)%N || is_co_captain ttr userID), db).
Proof.
  intros Hf. unfold TTRService.canManageTTR, bind.
  rewrite (isCaptain_run _ _ _ _ Hf), (is_co_captain_decide _ _ _ _ Hf).
  destruct (TTR.CaptainUserID ttr =? userID)%N; [done|].
  unfold TTRService.isCoCaptain, ttrRepository.IsCoCaptain. by mrun.
Qed.

Lemma updated_fields_kept courseName courseLocation teeDate teeTime
    maxPlayers status notes ttr :
  let ttr' := updated_fields courseName courseLocation teeDate teeTime
                maxPlayers status notes ttr in
  TTR.ID ttr' = TTR.ID ttr /\
  TTR.DeletedAt ttr' = TTR.DeletedAt ttr /\
  TTR.CoCaptains ttr' = TTR.CoCaptains ttr /\
  TTR.Players ttr' = TTR.Players ttr /\
  TTR.Status ttr' = default (TTR.Status ttr) status.
Proof.
  unfold updated_fields.
  by destruct courseName, courseLocation, teeDate, teeTime, maxPlayers,
    status, notes.
Qed.

Lemma find_after_Update db ttrID ttr ttr' :
  ttrRepository.find db ttrID = Some ttr ->
  TTR.ID ttr' = TTR.ID ttr ->
  TTR.DeletedAt ttr' = TTR.DeletedAt ttr ->
  TTR.CoCaptains ttr' = TTR.CoCaptains ttr ->
  TTR.Players ttr' = TTR.Players ttr ->
  ttrRepository.find
    (set_ttrs (<[ttrID := ttrRepository.columns ttr']> (ttrs db)) db) ttrID
  = Some ttr'.
Proof.
  intros Hf Hid Hdel Hcc Hps.
  destruct (find_columns _ _ _ Hf) as (row & Hrow & Hdel0 & ->).
  unfold ttrRepository.find. simpl in *. rewrite lookup_insert_eq. simpl.
  rewrite Hdel, Hdel0. destruct ttr'. simpl in *. by subst.
Qed.

Lemma UpdateTTR_cases db ttrID actor ttr courseName courseLocation teeDate
    teeTime maxPlayers status notes :
  ttrRepository.find db ttrID = Some ttr ->
  actor = TTR.CaptainUserID ttr \/ is_co_captain ttr actor = true ->
  TTRService.UpdateTTR ttrID actor courseName courseLocation teeDate teeTime
    maxPlayers status notes db =
  if match maxPlayers with Some v => v <=? 0 | None => false end
  then (Err (errors_New "max_players must be greater than 0"), db)
  else
    let ttr' := updated_fields courseName courseLocation teeDate teeTime
                  maxPlayers status notes ttr in
    match ttrRepository.check_row ttr' db with
    | Some e =>
        (Err (fmt_Errorf "failed to update TTR"
                (fmt_Errorf "failed to update ttr" e)), db)
    | None =>
        (Ok (Some ttr'),
         set_ttrs (<[ttrID := ttrRepository.columns ttr']> (ttrs db)) db)
    end.
Proof.
  intros Hf Hauth.
  assert (Hid : TTR.ID ttr = ttrID).
  { by destruct (find_columns _ _ _ Hf) as (row & _ & _ & ->). }
  pose proof (updated_fields_kept courseName courseLocation teeDate teeTime
                maxPlayers status notes ttr) as (Hk1 & Hk2 & Hk3 & Hk4 & _).
  pose proof (find_after_Update db ttrID ttr _ Hf Hk1 Hk2 Hk3 Hk4) as Hfind.
  unfold TTRService.UpdateTTR. unfold bind at 1, wrapped at 1.
  rewrite (canManageTTR_run _ _ _ _ Hf).
  replace ((TTR.CaptainUserID ttr =? actor)%N || is_co_captain ttr actor)
    with true.
  2:{ symmetry. apply orb_true_iff.
      destruct Hauth as [->|Hcc]; [left; apply N.eqb_refl|by right]. }
  cbn [negb].
  unfold bind at 1, wrapped at 1, ttrRepository.FindByID at 1.
  unfold wrapped at 1, query at 1. rewrite Hf.
  unfold updated_fields in *. cbv zeta in *.
  destruct maxPlayers as [v|]; [destruct (v <=? 0); [done|]|].
  all: unfold ttrRepository.FindByID, ttrRepository.Update, bind, wrapped,
         query, ret.
  all: destruct (ttrRepository.check_row _ db); [done|].
  all: rewrite Hk1, Hid, Hfind; done.
Qed.

Lemma check_row_Internal ttr db e :
  ttrRepository.check_row ttr db = Some e ->
  kind (fmt_Errorf "failed to update TTR"
          (fmt_Errorf "failed to update ttr" e)) = Internal.
Proof.
  unfold ttrRepository.check_row.
  destruct (negb _); [by intros [= <-]|].
  destruct (negb _); [by intros [= <-]|].
  destruct (negb _); [by intros [= <-]|done].
Qed.

(** C9, as the code has it.  UpdateTTR does not validate the status: for
    an authorized actor on an existing TTR, a call that supplies a status,
    recognized or not, stores it as supplied whenever no supplied
    maxPlayers is rejected and the store accepts the row (a status of at
    most 50 characters).  The call fails with InvalidArgument exactly when
    a supplied maxPlayers is <= 0, and a failed call writes nothing. *)
Theorem C9_update_status_not_validated (db : DB) (ttrID actor : UUID)
    (ttr : TTR.t) (courseName courseLocation : option string)
    (teeDate teeTime : option Time) (maxPlayers : option Z)
    (status : string) (notes : option string) :
  ttrRepository.find db ttrID = Some ttr ->
  actor = TTR.CaptainUserID ttr \/ is_co_captain ttr actor = true ->
  let (r, db') :=
    TTRService.UpdateTTR ttrID actor courseName courseLocation teeDate
      teeTime maxPlayers (Some status) notes db in
  let ttr' := updated_fields courseName courseLocation teeDate teeTime
                maxPlayers (Some status) notes ttr in
  (fails_with InvalidArgument r <-> exists v, maxPlayers = Some v /\ v <= 0) /\
  ((forall v, maxPlayers = Some v -> 0 < v) ->
   ttrRepository.check_row ttr' db = None ->
   r = Ok (Some ttr') /\ TTR.Status ttr' = status /\
   ttrRepository.find db' ttrID = Some ttr') /\
  (~ succeeds r -> db' = db).
Proof.
  intros Hf Hauth.
  rewrite (UpdateTTR_cases _ _ _ _ courseName courseLocation teeDate teeTime
             maxPlayers (Some status) notes Hf Hauth).
  assert (Hrej : match maxPlayers with Some v => v <=? 0 | None => false end
                 = true <-> exists v, maxPlayers = Some v /\ v <= 0).
  { destruct maxPlayers as [v|]; simpl.
    - rewrite Z.leb_le. split; [eauto|]. by intros (v' & [= <-] & Hv).
    - split; [done|]. by intros (v' & [=] & _). }
  destruct (match maxPlayers with Some v => v <=? 0 | None => false end).
  { split; [|split].
    - split; [intros _; by apply Hrej|].
      intros _. eexists; split; reflexivity.
    - intros Hpos. destruct Hrej as [Hrej _].
      destruct (Hrej eq_refl) as (v & Hv & Hle).
      specialize (Hpos v Hv). lia.
    - done. }
  assert (Hnot : ~ exists v, maxPlayers = Some v /\ v <= 0).
  { intros Hex. apply Hrej in Hex. discriminate. }
  simpl.
  destruct (ttrRepository.check_row _ db) as [e|] eqn:Hchk.
  - split; [|split].
    + split; [|by intros Hex; destruct Hnot].
      intros Hia. apply fails_with_Err_elim in Hia.
      rewrite (check_row_Internal _ _ _ Hchk) in Hia. discriminate.
    + done.
    + done.
  - split; [|split].
    + split; [|by intros Hex; destruct Hnot].
      intros (e & He & _). discriminate.
    + intros _ _.
      pose proof (updated_fields_kept courseName courseLocation teeDate
                    teeTime maxPlayers (Some status) notes ttr)
        as (Hk1 & Hk2 & Hk3 & Hk4 & Hk5).
      split; [done|]. split; [exact Hk5|].
      by apply (find_after_Update db ttrID ttr).
    + intros Hns. destruct Hns. by eexists.
Qed.

Lemma C9_update_status_not_validated_witness :
  exists ttr',
    fst (TTRService.UpdateTTR 1 11 None None None None (Some 3)
           (Some "BOGUS") None sample.store) = Ok (Some ttr') /\
    TTR.Status ttr' = "BOGUS" /\
    ttrRepository.find
      (snd (TTRService.UpdateTTR 1 11 None None None None (Some 3)
              (Some "BOGUS") None sample.store)) 1 = Some ttr'.
Proof.
  destruct (ttrRepository.find sample.store 1) as [ttr|] eqn:Hf;
    [|vm_compute in Hf; discriminate].
  assert (Httr : ttr = TTR.mk 1 "Pebble Beach" None 20250 600 2 10%N 10%N
                         TTRStatusOpen None None [TTRCoCaptain.mk 1 11]
                         [TTRPlayer.mk 1 10 TTRPlayerStatusConfirmed]).
  { vm_compute in Hf. by injection Hf as <-. }
  pose proof (C9_update_status_not_validated sample.store 1%N 11%N ttr
                None None None None (Some 3) "BOGUS" None Hf) as H.
  destruct (TTRService.UpdateTTR 1 11 None None None None (Some 3)
              (Some "BOGUS") None sample.store) as [r db'].
  destruct H as (_ & H & _).
  - right. subst ttr. vm_compute. reflexivity.
  - simpl. eexists. apply H.
    + intros v [= <-]. lia.
    + subst ttr. vm_compute. reflexivity.
Defined.

(** C9, as the specification states it, fails: the captain of TTR 1
    updates its status to "BOGUS"; the call succeeds and the stored row
    carries that status. *)
Lemma C9_counterexample :
  ~ In "BOGUS" recognized_statuses /\
  TTRService.canManageTTR 1 10 sample.store = (Ok true, sample.store) /\
  (exists ttr',
     fst (TTRService.UpdateTTR 1 10 None None None None None (Some "BOGUS")
            None sample.store) = Ok (Some ttr') /\
     TTR.Status ttr' = "BOGUS") /\
  TTR.Status
    <$> ttrs (snd (TTRService.UpdateTTR 1 10 None None None None None
                     (Some "BOGUS") None sample.store)) !! 1%N
  = Some "BOGUS" /\
  ~ (fails_with InvalidArgument
       (fst (TTRService.UpdateTTR 1 10 None None None None None
               (Some "BOGUS") None sample.store)) /\
     snd (TTRService.UpdateTTR 1 10 None None None None None (Some "BOGUS")
            None sample.store) = sample.store).
Proof.
  split.
  { vm_compute. intros [H|[H|[H|[H|[]]]]]; discriminate. }
  split; [vm_compute; reflexivity|].
  destruct (TTRService.UpdateTTR 1 10 None None None None None (Some "BOGUS")
              None sample.store) as [r db'] eqn:E.
  vm_compute in E. injection E as <- <-. simpl.
  split; [eexists; split; reflexivity|].
  split; [vm_compute; reflexivity|].
  intros [(e & He & _) _]. discriminate.
Qed.

(** * Further properties of the two services *)

(** ** Joining and leaving *)

Lemma find_has_row db ttrID ttr :
  ttrRepository.find db ttrID = Some ttr -> has_row ttrID (ttrs db) = true.
Proof.
  intros Hf. destruct (find_columns _ _ _ Hf) as (row & Hrow & _).
  apply has_row_true. by rewrite Hrow.
Qed.

Lemma JoinTTR_cases db ttrID userID ttr :
  ttrRepository.find db ttrID = Some ttr ->
  TTRService.JoinTTR ttrID userID db =
  if Z.of_nat (length (TTR.Players ttr)) >=? TTR.MaxPlayers ttr
  then (Err (errors_New "TTR is full"), db)
  else if is_player ttr userID
  then (Err (errors_New "user is already a player"), db)
  else if has_row userID (users db)
  then (Ok tt,
        set_ttr_players
          (<[(ttrID, userID) := TTRPlayerStatusConfirmed]> (ttr_players db))
          db)
  else (Err (fmt_Errorf "failed to join TTR"
               (fmt_Errorf "failed to add player" ErrForeignKey)), db).
Proof.
  intros Hf.
  rewrite (is_player_has_row _ _ _ _ Hf), (find_Players _ _ _ Hf).
  unfold TTRService.JoinTTR, TTRService.getPlayerCount,
    ttrRepository.FindByID, ttrRepository.GetPlayers,
    ttrRepository.IsPlayer, ttrRepository.AddPlayer. mrun.
  rewrite Hf. simpl.
  destruct (_ >=? _); simpl; [done|].
  destruct (has_row (ttrID, userID) (ttr_players db)) eqn:Hp; simpl; [done|].
  rewrite Hp, (find_has_row _ _ _ Hf). simpl.
  by destruct (has_row userID (users db)).
Qed.

Lemma find_set_ttr_players db v id :
  ttrRepository.find (set_ttr_players v db) id
  = TTR.with_associations (co_captains_of db id)
      (players_of (set_ttr_players v db) id)
    <$> (ttrRepository.find db id).
Proof.
  unfold ttrRepository.find. simpl.
  destruct (ttrs db !! id) as [row|]; [|done].
  by destruct (TTR.DeletedAt row).
Qed.

Lemma is_player_lookup db ttrID ttr userID :
  ttrRepository.find db ttrID = Some ttr ->
  is_player ttr userID = true <-> is_Some (ttr_players db !! (ttrID, userID)).
Proof.
  intros Hf. rewrite (is_player_has_row _ _ _ _ Hf). apply has_row_true.
Qed.

(** X1.  JoinTTR by a user who is already on the roster of a TTR that has
    room fails with AlreadyExists and writes nothing. *)
Theorem JoinTTR_already_player (db : DB) (ttrID userID : UUID) (ttr : TTR.t) :
  ttrRepository.find db ttrID = Some ttr ->
  Z.of_nat (length (TTR.Players ttr)) < TTR.MaxPlayers ttr ->
  is_player ttr userID = true ->
  fails_with AlreadyExists (fst (TTRService.JoinTTR ttrID userID db)) /\
  snd (TTRService.JoinTTR ttrID userID db) = db.
Proof.
  intros Hf Hlt Hp. rewrite (JoinTTR_cases _ _ _ _ Hf), Hp.
  replace (_ >=? _) with false
    by (symmetry; rewrite Z.geb_leb; apply Z.leb_gt; lia).
  simpl. split; [eexists; split; reflexivity|done].
Qed.

Lemma JoinTTR_already_player_witness :
  fails_with AlreadyExists (fst (TTRService.JoinTTR 1 10 sample.store)) /\
  snd (TTRService.JoinTTR 1 10 sample.store) = sample.store.
Proof.
  destruct (ttrRepository.find sample.store 1) as [ttr|] eqn:Hf;
    [|vm_compute in Hf; discriminate].
  apply (JoinTTR_already_player sample.store 1%N 10%N ttr Hf);
    vm_compute in Hf; injection Hf as <-; vm_compute; reflexivity.
Defined.

(** X2.  JoinTTR on an existing TTR with room, by a user who is not yet on
    the roster: when the user has a row in [users] the call succeeds, the
    roster gains exactly that user, CONFIRMED, and every other table is
    as it was; when the user has no row (JoinTTR itself never looks the
    user up) the foreign key rejects the insert, the call fails as an
    internal error and nothing is written. *)
Theorem JoinTTR_joins (db : DB) (ttrID userID : UUID) (ttr : TTR.t) :
  ttrRepository.find db ttrID = Some ttr ->
  Z.of_nat (length (TTR.Players ttr)) < TTR.MaxPlayers ttr ->
  is_player ttr userID = false ->
  let (r, db') := TTRService.JoinTTR ttrID userID db in
  (is_Some (users db !! userID) ->
   r = Ok tt /\
   ttr_players db'
   = <[(ttrID, userID) := TTRPlayerStatusConfirmed]> (ttr_players db) /\
   users db' = users db /\ ttrs db' = ttrs db /\
   ttr_co_captains db' = ttr_co_captains db /\
   invitations db' = invitations db /\
   exists ttr',
     ttrRepository.find db' ttrID = Some ttr' /\
     is_player ttr' userID = true /\
     length (TTR.Players ttr') = S (length (TTR.Players ttr))) /\
  (users db !! userID = None -> fails_with Internal r /\ db' = db).
Proof.
  intros Hf Hlt Hnp. rewrite (JoinTTR_cases _ _ _ _ Hf), Hnp.
  replace (_ >=? _) with false
    by (symmetry; rewrite Z.geb_leb; apply Z.leb_gt; lia).
  pose proof Hnp as Hnone.
  rewrite (is_player_has_row _ _ _ _ Hf) in Hnone.
  apply has_row_false in Hnone.
  destruct (has_row userID (users db)) eqn:Hu.
  - split; [|intros Hx; apply has_row_false in Hx; congruence].
    intros _. repeat (split; [done|]).
    rewrite find_set_ttr_players, Hf. simpl. eexists. split; [done|].
    split.
    + unfold is_player. simpl. apply existsb_exists.
      exists (TTRPlayer.mk ttrID userID TTRPlayerStatusConfirmed).
      split; [|by apply N.eqb_eq]. apply list_elem_of_In.
      unfold players_of. apply list_elem_of_fmap.
      exists ((ttrID, userID), TTRPlayerStatusConfirmed). split; [done|].
      apply list_elem_of_filter. split; [done|].
      apply elem_of_map_to_list. simpl. by rewrite lookup_insert_eq.
    + simpl. rewrite (players_of_length_insert _ _ _ _ _ Hnone).
      rewrite decide_True by done. by rewrite (find_Players _ _ _ Hf).
  - split; [intros Hx; apply has_row_true in Hx; congruence|].
    intros _. split; [eexists; split; reflexivity|done].
Qed.

Lemma JoinTTR_joins_witness :
  fst (TTRService.JoinTTR 1 12 sample.store) = Ok tt /\
  ttr_players (snd (TTRService.JoinTTR 1 12 sample.store)) !! (1%N, 12%N)
  = Some TTRPlayerStatusConfirmed /\
  fails_with Internal (fst (TTRService.JoinTTR 1 99 sample.store)).
Proof.
  destruct (ttrRepository.find sample.store 1) as [ttr|] eqn:Hf;
    [|vm_compute in Hf; discriminate].
  assert (Httr : ttr = TTR.mk 1 "Pebble Beach" None 20250 600 2 10%N 10%N
                         TTRStatusOpen None None [TTRCoCaptain.mk 1 11]
                         [TTRPlayer.mk 1 10 TTRPlayerStatusConfirmed]).
  { vm_compute in Hf. by injection Hf as <-. }
  pose proof (JoinTTR_joins sample.store 1%N 12%N ttr Hf) as H12.
  pose proof (JoinTTR_joins sample.store 1%N 99%N ttr Hf) as H99.
  destruct (TTRService.JoinTTR 1 12 sample.store) as [r db'].
  destruct (TTRService.JoinTTR 1 99 sample.store) as [r9 db9].
  destruct H12 as [H12 _]; [subst ttr; vm_compute; reflexivity..|].
  destruct H99 as [_ H99]; [subst ttr; vm_compute; reflexivity..|].
  destruct H12 as (-> & Hp & _); [vm_compute; eauto|].
  destruct H99 as [H99 _]; [vm_compute; reflexivity|].
  simpl. rewrite Hp.
  split; [done|]. split; [by rewrite lookup_insert_eq|exact H99].
Defined.

Lemma players_of_length_delete db t u s id :
  ttr_players db !! (t, u) = Some s ->
  length (players_of db id)
  = if decide (id = t)
    then S (length (players_of
                      (set_ttr_players (delete (t, u) (ttr_players db)) db) id))
    else length (players_of
                   (set_ttr_players (delete (t, u) (ttr_players db)) db) id).
Proof.
  intros Hsome. unfold players_of. simpl. rewrite !length_fmap.
  rewrite <- (Permutation_length
                (filter_Permutation _ _ _ (map_to_list_delete _ _ s Hsome))).
  rewrite filter_cons. simpl.
  destruct (decide (id = t)) as [->|Hne].
  - by rewrite decide_True.
  - rewrite decide_False by congruence. done.
Qed.

Lemma find_after_players db v ttrID ttr :
  ttrRepository.find db ttrID = Some ttr ->
  ttrRepository.find (set_ttr_players v db) ttrID
  = Some (TTR.with_associations (TTR.CoCaptains ttr)
            (players_of (set_ttr_players v db) ttrID) ttr).
Proof.
  intros Hf. rewrite find_set_ttr_players, Hf. simpl.
  by destruct (find_columns _ _ _ Hf) as (row & _ & _ & ->).
Qed.

(** X3.  JoinTTR followed by LeaveTTR by the same user is a round trip:
    for a user with a row in [users] who is neither the captain nor on
    the roster, on a TTR with room, both calls succeed and the store is
    back to what it was. *)
Theorem Join_then_Leave (db : DB) (ttrID userID : UUID) (ttr : TTR.t) :
  ttrRepository.find db ttrID = Some ttr ->
  Z.of_nat (length (TTR.Players ttr)) < TTR.MaxPlayers ttr ->
  is_player ttr userID = false ->
  is_Some (users db !! userID) ->
  userID <> TTR.CaptainUserID ttr ->
  (TTRService.JoinTTR ttrID userID ;;; TTRService.LeaveTTR ttrID userID) db
  = (Ok tt, db).
Proof.
  intros Hf Hlt Hnp Hu Hne. unfold bind.
  rewrite (JoinTTR_cases _ _ _ _ Hf), Hnp.
  replace (_ >=? _) with false
    by (symmetry; rewrite Z.geb_leb; apply Z.leb_gt; lia).
  rewrite (proj2 (has_row_true _ _) Hu).
  erewrite LeaveTTR_cases by (by apply find_after_players).
  simpl.
  replace (TTR.CaptainUserID ttr =? userID)%N with false
    by (symmetry; apply N.eqb_neq; congruence).
  rewrite (is_player_has_row _ _ _ _ Hf) in Hnp. apply has_row_false in Hnp.
  rewrite delete_insert_eq, (delete_id _ _ Hnp).
  by destruct db.
Qed.

Lemma Join_then_Leave_witness :
  (TTRService.JoinTTR 1 12 ;;; TTRService.LeaveTTR 1 12) sample.store
  = (Ok tt, sample.store).
Proof.
  destruct (ttrRepository.find sample.store 1) as [ttr|] eqn:Hf;
    [|vm_compute in Hf; discriminate].
  apply (Join_then_Leave sample.store 1%N 12%N ttr Hf);
    vm_compute in Hf; injection Hf as <-.
  - vm_compute. reflexivity.
  - vm_compute. reflexivity.
  - vm_compute. eauto.
  - simpl. discriminate.
Defined.

(** X4.  LeaveTTR by a player other than the captain succeeds and removes
    exactly that player: the user is no longer on the roster, the roster is
    one shorter, every other user is a player exactly when they were, and
    the rosters of the other TTRs keep their size. *)
Theorem LeaveTTR_removes_player (db : DB) (ttrID userID : UUID) (ttr : TTR.t) :
  ttrRepository.find db ttrID = Some ttr ->
  userID <> TTR.CaptainUserID ttr ->
  is_player ttr userID = true ->
  let (r, db') := TTRService.LeaveTTR ttrID userID db in
  r = Ok tt /\
  (exists ttr',
      ttrRepository.find db' ttrID = Some ttr' /\
      is_player ttr' userID = false /\
      S (length (TTR.Players ttr')) = length (TTR.Players ttr) /\
      (forall other, other <> userID ->
                     is_player ttr' other = is_player ttr other)) /\
  (forall id, id <> ttrID ->
              length (players_of db' id) = length (players_of db id)).
Proof.
  intros Hf Hne Hp. rewrite (LeaveTTR_cases _ _ _ _ Hf).
  replace (TTR.CaptainUserID ttr =? userID)%N with false
    by (symmetry; apply N.eqb_neq; congruence).
  split; [done|].
  pose proof Hp as Hrow. rewrite (is_player_has_row _ _ _ _ Hf) in Hrow.
  apply has_row_true in Hrow as [s Hs].
  pose proof (find_after_players db (delete (ttrID, userID) (ttr_players db))
                ttrID ttr Hf) as Hf'.
  split.
  - eexists. split; [exact Hf'|]. split; [|split].
    + rewrite (is_player_has_row _ _ _ _ Hf'). apply has_row_false. simpl.
      apply lookup_delete_eq.
    + simpl. rewrite (find_Players _ _ _ Hf).
      rewrite (players_of_length_delete db ttrID userID s ttrID Hs).
      by rewrite decide_True.
    + intros other Ho.
      rewrite (is_player_has_row _ _ _ _ Hf'),
        (is_player_has_row _ _ _ _ Hf).
      unfold has_row. simpl. rewrite lookup_delete_ne; [done|congruence].
  - intros id Hid.
    rewrite (players_of_length_delete db ttrID userID s id Hs).
    by rewrite decide_False.
Qed.

Lemma LeaveTTR_removes_player_witness :
  let db1 := snd (TTRService.JoinTTR 1 12 sample.store) in
  fst (TTRService.LeaveTTR 1 12 db1) = Ok tt /\
  fst (TTRService.GetPlayers 1 (snd (TTRService.LeaveTTR 1 12 db1)))
  = Ok [TTRPlayer.mk 1 10 TTRPlayerStatusConfirmed].
Proof.
  intros db1.
  destruct (ttrRepository.find db1 1) as [ttr|] eqn:Hf;
    [|vm_compute in Hf; discriminate].
  pose proof (LeaveTTR_removes_player db1 1%N 12%N ttr Hf) as H.
  destruct (TTRService.LeaveTTR 1 12 db1) as [r db'] eqn:E.
  destruct H as (-> & _).
  - vm_compute in Hf. injection Hf as <-. simpl. discriminate.
  - vm_compute in Hf. injection Hf as <-. vm_compute. reflexivity.
  - split; [done|]. vm_compute in E. injection E as <-. vm_compute.
    reflexivity.
Defined.

(** ** Updating a player's status *)

Lemma valid_player_status_varchar status :
  one_of status TTRService.validStatuses = true -> varchar 50 status = true.
Proof.
  unfold one_of. simpl. rewrite !orb_true_iff, !String.eqb_eq.
  intros [->|[->|[->|[=]]]]; reflexivity.
Qed.

Lemma UpdatePlayerStatus_cases db ttrID manager player status ttr :
  ttrRepository.find db ttrID = Some ttr ->
  TTRService.UpdatePlayerStatus ttrID manager player status db =
  if negb ((TTR.CaptainUserID ttr =? manager)%N || is_co_captain ttr manager)
  then (Err (errors_New
          "unauthorized: only captain or co-captain can update player status"),
        db)
  else if negb (one_of status TTRService.validStatuses)
  then (Err (errors_New "invalid player status"), db)
  else if negb (is_player ttr player)
  then (Err (errors_New "player not found in TTR"), db)
  else if has_row player (users db)
  then (Ok tt,
        set_ttr_players (<[(ttrID, player) := status]> (ttr_players db)) db)
  else (Err (fmt_Errorf "failed to add player with new status"
               (fmt_Errorf "failed to add player" ErrForeignKey)),
        set_ttr_players (delete (ttrID, player) (ttr_players db)) db).
Proof.
  intros Hf. unfold TTRService.UpdatePlayerStatus.
  unfold bind at 1, wrapped at 1. rewrite (canManageTTR_run _ _ _ _ Hf).
  destruct (negb _); [done|].
  destruct (one_of status TTRService.validStatuses) eqn:Hv; [|done].
  apply valid_player_status_varchar in Hv.
  unfold ttrRepository.GetPlayers, ttrRepository.RemovePlayer,
    ttrRepository.AddPlayer. mrun.
  unfold is_player. rewrite (find_Players _ _ _ Hf).
  destruct (existsb _ (players_of db ttrID)); simpl; [|done].
  rewrite Hv. simpl. unfold has_row at 1. simpl. rewrite lookup_delete_eq.
  rewrite (find_has_row _ _ _ Hf). simpl.
  destruct (has_row player (users db)); simpl; [|done].
  by rewrite insert_delete_eq.
Qed.

(** X5.  UpdatePlayerStatus on an existing TTR checks, in this order: the
    actor is captain or co-captain (else Unauthorized), the status is one
    of CONFIRMED, MAYBE, DECLINED (else InvalidArgument), the target is on
    the roster (else NotFound).  Each failure leaves the store as it
    was. *)
Theorem UpdatePlayerStatus_checks (db : DB) (ttrID manager player : UUID)
    (status : string) (ttr : TTR.t) :
  ttrRepository.find db ttrID = Some ttr ->
  let (r, db') :=
    TTRService.UpdatePlayerStatus ttrID manager player status db in
  let can_manage :=
    (TTR.CaptainUserID ttr =? manager)%N || is_co_captain ttr manager in
  let valid :=
    one_of status [ TTRPlayerStatusConfirmed; TTRPlayerStatusMaybe;
                    TTRPlayerStatusDeclined ] in
  (can_manage = false -> fails_with Unauthorized r /\ db' = db) /\
  (can_manage = true -> valid = false ->
   fails_with InvalidArgument r /\ db' = db) /\
  (can_manage = true -> valid = true -> is_player ttr player = false ->
   fails_with NotFound r /\ db' = db).
Proof.
  intros Hf. rewrite (UpdatePlayerStatus_cases _ _ _ _ _ _ Hf).
  change TTRService.validStatuses
    with [ TTRPlayerStatusConfirmed; TTRPlayerStatusMaybe;
           TTRPlayerStatusDeclined ].
  destruct (_ || _); cbn [negb].
  2:{ split; [|split]; try done. intros _.
      split; [eexists; split; reflexivity|done]. }
  destruct (one_of status _); cbn [negb].
  2:{ split; [|split]; try done. intros _ _.
      split; [eexists; split; reflexivity|done]. }
  destruct (is_player ttr player); cbn [negb].
  { destruct (has_row player (users db)); (split; [|split]); done. }
  split; [|split]; try done. intros _ _ _.
  split; [eexists; split; reflexivity|done].
Qed.

Lemma UpdatePlayerStatus_checks_witness :
  fails_with Unauthorized
    (fst (TTRService.UpdatePlayerStatus 1 12 10 "BOGUS" sample.store)) /\
  fails_with InvalidArgument
    (fst (TTRService.UpdatePlayerStatus 1 11 12 "BOGUS" sample.store)) /\
  fails_with NotFound
    (fst (TTRService.UpdatePlayerStatus 1 11 12 TTRPlayerStatusMaybe
            sample.store)).
Proof.
  destruct (ttrRepository.find sample.store 1) as [ttr|] eqn:Hf;
    [|vm_compute in Hf; discriminate].
  assert (Httr : ttr = TTR.mk 1 "Pebble Beach" None 20250 600 2 10%N 10%N
                         TTRStatusOpen None None [TTRCoCaptain.mk 1 11]
                         [TTRPlayer.mk 1 10 TTRPlayerStatusConfirmed]).
  { vm_compute in Hf. by injection Hf as <-. }
  pose proof (UpdatePlayerStatus_checks sample.store 1%N 12%N 10%N "BOGUS"
                ttr Hf) as H1.
  pose proof (UpdatePlayerStatus_checks sample.store 1%N 11%N 12%N "BOGUS"
                ttr Hf) as H2.
  pose proof (UpdatePlayerStatus_checks sample.store 1%N 11%N 12%N
                TTRPlayerStatusMaybe ttr Hf) as H3.
  destruct (TTRService.UpdatePlayerStatus 1 12 10 "BOGUS" sample.store)
    as [r1 db1].
  destruct (TTRService.UpdatePlayerStatus 1 11 12 "BOGUS" sample.store)
    as [r2 db2].
  destruct (TTRService.UpdatePlayerStatus 1 11 12 TTRPlayerStatusMaybe
              sample.store) as [r3 db3].
  subst ttr. simpl in *.
  destruct H1 as ([H1 _] & _); [reflexivity|].
  destruct H2 as (_ & [H2 _] & _); [reflexivity..|].
  destruct H3 as (_ & _ & [H3 _]); [reflexivity..|].
  done.
Defined.

(** X6.  UpdatePlayerStatus by a captain or co-captain, with a valid
    status, on a player who has a row in [users], succeeds and changes
    that player's status only: the roster keeps its size, the player is
    on it with the new status, every other roster row and every other
    table is as it was. *)
Theorem UpdatePlayerStatus_updates (db : DB) (ttrID manager player : UUID)
    (status : string) (ttr : TTR.t) :
  ttrRepository.find db ttrID = Some ttr ->
  manager = TTR.CaptainUserID ttr \/ is_co_captain ttr manager = true ->
  one_of status [ TTRPlayerStatusConfirmed; TTRPlayerStatusMaybe;
                  TTRPlayerStatusDeclined ] = true ->
  is_player ttr player = true ->
  is_Some (users db !! player) ->
  let (r, db') :=
    TTRService.UpdatePlayerStatus ttrID manager player status db in
  r = Ok tt /\
  ttr_players db' !! (ttrID, player) = Some status /\
  (forall k, k <> (ttrID, player) ->
             ttr_players db' !! k = ttr_players db !! k) /\
  users db' = users db /\ ttrs db' = ttrs db /\
  ttr_co_captains db' = ttr_co_captains db /\
  invitations db' = invitations db /\
  (forall id, length (players_of db' id) = length (players_of db id)).
Proof.
  intros Hf Hauth Hv Hp Hu.
  rewrite (UpdatePlayerStatus_cases _ _ _ _ _ _ Hf).
  replace ((TTR.CaptainUserID ttr =? manager)%N || is_co_captain ttr manager)
    with true.
  2:{ symmetry. apply orb_true_iff.
      destruct Hauth as [->|Hcc]; [left; apply N.eqb_refl|by right]. }
  change TTRService.validStatuses
    with [ TTRPlayerStatusConfirmed; TTRPlayerStatusMaybe;
           TTRPlayerStatusDeclined ].
  rewrite Hv, Hp, (proj2 (has_row_true _ _) Hu). simpl.
  split; [done|]. split; [apply lookup_insert_eq|].
  split; [intros k Hk; by rewrite lookup_insert_ne|].
  repeat (split; [done|]).
  intros id.
  rewrite (is_player_has_row _ _ _ _ Hf) in Hp.
  apply has_row_true in Hp as [s Hs].
  rewrite (players_of_length_delete db ttrID player s id Hs).
  rewrite <- (insert_delete_eq (ttr_players db)).
  pose proof (players_of_length_insert
                (set_ttr_players (delete (ttrID, player) (ttr_players db)) db)
                ttrID player status id) as Hins.
  specialize (Hins (lookup_delete_eq _ _)).
  unfold players_of in *. simpl in *. rewrite Hins.
  by destruct (decide (id = ttrID)).
Qed.

Lemma UpdatePlayerStatus_updates_witness :
  let db1 := snd (TTRService.JoinTTR 1 12 sample.store) in
  TTRService.GetPlayers 1
    (snd (TTRService.UpdatePlayerStatus 1 11 12 TTRPlayerStatusMaybe db1))
  = (Ok [ TTRPlayer.mk 1 10 TTRPlayerStatusConfirmed;
          TTRPlayer.mk 1 12 TTRPlayerStatusMaybe ],
     snd (TTRService.UpdatePlayerStatus 1 11 12 TTRPlayerStatusMaybe db1)) /\
  fst (TTRService.UpdatePlayerStatus 1 11 12 TTRPlayerStatusMaybe db1) = Ok tt.
Proof.
  intros db1.
  destruct (ttrRepository.find db1 1) as [ttr|] eqn:Hf;
    [|vm_compute in Hf; discriminate].
  pose proof (UpdatePlayerStatus_updates db1 1%N 11%N 12%N
                TTRPlayerStatusMaybe ttr Hf) as H.
  destruct (TTRService.UpdatePlayerStatus 1 11 12 TTRPlayerStatusMaybe db1)
    as [r db'] eqn:E.
  destruct H as (-> & _).
  - right. vm_compute in Hf. injection Hf as <-. vm_compute. reflexivity.
  - vm_compute. reflexivity.
  - vm_compute in Hf. injection Hf as <-. vm_compute. reflexivity.
  - vm_compute. eauto.
  - split; [|done]. vm_compute in E. injection E as <-. vm_compute.
    reflexivity.
Defined.

(** ** A TTR that does not exist *)

Lemma isCaptain_missing db ttrID userID :
  ttrRepository.find db ttrID = None ->
  TTRService.isCaptain ttrID userID db
  = (Err (errors_New "TTR not found"), db).
Proof.
  intros Hf. unfold TTRService.isCaptain, ttrRepository.FindByID. mrun.
  by rewrite Hf.
Qed.

(** X7.  On a TTR that does not exist (or is soft-deleted), JoinTTR,
    LeaveTTR, GetTTR and CreateInvitation return the bare message
    "TTR not found" (NotFound).  UpdateTTR, DeleteTTR, AddCoCaptain,
    RemoveCoCaptain and UpdatePlayerStatus detect it inside their
    permission check and wrap it, so their message is not the NotFound
    message and the error reads as Internal.  None of them writes. *)
Theorem missing_TTR_errors (db : DB) (ttrID : UUID) :
  ttrRepository.find db ttrID = None ->
  (forall userID,
      TTRService.JoinTTR ttrID userID db
      = (Err (errors_New "TTR not found"), db) /\
      TTRService.LeaveTTR ttrID userID db
      = (Err (errors_New "TTR not found"), db)) /\
  TTRService.GetTTR ttrID db = (Err (errors_New "TTR not found"), db) /\
  (forall gen inviter invitee message,
      InvitationService.CreateInvitation gen ttrID inviter invitee message db
      = (Err (errors_New "TTR not found"), db)) /\
  kind (errors_New "TTR not found") = NotFound /\
  (forall userID courseName courseLocation teeDate teeTime maxPlayers status
          notes,
      TTRService.UpdateTTR ttrID userID courseName courseLocation teeDate
        teeTime maxPlayers status notes db
      = (Err (fmt_Errorf "failed to check permissions"
                (errors_New "TTR not found")), db)) /\
  (forall manager player status,
      TTRService.UpdatePlayerStatus ttrID manager player status db
      = (Err (fmt_Errorf "failed to check permissions"
                (errors_New "TTR not found")), db)) /\
  (forall now userID,
      TTRService.DeleteTTR now ttrID userID db
      = (Err (fmt_Errorf "failed to check captain status"
                (errors_New "TTR not found")), db)) /\
  (forall userID target,
      TTRService.AddCoCaptain ttrID userID target db
      = (Err (fmt_Errorf "failed to check captain status"
                (errors_New "TTR not found")), db) /\
      TTRService.RemoveCoCaptain ttrID userID target db
      = (Err (fmt_Errorf "failed to check captain status"
                (errors_New "TTR not found")), db)) /\
  kind (fmt_Errorf "failed to check permissions" (errors_New "TTR not found"))
  = Internal /\
  kind (fmt_Errorf "failed to check captain status"
          (errors_New "TTR not found")) = Internal.
Proof.
  intros Hf.
  assert (Hcan : forall userID,
            TTRService.canManageTTR ttrID userID db
            = (Err (errors_New "TTR not found"), db)).
  { intros userID. unfold TTRService.canManageTTR, bind.
    by rewrite (isCaptain_missing _ _ _ Hf). }
  repeat apply conj; try reflexivity; intros; try split.
  - unfold TTRService.JoinTTR, ttrRepository.FindByID. mrun. by rewrite Hf.
  - unfold TTRService.LeaveTTR, ttrRepository.FindByID. mrun. by rewrite Hf.
  - unfold TTRService.GetTTR, ttrRepository.FindByID. mrun. by rewrite Hf.
  - by rewrite CreateInvitation_cases, Hf.
  - unfold TTRService.UpdateTTR. unfold bind at 1, wrapped at 1.
    by rewrite Hcan.
  - unfold TTRService.UpdatePlayerStatus. unfold bind at 1, wrapped at 1.
    by rewrite Hcan.
  - unfold TTRService.DeleteTTR. unfold bind at 1, wrapped at 1.
    by rewrite (isCaptain_missing _ _ _ Hf).
  - unfold TTRService.AddCoCaptain. unfold bind at 1, wrapped at 1.
    by rewrite (isCaptain_missing _ _ _ Hf).
  - unfold TTRService.RemoveCoCaptain. unfold bind at 1, wrapped at 1.
    by rewrite (isCaptain_missing _ _ _ Hf).
Qed.

Lemma missing_TTR_errors_witness :
  TTRService.GetTTR 9 sample.store
  = (Err (errors_New "TTR not found"), sample.store) /\
  fails_with Internal (fst (TTRService.DeleteTTR 300 9 10 sample.store)).
Proof.
  destruct (missing_TTR_errors sample.store 9%N)
    as (_ & HG & _ & _ & _ & _ & HD & _ & _ & HK).
  - vm_compute. reflexivity.
  - split; [exact HG|]. rewrite (HD 300 10%N). simpl.
    eexists. split; [reflexivity|exact HK].
Defined.

(** ** Co-captains *)

Lemma find_set_ttr_co_captains db v id :
  ttrRepository.find (set_ttr_co_captains v db) id
  = TTR.with_associations
      (co_captains_of (set_ttr_co_captains v db) id) (players_of db id)
    <$> (ttrRepository.find db id).
Proof.
  unfold ttrRepository.find. simpl.
  destruct (ttrs db !! id) as [row|]; [|done].
  by destruct (TTR.DeletedAt row).
Qed.

Lemma set_ttr_co_captains_id db v :
  v = ttr_co_captains db -> set_ttr_co_captains v db = db.
Proof. intros ->. by destruct db. Qed.

Lemma co_captains_remove_absent (cc : gset (N * N)) (k : N * N) :
  k ∉ cc -> cc ∖ {[ k ]} = cc.
Proof. intros Hk. apply difference_disjoint_L, disjoint_singleton_r, Hk. Qed.

Lemma co_captains_add_remove (cc : gset (N * N)) (k : N * N) :
  k ∉ cc -> ({[ k ]} ∪ cc) ∖ {[ k ]} = cc.
Proof.
  intros Hk. rewrite difference_union_distr_l_L, difference_diag_L.
  rewrite (left_id_L ∅ (∪)). by apply co_captains_remove_absent.
Qed.

Lemma user_find_has_row db userID :
  is_Some (userRepository.find db userID) -> has_row userID (users db) = true.
Proof.
  unfold userRepository.find, has_row.
  destruct (users db !! userID); [done|]. by intros [x Hx].
Qed.

Lemma AddCoCaptain_cases db ttrID target ttr :
  ttrRepository.find db ttrID = Some ttr ->
  TTRService.AddCoCaptain ttrID (TTR.CaptainUserID ttr) target db =
  match userRepository.find db target with
  | None => (Err (errors_New "co-captain user not found"), db)
  | Some _ =>
      if is_co_captain ttr target
      then (Err (errors_New "user is already a co-captain"), db)
      else (Ok tt,
            set_ttr_co_captains ({[ (ttrID, target) ]} ∪ ttr_co_captains db)
              db)
  end.
Proof.
  intros Hf. unfold TTRService.AddCoCaptain.
  unfold bind at 1, wrapped at 1.
  rewrite (isCaptain_run _ _ _ _ Hf), N.eqb_refl. cbn [negb].
  rewrite (is_co_captain_decide _ _ _ _ Hf).
  unfold userRepository.FindByID, ttrRepository.IsCoCaptain,
    ttrRepository.AddCoCaptain. mrun.
  destruct (userRepository.find db target) as [u|] eqn:Hu; simpl; [|done].
  destruct (bool_decide ((ttrID, target) ∈ ttr_co_captains db)) eqn:Hcc;
    simpl; [done|].
  rewrite Hcc, (find_has_row _ _ _ Hf), user_find_has_row by (rewrite Hu; eauto).
  done.
Qed.

(** X8.  AddCoCaptain by the captain of an existing TTR fails with NotFound
    when the target user does not exist and with AlreadyExists when the
    target is already a co-captain, writing nothing; otherwise it succeeds,
    adds exactly the pair (TTR, target) to the co-captains, and from then
    on the target passes the permission check [canManageTTR]. *)
Theorem AddCoCaptain_by_captain (db : DB) (ttrID target : UUID) (ttr : TTR.t) :
  ttrRepository.find db ttrID = Some ttr ->
  let (r, db') :=
    TTRService.AddCoCaptain ttrID (TTR.CaptainUserID ttr) target db in
  (userRepository.find db target = None ->
   fails_with NotFound r /\ db' = db) /\
  (is_Some (userRepository.find db target) ->
   is_co_captain ttr target = true ->
   fails_with AlreadyExists r /\ db' = db) /\
  (is_Some (userRepository.find db target) ->
   is_co_captain ttr target = false ->
   r = Ok tt /\
   db' = set_ttr_co_captains ({[ (ttrID, target) ]} ∪ ttr_co_captains db) db /\
   TTRService.canManageTTR ttrID target db' = (Ok true, db')).
Proof.
  intros Hf. rewrite (AddCoCaptain_cases _ _ _ _ Hf).
  destruct (userRepository.find db target) as [u|].
  2:{ split; [|split]; [|by intros [x Hx]..].
      intros _. split; [eexists; split; reflexivity|done]. }
  destruct (is_co_captain ttr target).
  { split; [done|]. split; [|done].
    intros _ _. split; [eexists; split; reflexivity|done]. }
  split; [done|]. split; [done|]. intros _ _. split; [done|]. split; [done|].
  erewrite canManageTTR_run
    by (rewrite find_set_ttr_co_captains, Hf; reflexivity).
  erewrite is_co_captain_decide
    by (rewrite find_set_ttr_co_captains, Hf; reflexivity).
  simpl. rewrite (bool_decide_eq_true_2 _).
  - by rewrite orb_true_r.
  - apply elem_of_union_l. by apply elem_of_singleton.
Qed.

Lemma AddCoCaptain_by_captain_witness :
  fails_with NotFound (fst (TTRService.AddCoCaptain 1 10 99 sample.store)) /\
  fails_with AlreadyExists
    (fst (TTRService.AddCoCaptain 1 10 11 sample.store)) /\
  fst (TTRService.AddCoCaptain 1 10 12 sample.store) = Ok tt /\
  fst (TTRService.canManageTTR 1 12
         (snd (TTRService.AddCoCaptain 1 10 12 sample.store))) = Ok true.
Proof.
  destruct (ttrRepository.find sample.store 1) as [ttr|] eqn:Hf;
    [|vm_compute in Hf; discriminate].
  assert (Httr : ttr = TTR.mk 1 "Pebble Beach" None 20250 600 2 10%N 10%N
                         TTRStatusOpen None None [TTRCoCaptain.mk 1 11]
                         [TTRPlayer.mk 1 10 TTRPlayerStatusConfirmed]).
  { vm_compute in Hf. by injection Hf as <-. }
  pose proof (AddCoCaptain_by_captain sample.store 1%N 99%N ttr Hf) as H1.
  pose proof (AddCoCaptain_by_captain sample.store 1%N 11%N ttr Hf) as H2.
  pose proof (AddCoCaptain_by_captain sample.store 1%N 12%N ttr Hf) as H3.
  subst ttr. simpl in H1, H2, H3.
  destruct (TTRService.AddCoCaptain 1 10 99 sample.store) as [r1 db1].
  destruct (TTRService.AddCoCaptain 1 10 11 sample.store) as [r2 db2].
  destruct (TTRService.AddCoCaptain 1 10 12 sample.store) as [r3 db3].
  destruct H1 as ([H1 _] & _); [vm_compute; reflexivity|].
  destruct H2 as (_ & [H2 _] & _); [vm_compute; eauto|reflexivity|].
  destruct H3 as (_ & _ & (-> & _ & H3)); [vm_compute; eauto|reflexivity|].
  simpl. rewrite H3. done.
Defined.

Lemma RemoveCoCaptain_cases db ttrID target ttr :
  ttrRepository.find db ttrID = Some ttr ->
  TTRService.RemoveCoCaptain ttrID (TTR.CaptainUserID ttr) target db =
  (Ok tt,
   set_ttr_co_captains (ttr_co_captains db ∖ {[ (ttrID, target) ]}) db).
Proof.
  intros Hf. unfold TTRService.RemoveCoCaptain.
  unfold bind at 1, wrapped at 1.
  rewrite (isCaptain_run _ _ _ _ Hf), N.eqb_refl. cbn [negb].
  unfold ttrRepository.RemoveCoCaptain. by mrun.
Qed.

(** X9.  RemoveCoCaptain by the captain of an existing TTR always succeeds,
    whether or not the target is a co-captain (nothing checks it):
    afterwards the target is no co-captain of this TTR and passes the
    permission check only as the captain; if the target was no co-captain
    the store is as it was.  It undoes AddCoCaptain: adding a user who was
    no co-captain and removing them again gives back the store. *)
Theorem RemoveCoCaptain_by_captain (db : DB) (ttrID target : UUID)
    (ttr : TTR.t) :
  ttrRepository.find db ttrID = Some ttr ->
  let (r, db') :=
    TTRService.RemoveCoCaptain ttrID (TTR.CaptainUserID ttr) target db in
  r = Ok tt /\
  ttr_co_captains db' = ttr_co_captains db ∖ {[ (ttrID, target) ]} /\
  TTRService.canManageTTR ttrID target db'
  = (Ok (TTR.CaptainUserID ttr =? target)%N, db') /\
  (is_co_captain ttr target = false ->
   db' = db /\
   (is_Some (userRepository.find db target) ->
    (TTRService.AddCoCaptain ttrID (TTR.CaptainUserID ttr) target ;;;
     TTRService.RemoveCoCaptain ttrID (TTR.CaptainUserID ttr) target) db
    = (Ok tt, db))).
Proof.
  intros Hf. rewrite (RemoveCoCaptain_cases _ _ _ _ Hf).
  split; [done|]. split; [done|]. split.
  - erewrite canManageTTR_run
      by (rewrite find_set_ttr_co_captains, Hf; reflexivity).
    erewrite is_co_captain_decide
      by (rewrite find_set_ttr_co_captains, Hf; reflexivity).
    simpl. rewrite (bool_decide_eq_false_2 _).
    + by rewrite orb_false_r.
    + intros Hin. apply elem_of_difference in Hin as [_ Hin].
      apply Hin. by apply elem_of_singleton.
  - intros Hncc. pose proof Hncc as Hnin.
    rewrite (is_co_captain_decide _ _ _ _ Hf) in Hnin.
    apply bool_decide_eq_false in Hnin.
    split; [by apply set_ttr_co_captains_id, co_captains_remove_absent|].
    intros [u Hu]. unfold bind.
    rewrite (AddCoCaptain_cases _ _ _ _ Hf), Hu, Hncc.
    match goal with
    | |- context [TTRService.RemoveCoCaptain _ _ _ ?db1] =>
        pose proof (RemoveCoCaptain_cases db1 ttrID target _
                      (eq_trans (find_set_ttr_co_captains db _ ttrID)
                         (f_equal _ Hf))) as Hrm
    end.
    simpl in Hrm. rewrite Hrm. simpl. f_equal.
    rewrite (co_captains_add_remove _ _ Hnin). by destruct db.
Qed.

Lemma RemoveCoCaptain_by_captain_witness :
  fst (TTRService.RemoveCoCaptain 1 10 11 sample.store) = Ok tt /\
  fst (TTRService.canManageTTR 1 11
         (snd (TTRService.RemoveCoCaptain 1 10 11 sample.store))) = Ok false /\
  (TTRService.AddCoCaptain 1 10 12 ;;; TTRService.RemoveCoCaptain 1 10 12)
    sample.store = (Ok tt, sample.store).
Proof.
  destruct (ttrRepository.find sample.store 1) as [ttr|] eqn:Hf;
    [|vm_compute in Hf; discriminate].
  assert (Httr : ttr = TTR.mk 1 "Pebble Beach" None 20250 600 2 10%N 10%N
                         TTRStatusOpen None None [TTRCoCaptain.mk 1 11]
                         [TTRPlayer.mk 1 10 TTRPlayerStatusConfirmed]).
  { vm_compute in Hf. by injection Hf as <-. }
  pose proof (RemoveCoCaptain_by_captain sample.store 1%N 11%N ttr Hf) as H1.
  pose proof (RemoveCoCaptain_by_captain sample.store 1%N 12%N ttr Hf) as H2.
  subst ttr. simpl in H1, H2.
  destruct (TTRService.RemoveCoCaptain 1 10 11 sample.store) as [r1 db1].
  destruct (TTRService.RemoveCoCaptain 1 10 12 sample.store) as [r2 db2].
  destruct H1 as (-> & _ & H1 & _). destruct H2 as (_ & _ & _ & H2).
  destruct H2 as [_ H2]; [reflexivity|].
  simpl. rewrite H1. split; [done|]. split; [done|].
  apply H2. vm_compute. eauto.
Defined.

(** ** Deleting a TTR *)

Lemma DeleteTTR_cases db now ttrID ttr :
  ttrRepository.find db ttrID = Some ttr ->
  exists row,
    ttrs db !! ttrID = Some row /\ TTR.DeletedAt row = None /\
    TTRService.DeleteTTR now ttrID (TTR.CaptainUserID ttr) db
    = (Ok tt,
       set_ttrs (<[ttrID := TTR.with_DeletedAt (Some now) row]> (ttrs db)) db).
Proof.
  intros Hf. destruct (find_columns _ _ _ Hf) as (row & Hrow & Hdel & Httr).
  exists row. split; [done|]. split; [done|].
  unfold TTRService.DeleteTTR. unfold bind at 1, wrapped at 1.
  rewrite (isCaptain_run _ _ _ _ Hf), N.eqb_refl. cbn [negb].
  unfold ttrRepository.Delete. mrun. by rewrite Hrow, Hdel.
Qed.

Lemma Respond_YES_missing_TTR db now id inv :
  invitations db !! id = Some inv ->
  Invitation.Status inv = InvitationStatusPending ->
  ttrRepository.find db (Invitation.TTRID inv) = None ->
  InvitationService.RespondToInvitation now id (Invitation.InviteeUserID inv)
    InvitationStatusYes db
  = (Err (errors_New "TTR not found"), db).
Proof.
  intros Hi Hp Hf. unfold_respond. mrun.
  rewrite Hi. simpl. rewrite N.eqb_refl, Hp. simpl. by rewrite Hf.
Qed.

(** X10.  DeleteTTR by the captain succeeds and is a soft delete: the row
    stays in [ttrs] with its deleted_at set, the TTR is no longer found,
    and the players, co-captains and invitations of the TTR stay in their
    tables (nothing cascades).  Afterwards a second DeleteTTR fails, and
    accepting a PENDING invitation to the TTR fails with NotFound and
    leaves the invitation PENDING. *)
Theorem DeleteTTR_by_captain (db : DB) (now : Time) (ttrID : UUID)
    (ttr : TTR.t) :
  ttrRepository.find db ttrID = Some ttr ->
  let (r, db') := TTRService.DeleteTTR now ttrID (TTR.CaptainUserID ttr) db in
  r = Ok tt /\
  ttrRepository.find db' ttrID = None /\
  TTR.DeletedAt <$> ttrs db' !! ttrID = Some (Some now) /\
  (forall id, id <> ttrID -> ttrs db' !! id = ttrs db !! id) /\
  users db' = users db /\
  ttr_players db' = ttr_players db /\
  ttr_co_captains db' = ttr_co_captains db /\
  invitations db' = invitations db /\
  (forall now' actor,
      fails_with Internal (fst (TTRService.DeleteTTR now' ttrID actor db')) /\
      snd (TTRService.DeleteTTR now' ttrID actor db') = db') /\
  (forall now' id inv,
      invitations db !! id = Some inv ->
      Invitation.TTRID inv = ttrID ->
      Invitation.Status inv = InvitationStatusPending ->
      InvitationService.RespondToInvitation now' id
        (Invitation.InviteeUserID inv) InvitationStatusYes db'
      = (Err (errors_New "TTR not found"), db')).
Proof.
  intros Hf.
  destruct (DeleteTTR_cases db now ttrID ttr Hf) as (row & Hrow & Hdel & ->).
  assert (Hgone : ttrRepository.find
                    (set_ttrs (<[ttrID := TTR.with_DeletedAt (Some now) row]>
                                 (ttrs db)) db) ttrID = None).
  { unfold ttrRepository.find. simpl. by rewrite lookup_insert_eq. }
  split; [done|]. split; [exact Hgone|].
  split; [simpl; by rewrite lookup_insert_eq|].
  split; [intros id Hid; simpl; by rewrite lookup_insert_ne|].
  repeat (split; [done|]). split.
  - intros now' actor.
    match goal with
    | |- context [TTRService.DeleteTTR _ _ _ ?db1] =>
        assert (Hd : TTRService.DeleteTTR now' ttrID actor db1
                     = (Err (fmt_Errorf "failed to check captain status"
                               (errors_New "TTR not found")), db1))
    end.
    { unfold TTRService.DeleteTTR. unfold bind at 1, wrapped at 1.
      by rewrite (isCaptain_missing _ _ _ Hgone). }
    rewrite Hd. split; [eexists; split; reflexivity|done].
  - intros now' id inv Hi Ht Hp. apply Respond_YES_missing_TTR; try done.
    by rewrite Ht.
Qed.

Lemma DeleteTTR_by_captain_witness :
  fst (TTRService.DeleteTTR 300 2 10 sample.store) = Ok tt /\
  TTRService.GetPlayers 2 (snd (TTRService.DeleteTTR 300 2 10 sample.store))
  = (Ok [TTRPlayer.mk 2 10 TTRPlayerStatusConfirmed],
     snd (TTRService.DeleteTTR 300 2 10 sample.store)) /\
  fails_with NotFound
    (fst (InvitationService.RespondToInvitation 400 5 12 InvitationStatusYes
            (snd (TTRService.DeleteTTR 300 2 10 sample.store)))).
Proof.
  destruct (ttrRepository.find sample.store 2) as [ttr|] eqn:Hf;
    [|vm_compute in Hf; discriminate].
  assert (Hcap : TTR.CaptainUserID ttr = 10%N).
  { vm_compute in Hf. by injection Hf as <-. }
  pose proof (DeleteTTR_by_captain sample.store 300 2%N ttr Hf) as H.
  rewrite Hcap in H.
  destruct (TTRService.DeleteTTR 300 2 10 sample.store) as [r db'] eqn:E.
  destruct H as (-> & _ & _ & _ & _ & _ & _ & _ & _ & H).
  specialize (H 400 5%N
                (Invitation.mk 5 2 10 12 InvitationStatusPending None None)).
  simpl in *. split; [done|]. split.
  - vm_compute in E. injection E as <-. vm_compute. reflexivity.
  - rewrite H; [eexists; split; reflexivity|vm_compute; reflexivity|done..].
Defined.

(** ** Answering an invitation *)

Lemma invitation_check_row_answer inv status now db :
  varchar 50 status = true ->
  invitationRepository.check_row inv db = None ->
  invitationRepository.check_row
    (Invitation.with_RespondedAt now (Invitation.with_Status status inv)) db
  = None.
Proof.
  unfold invitationRepository.check_row. simpl. intros ->.
  by destruct (negb (varchar 50 (Invitation.Status inv))).
Qed.

Lemma invitation_check_row_players inv v db :
  invitationRepository.check_row inv (set_ttr_players v db)
  = invitationRepository.check_row inv db.
Proof. reflexivity. Qed.

Lemma invitation_check_row_users inv db :
  invitationRepository.check_row inv db = None ->
  has_row (Invitation.TTRID inv) (ttrs db) = true /\
  has_row (Invitation.InviterUserID inv) (users db) = true /\
  has_row (Invitation.InviteeUserID inv) (users db) = true.
Proof.
  unfold invitationRepository.check_row.
  destruct (negb (varchar _ _)); [done|].
  destruct (has_row (Invitation.TTRID inv) (ttrs db)); [|done].
  destruct (has_row (Invitation.InviterUserID inv) (users db)); [|done].
  by destruct (has_row (Invitation.InviteeUserID inv) (users db)).
Qed.

(** The checks that RespondToInvitation makes first. *)
Lemma Respond_checks_run db now id actor status :
  InvitationService.RespondToInvitation now id actor status db =
  if negb (one_of status InvitationService.validStatuses)
  then (Err (errors_New "invalid invitation status"), db)
  else
    match invitations db !! id with
    | None => (Err (errors_New "invitation not found"), db)
    | Some inv =>
        if negb (Invitation.InviteeUserID inv =? actor)%N
        then (Err (errors_New
                "unauthorized: you can only respond to your own invitations"),
              db)
        else if negb (String.eqb (Invitation.Status inv)
                                 InvitationStatusPending)
        then (Err (errors_New "invitation has already been responded to"), db)
        else InvitationService.RespondToInvitation now id actor status db
    end.
Proof.
  destruct (one_of status InvitationService.validStatuses) eqn:Hv.
  2:{ unfold InvitationService.RespondToInvitation. by rewrite Hv. }
  cbn [negb].
  destruct (invitations db !! id) as [inv|] eqn:Hi.
  2:{ unfold_respond. rewrite Hv. mrun. by rewrite Hi. }
  destruct (negb (Invitation.InviteeUserID inv =? actor)%N) eqn:He.
  { unfold_respond. rewrite Hv. mrun. rewrite Hi. simpl. by rewrite He. }
  destruct (negb (String.eqb (Invitation.Status inv) InvitationStatusPending))
    eqn:Hp; [|done].
  unfold_respond. rewrite Hv. mrun. rewrite Hi. simpl. by rewrite He, Hp.
Qed.

(** X11.  RespondToInvitation checks, in this order: the answer is YES, NO
    or MAYBE (else InvalidArgument, whatever the invitation and the
    actor), the invitation exists (else NotFound), the actor is its
    invitee (else Unauthorized, whatever the state of the invitation).
    Each failure leaves the store as it was. *)
Theorem RespondToInvitation_checks (db : DB) (now : Time) (id actor : UUID)
    (status : string) :
  let (r, db') :=
    InvitationService.RespondToInvitation now id actor status db in
  let valid :=
    one_of status [ InvitationStatusYes; InvitationStatusNo;
                    InvitationStatusMaybe ] in
  (valid = false -> fails_with InvalidArgument r /\ db' = db) /\
  (valid = true -> invitations db !! id = None ->
   fails_with NotFound r /\ db' = db) /\
  (valid = true ->
   forall inv, invitations db !! id = Some inv ->
               Invitation.InviteeUserID inv <> actor ->
               fails_with Unauthorized r /\ db' = db).
Proof.
  rewrite Respond_checks_run.
  change InvitationService.validStatuses
    with [ InvitationStatusYes; InvitationStatusNo; InvitationStatusMaybe ].
  destruct (one_of status _); cbn [negb].
  2:{ split; [|split]; try done. intros _.
      split; [eexists; split; reflexivity|done]. }
  destruct (invitations db !! id) as [inv|].
  2:{ split; [done|]. split; [|done]. intros _ _.
      split; [eexists; split; reflexivity|done]. }
  destruct (N.eqb_spec (Invitation.InviteeUserID inv) actor) as [He|Hne];
    cbn [negb].
  - destruct (InvitationService.RespondToInvitation now id actor status db),
      (negb _); (split; [done|]); (split; [done|]);
      intros _ inv' [= <-] Hx; by destruct Hx.
  - split; [done|]. split; [done|]. intros _ inv' _ _.
    split; [eexists; split; reflexivity|done].
Qed.

Lemma RespondToInvitation_checks_witness :
  fails_with InvalidArgument
    (fst (InvitationService.RespondToInvitation 200 99 12 "PENDING"
            sample.store)) /\
  fails_with NotFound
    (fst (InvitationService.RespondToInvitation 200 99 12 InvitationStatusNo
            sample.store)) /\
  fails_with Unauthorized
    (fst (InvitationService.RespondToInvitation 200 7 12 InvitationStatusNo
            sample.store)).
Proof.
  pose proof (RespondToInvitation_checks sample.store 200 99%N 12%N "PENDING")
    as H1.
  pose proof (RespondToInvitation_checks sample.store 200 99%N 12%N
                InvitationStatusNo) as H2.
  pose proof (RespondToInvitation_checks sample.store 200 7%N 12%N
                InvitationStatusNo) as H3.
  destruct (InvitationService.RespondToInvitation 200 99 12 "PENDING"
              sample.store) as [r1 db1].
  destruct (InvitationService.RespondToInvitation 200 99 12 InvitationStatusNo
              sample.store) as [r2 db2].
  destruct (InvitationService.RespondToInvitation 200 7 12 InvitationStatusNo
              sample.store) as [r3 db3].
  simpl in *.
  destruct H1 as ([H1 _] & _); [reflexivity|].
  destruct H2 as (_ & [H2 _] & _); [reflexivity|vm_compute; reflexivity|].
  destruct H3 as (_ & _ & H3). 
  destruct (H3 eq_refl
              (Invitation.mk 7 1 11 13 InvitationStatusNo None (Some 100)))
    as [H3' _]; [vm_compute; reflexivity|discriminate|].
  done.
Defined.

(** The row that RespondToInvitation saves. *)
Lemma Respond_decline_run db now id inv status :
  invitations db !! id = Some inv ->
  Invitation.Status inv = InvitationStatusPending ->
  status = InvitationStatusNo \/ status = InvitationStatusMaybe ->
  let inv' := Invitation.with_RespondedAt (Some now)
                (Invitation.with_Status status (Invitation.with_ID id inv)) in
  InvitationService.RespondToInvitation now id (Invitation.InviteeUserID inv)
    status db =
  match invitationRepository.check_row inv' db with
  | Some e =>
      (Err (fmt_Errorf "failed to update invitation"
              (fmt_Errorf "failed to update invitation" e)), db)
  | None =>
      (Ok (Some inv'), set_invitations (<[id := inv']> (invitations db)) db)
  end.
Proof.
  intros Hi Hp Hst inv'. subst inv'.
  destruct Hst as [-> | ->]; unfold_respond; mrun; rewrite Hi; simpl;
    rewrite N.eqb_refl, Hp; simpl;
    (destruct (invitationRepository.check_row _ db); simpl; [done|]);
    by rewrite lookup_insert_eq.
Qed.

(** X12.  Declining (NO) or answering MAYBE to a PENDING invitation, by its
    invitee, when the stored row satisfies the constraints of the schema:
    the call succeeds and returns the invitation with the answer as its
    status and respondedAt set to the time of the call; only that row of
    [invitations] changes.  The TTR is not consulted: a full roster does
    not matter and the roster is not touched. *)
Theorem RespondToInvitation_declines (db : DB) (now : Time) (id : UUID)
    (inv : Invitation.t) (status : string) :
  invitations db !! id = Some inv ->
  Invitation.Status inv = InvitationStatusPending ->
  status = InvitationStatusNo \/ status = InvitationStatusMaybe ->
  invitationRepository.check_row (Invitation.with_ID id inv) db = None ->
  let (r, db') :=
    InvitationService.RespondToInvitation now id (Invitation.InviteeUserID inv)
      status db in
  exists inv',
    r = Ok (Some inv') /\
    inv' = Invitation.mk id (Invitation.TTRID inv)
             (Invitation.InviterUserID inv) (Invitation.InviteeUserID inv)
             status (Invitation.Message inv) (Some now) /\
    db' = set_invitations (<[id := inv']> (invitations db)) db /\
    InvitationService.GetInvitation id db' = (Ok inv', db').
Proof.
  intros Hi Hp Hst Hrow.
  rewrite (Respond_decline_run db now id inv status Hi Hp Hst).
  rewrite invitation_check_row_answer;
    [|by destruct Hst as [-> | ->]|exact Hrow].
  eexists. split; [reflexivity|]. split; [reflexivity|]. split; [done|].
  unfold InvitationService.GetInvitation, invitationRepository.FindByID. mrun.
  by rewrite lookup_insert_eq.
Qed.

Lemma RespondToInvitation_declines_witness :
  fst (InvitationService.RespondToInvitation 200 5 12 InvitationStatusMaybe
         sample.store)
  = Ok (Some (Invitation.mk 5 2 10 12 InvitationStatusMaybe None (Some 200)))
  /\
  ttr_players
    (snd (InvitationService.RespondToInvitation 200 5 12 InvitationStatusMaybe
            sample.store)) = ttr_players sample.store.
Proof.
  pose proof (RespondToInvitation_declines sample.store 200 5%N
                (Invitation.mk 5 2 10 12 InvitationStatusPending None None)
                InvitationStatusMaybe) as H.
  simpl in H.
  destruct (InvitationService.RespondToInvitation 200 5 12
              InvitationStatusMaybe sample.store) as [r db'].
  destruct H as (inv' & -> & -> & -> & _).
  - vm_compute. reflexivity.
  - reflexivity.
  - by right.
  - vm_compute. reflexivity.
  - done.
Defined.

Lemma Respond_YES_run db now id inv ttr :
  invitations db !! id = Some inv ->
  Invitation.Status inv = InvitationStatusPending ->
  ttrRepository.find db (Invitation.TTRID inv) = Some ttr ->
  Z.of_nat (length (TTR.Players ttr)) < TTR.MaxPlayers ttr ->
  let invitee := Invitation.InviteeUserID inv in
  let inv' := Invitation.with_RespondedAt (Some now)
                (Invitation.with_Status InvitationStatusYes
                   (Invitation.with_ID id inv)) in
  InvitationService.RespondToInvitation now id invitee InvitationStatusYes db
  =
  if is_player ttr invitee
  then (Err (fmt_Errorf "failed to add player to TTR"
               (fmt_Errorf "failed to add player" ErrDuplicateKey)), db)
  else if negb (has_row invitee (users db))
  then (Err (fmt_Errorf "failed to add player to TTR"
               (fmt_Errorf "failed to add player" ErrForeignKey)), db)
  else
    let db1 := set_ttr_players
                 (<[(Invitation.TTRID inv, invitee)
                    := TTRPlayerStatusConfirmed]> (ttr_players db)) db in
    match invitationRepository.check_row inv' db with
    | Some e =>
        (Err (fmt_Errorf "failed to update invitation"
                (fmt_Errorf "failed to update invitation" e)), db1)
    | None =>
        (Ok (Some inv'),
         set_invitations (<[id := inv']> (invitations db)) db1)
    end.
Proof.
  intros Hi Hp Hf Hlt invitee inv'. subst invitee inv'.
  rewrite (is_player_has_row _ _ _ _ Hf).
  rewrite (find_Players _ _ _ Hf) in Hlt.
  unfold_respond. mrun. rewrite Hi. simpl. rewrite N.eqb_refl, Hp. simpl.
  rewrite Hf. simpl.
  replace (_ >=? _) with false
    by (symmetry; rewrite Z.geb_leb; apply Z.leb_gt; lia).
  simpl.
  destruct (has_row (Invitation.TTRID inv, Invitation.InviteeUserID inv)
              (ttr_players db)); simpl; [done|].
  rewrite (find_has_row _ _ _ Hf). simpl.
  destruct (has_row (Invitation.InviteeUserID inv) (users db)); simpl;
    [|done].
  change (invitationRepository.check_row ?i (set_ttr_players ?v db))
    with (invitationRepository.check_row i db).
  destruct (invitationRepository.check_row _ db); simpl; [done|].
  by rewrite lookup_insert_eq.
Qed.

(** X13.  Accepting (YES) a PENDING invitation, by its invitee, to an
    existing TTR with room, when the invitee is not yet on the roster and
    the stored row satisfies the constraints of the schema: the call
    succeeds, the invitee is added to the roster as CONFIRMED, the
    invitation is stored and returned with status YES and respondedAt the
    time of the call, and nothing else changes. *)
Theorem RespondToInvitation_accepts (db : DB) (now : Time) (id : UUID)
    (inv : Invitation.t) (ttr : TTR.t) :
  invitations db !! id = Some inv ->
  Invitation.Status inv = InvitationStatusPending ->
  ttrRepository.find db (Invitation.TTRID inv) = Some ttr ->
  Z.of_nat (length (TTR.Players ttr)) < TTR.MaxPlayers ttr ->
  is_player ttr (Invitation.InviteeUserID inv) = false ->
  invitationRepository.check_row (Invitation.with_ID id inv) db = None ->
  let (r, db') :=
    InvitationService.RespondToInvitation now id (Invitation.InviteeUserID inv)
      InvitationStatusYes db in
  exists inv',
    r = Ok (Some inv') /\
    inv' = Invitation.mk id (Invitation.TTRID inv)
             (Invitation.InviterUserID inv) (Invitation.InviteeUserID inv)
             InvitationStatusYes (Invitation.Message inv) (Some now) /\
    invitations db' = <[id := inv']> (invitations db) /\
    ttr_players db'
    = <[(Invitation.TTRID inv, Invitation.InviteeUserID inv)
        := TTRPlayerStatusConfirmed]> (ttr_players db) /\
    users db' = users db /\ ttrs db' = ttrs db /\
    ttr_co_captains db' = ttr_co_captains db.
Proof.
  intros Hi Hp Hf Hlt Hnp Hrow.
  rewrite (Respond_YES_run db now id inv ttr Hi Hp Hf Hlt), Hnp.
  destruct (invitation_check_row_users _ _ Hrow) as (_ & _ & Hu).
  simpl in Hu. rewrite Hu. cbn [negb].
  rewrite invitation_check_row_answer; [|reflexivity|exact Hrow].
  eexists. repeat split; reflexivity.
Qed.

Lemma RespondToInvitation_accepts_witness :
  fst (InvitationService.RespondToInvitation 200 6 12 InvitationStatusYes
         sample.store)
  = Ok (Some (Invitation.mk 6 1 10 12 InvitationStatusYes None (Some 200))) /\
  TTRService.GetPlayers 1
    (snd (InvitationService.RespondToInvitation 200 6 12 InvitationStatusYes
            sample.store))
  = (Ok [ TTRPlayer.mk 1 10 TTRPlayerStatusConfirmed;
          TTRPlayer.mk 1 12 TTRPlayerStatusConfirmed ],
     snd (InvitationService.RespondToInvitation 200 6 12 InvitationStatusYes
            sample.store)).
Proof.
  pose proof (RespondToInvitation_accepts sample.store 200 6%N
                (Invitation.mk 6 1 10 12 InvitationStatusPending None None)
                (TTR.mk 1 "Pebble Beach" None 20250 600 2 10%N 10%N
                   TTRStatusOpen None None [TTRCoCaptain.mk 1 11]
                   [TTRPlayer.mk 1 10 TTRPlayerStatusConfirmed])) as H.
  simpl in H.
  destruct (InvitationService.RespondToInvitation 200 6 12
              InvitationStatusYes sample.store) as [r db'] eqn:E.
  destruct H as (inv' & -> & -> & _); [vm_compute; reflexivity..|].
  split; [done|]. vm_compute in E. injection E as <-. vm_compute.
  reflexivity.
Defined.

(** X14.  RespondToInvitation has no check that the invitee is already on
    the roster.  Accepting (YES) a PENDING invitation when the invitee has
    joined in the meantime is rejected by the primary key of
    [ttr_players]: the call fails as an internal error, nothing is
    written and the invitation stays PENDING. *)
Theorem RespondToInvitation_already_player (db : DB) (now : Time) (id : UUID)
    (inv : Invitation.t) (ttr : TTR.t) :
  invitations db !! id = Some inv ->
  Invitation.Status inv = InvitationStatusPending ->
  ttrRepository.find db (Invitation.TTRID inv) = Some ttr ->
  Z.of_nat (length (TTR.Players ttr)) < TTR.MaxPlayers ttr ->
  is_player ttr (Invitation.InviteeUserID inv) = true ->
  let (r, db') :=
    InvitationService.RespondToInvitation now id (Invitation.InviteeUserID inv)
      InvitationStatusYes db in
  fails_with Internal r /\ db' = db.
Proof.
  intros Hi Hp Hf Hlt Hpl.
  rewrite (Respond_YES_run db now id inv ttr Hi Hp Hf Hlt), Hpl.
  split; [eexists; split; reflexivity|done].
Qed.

Lemma RespondToInvitation_already_player_witness :
  let db1 :=
    snd ((TTRService.CreateTTR 1 10 "Pebble Beach" None 20250 600 4 None ;;;
          InvitationService.CreateInvitation 5 1 10 12 None ;;;
          TTRService.JoinTTR 1 12) sample.users_only) in
  fails_with Internal
    (fst (InvitationService.RespondToInvitation 200 5 12 InvitationStatusYes
            db1)) /\
  Invitation.Status <$>
    invitations
      (snd (InvitationService.RespondToInvitation 200 5 12 InvitationStatusYes
              db1)) !! 5%N = Some InvitationStatusPending.
Proof.
  intros db1.
  destruct (ttrRepository.find db1 1) as [ttr|] eqn:Hf;
    [|vm_compute in Hf; discriminate].
  pose proof (RespondToInvitation_already_player db1 200 5%N
                (Invitation.mk 5 1 10 12 InvitationStatusPending None None)
                ttr) as H.
  simpl in H.
  destruct (InvitationService.RespondToInvitation 200 5 12
              InvitationStatusYes db1) as [r db'].
  destruct H as [H ->].
  - vm_compute. reflexivity.
  - reflexivity.
  - exact Hf.
  - vm_compute in Hf. injection Hf as <-. vm_compute. reflexivity.
  - vm_compute in Hf. injection Hf as <-. vm_compute. reflexivity.
  - split; [exact H|]. vm_compute. reflexivity.
Defined.

Lemma valid_answer_cases status :
  one_of status InvitationService.validStatuses = true ->
  status = InvitationStatusYes \/ status = InvitationStatusNo \/
  status = InvitationStatusMaybe.
Proof.
  unfold one_of. simpl. rewrite !orb_true_iff, !String.eqb_eq.
  intros [->|[->|[->|[=]]]]; auto.
Qed.

(** X15.  RespondToInvitation runs two writes without a transaction (the
    roster insert, then the invitation update), yet it is all or nothing
    whenever the stored invitation satisfies the constraints of the
    schema: a call that does not succeed leaves the store as it was. *)
Theorem RespondToInvitation_all_or_nothing (db : DB) (now : Time)
    (id actor : UUID) (status : string) :
  (forall inv, invitations db !! id = Some inv ->
               invitationRepository.check_row (Invitation.with_ID id inv) db
               = None) ->
  let (r, db') :=
    InvitationService.RespondToInvitation now id actor status db in
  ~ succeeds r -> db' = db.
Proof.
  intros Hrow. rewrite Respond_checks_run.
  destruct (one_of status InvitationService.validStatuses) eqn:Hv;
    cbn [negb]; [|done].
  destruct (invitations db !! id) as [inv|] eqn:Hi; [|done].
  specialize (Hrow inv eq_refl).
  destruct (N.eqb_spec (Invitation.InviteeUserID inv) actor) as [<-|Hne];
    cbn [negb]; [|done].
  destruct (String.eqb_spec (Invitation.Status inv) InvitationStatusPending)
    as [Hp|Hnp]; cbn [negb]; [|done].
  destruct (valid_answer_cases _ Hv) as [->|Hst].
  - destruct (ttrRepository.find db (Invitation.TTRID inv)) as [ttr|] eqn:Hf.
    2:{ by rewrite (Respond_YES_missing_TTR _ _ _ _ Hi Hp Hf). }
    destruct (Z_lt_dec (Z.of_nat (length (TTR.Players ttr)))
                (TTR.MaxPlayers ttr)) as [Hlt|Hge].
    2:{ rewrite (Respond_YES_full db now id _ inv ttr Hi Hp eq_refl Hf);
          [done|unfold at_capacity; lia]. }
    rewrite (Respond_YES_run db now id inv ttr Hi Hp Hf Hlt).
    destruct (is_player ttr (Invitation.InviteeUserID inv)); [done|].
    destruct (invitation_check_row_users _ _ Hrow) as (_ & _ & Hu).
    simpl in Hu. rewrite Hu. cbn [negb].
    rewrite invitation_check_row_answer; [|reflexivity|exact Hrow].
    intros Hns. destruct Hns. by eexists.
  - rewrite (Respond_decline_run db now id inv status Hi Hp Hst).
    rewrite invitation_check_row_answer;
      [|by destruct Hst as [-> | ->]|exact Hrow].
    intros Hns. destruct Hns. by eexists.
Qed.

Lemma RespondToInvitation_all_or_nothing_witness :
  ~ succeeds
      (fst (InvitationService.RespondToInvitation 200 5 12 InvitationStatusYes
              sample.store)) /\
  snd (InvitationService.RespondToInvitation 200 5 12 InvitationStatusYes
         sample.store) = sample.store.
Proof.
  pose proof (RespondToInvitation_all_or_nothing sample.store 200 5%N 12%N
                InvitationStatusYes) as H.
  destruct (InvitationService.RespondToInvitation 200 5 12
              InvitationStatusYes sample.store) as [r db'] eqn:E.
  assert (Hns : ~ succeeds r).
  { vm_compute in E. injection E as <- _. apply Err_not_succeeds. }
  split; [exact Hns|]. simpl. apply H; [|exact Hns].
  intros inv Hi. vm_compute in Hi. injection Hi as <-. vm_compute.
  reflexivity.
Defined.

(** ** Canceling an invitation *)

Lemma Cancel_run db id actor :
  InvitationService.CancelInvitation id actor db =
  match invitations db !! id with
  | None => (Err (errors_New "invitation not found"), db)
  | Some inv =>
      if negb (Invitation.InviterUserID inv =? actor)%N
      then (Err (errors_New
                   "unauthorized: only the inviter can cancel the invitation"),
            db)
      else if negb (String.eqb (Invitation.Status inv)
                               InvitationStatusPending)
      then (Err (errors_New "only pending invitations can be canceled"), db)
      else
        let inv' := Invitation.with_Status InvitationStatusCanceled
                      (Invitation.with_ID id inv) in
        match invitationRepository.check_row inv' db with
        | Some e =>
            (Err (fmt_Errorf "failed to cancel invitation"
                    (fmt_Errorf "failed to update invitation" e)), db)
        | None =>
            (Ok tt, set_invitations (<[id := inv']> (invitations db)) db)
        end
  end.
Proof.
  unfold InvitationService.CancelInvitation, invitationRepository.FindByID,
    invitationRepository.Update. mrun.
  destruct (invitations db !! id) as [inv|]; simpl; [|done].
  destruct (negb _); simpl; [done|].
  destruct (negb _); simpl; [done|].
  by destruct (invitationRepository.check_row _ db).
Qed.

Lemma invitation_check_row_status inv status db :
  varchar 50 status = true ->
  invitationRepository.check_row inv db = None ->
  invitationRepository.check_row (Invitation.with_Status status inv) db
  = None.
Proof.
  unfold invitationRepository.check_row. simpl. intros ->.
  by destruct (negb (varchar 50 (Invitation.Status inv))).
Qed.

(** X16.  CancelInvitation fails with NotFound when the invitation does not
    exist and with Unauthorized for anyone but the user who sent it (the
    captain included, when a co-captain sent it), writing nothing.  By the
    inviter, on a PENDING invitation whose stored row satisfies the
    constraints, it succeeds: the status becomes CANCELED, respondedAt and
    every other column stay, and no other row or table changes. *)
Theorem CancelInvitation_by_inviter (db : DB) (id actor : UUID) :
  let (r, db') := InvitationService.CancelInvitation id actor db in
  (invitations db !! id = None -> fails_with NotFound r /\ db' = db) /\
  (forall inv,
      invitations db !! id = Some inv ->
      (Invitation.InviterUserID inv <> actor ->
       fails_with Unauthorized r /\ db' = db) /\
      (Invitation.InviterUserID inv = actor ->
       Invitation.Status inv = InvitationStatusPending ->
       invitationRepository.check_row (Invitation.with_ID id inv) db = None ->
       r = Ok tt /\
       db' = set_invitations
               (<[id := Invitation.mk id (Invitation.TTRID inv)
                          (Invitation.InviterUserID inv)
                          (Invitation.InviteeUserID inv)
                          InvitationStatusCanceled (Invitation.Message inv)
                          (Invitation.RespondedAt inv)]> (invitations db))
               db)).
Proof.
  rewrite Cancel_run.
  destruct (invitations db !! id) as [inv|].
  2:{ split; [|done]. intros _.
      split; [eexists; split; reflexivity|done]. }
  destruct (N.eqb_spec (Invitation.InviterUserID inv) actor) as [He|Hne];
    cbn [negb].
  2:{ split; [done|]. intros inv' [= <-]. split; [|done]. intros _.
      split; [eexists; split; reflexivity|done]. }
  destruct (String.eqb_spec (Invitation.Status inv) InvitationStatusPending)
    as [Hp|Hnp]; cbn [negb].
  2:{ split; [done|]. intros inv' [= <-]. split; [done|]. by intros _ Hp. }
  cbv zeta.
  destruct (invitationRepository.check_row _ db) as [e|] eqn:Hchk.
  - split; [done|]. intros inv' [= <-]. split; [done|]. intros _ _ Hrow.
    rewrite invitation_check_row_status in Hchk; done.
  - split; [done|]. intros inv' [= <-]. split; [done|]. by intros _ _ _.
Qed.

Lemma CancelInvitation_by_inviter_witness :
  fails_with NotFound
    (fst (InvitationService.CancelInvitation 99 10 sample.store)) /\
  fails_with Unauthorized
    (fst (InvitationService.CancelInvitation 6 11 sample.store)) /\
  fst (InvitationService.CancelInvitation 6 10 sample.store) = Ok tt /\
  Invitation.Status <$>
    invitations (snd (InvitationService.CancelInvitation 6 10 sample.store))
      !! 6%N = Some InvitationStatusCanceled.
Proof.
  pose proof (CancelInvitation_by_inviter sample.store 99%N 10%N) as H1.
  pose proof (CancelInvitation_by_inviter sample.store 6%N 11%N) as H2.
  pose proof (CancelInvitation_by_inviter sample.store 6%N 10%N) as H3.
  destruct (InvitationService.CancelInvitation 99 10 sample.store)
    as [r1 db1].
  destruct (InvitationService.CancelInvitation 6 11 sample.store) as [r2 db2].
  destruct (InvitationService.CancelInvitation 6 10 sample.store) as [r3 db3].
  destruct H1 as [[H1 _] _]; [vm_compute; reflexivity|].
  destruct H2 as [_ H2]. destruct H3 as [_ H3].
  specialize (H2 (Invitation.mk 6 1 10 12 InvitationStatusPending None None)).
  specialize (H3 (Invitation.mk 6 1 10 12 InvitationStatusPending None None)).
  destruct H2 as [[H2 _] _]; [vm_compute; reflexivity|discriminate|].
  destruct H3 as [_ [-> ->]];
    [vm_compute; reflexivity|reflexivity|reflexivity|vm_compute; reflexivity|].
  simpl. rewrite lookup_insert_eq. done.
Defined.

(** ** Creating invitations: what the store adds to the six checks *)

Lemma invitation_Create_new_run gen ttrID inviter invitee message db :
  invitationRepository.Create gen
    (new_invitation 0 ttrID inviter invitee message) db =
  let inv := new_invitation gen ttrID inviter invitee message in
  if has_row gen (invitations db)
  then (Err (fmt_Errorf "failed to create invitation" ErrDuplicateKey), db)
  else if negb (has_row ttrID (ttrs db) && has_row inviter (users db)
                && has_row invitee (users db))
  then (Err (fmt_Errorf "failed to create invitation" ErrForeignKey), db)
  else if negb (is_nil (invitations_for ttrID invitee
                          (delete gen (invitations db))))
  then (Err (fmt_Errorf "failed to create invitation" ErrDuplicateKey), db)
  else (Ok inv, set_invitations (<[gen := inv]> (invitations db)) db).
Proof.
  unfold invitationRepository.Create, invitationRepository.check_row. mrun.
  destruct (has_row gen (invitations db)); simpl; [done|].
  destruct (negb _); simpl; [done|].
  by destruct (negb _).
Qed.

Lemma CreateInvitation_past_five db gen ttrID inviter invitee message ttr :
  ttrRepository.find db ttrID = Some ttr ->
  inviter = TTR.CaptainUserID ttr \/ is_co_captain ttr inviter = true ->
  is_Some (userRepository.find db invitee) ->
  Z.of_nat (length (TTR.Players ttr)) < TTR.MaxPlayers ttr ->
  is_player ttr invitee = false ->
  InvitationService.CreateInvitation gen ttrID inviter invitee message db =
  if match (fun kv : N * Invitation.t => Invitation.with_ID kv.1 kv.2)
             <$> first_by_key
                   (invitations_for ttrID invitee (invitations db)) with
     | Some existing =>
         String.eqb (Invitation.Status existing) InvitationStatusPending
     | None => false
     end
  then (Err (errors_New "pending invitation already exists for this user"),
        db)
  else
    match invitationRepository.Create gen
            (new_invitation 0 ttrID inviter invitee message) db with
    | (Ok inv, db1) =>
        (Ok (Invitation.with_ID (Invitation.ID inv)
               <$> invitations db1 !! Invitation.ID inv), db1)
    | (Err e, db1) => (Err (fmt_Errorf "failed to create invitation" e), db1)
    end.
Proof.
  intros Hf Hauth [u Hu] Hlt Hnp.
  rewrite CreateInvitation_cases, Hf.
  rewrite (is_co_captain_decide _ _ _ _ Hf) in Hauth.
  rewrite (is_player_has_row _ _ _ _ Hf) in Hnp.
  rewrite (find_Players _ _ _ Hf) in Hlt.
  replace (negb (TTR.CaptainUserID ttr =? inviter)%N
           && negb (bool_decide ((ttrID, inviter) ∈ ttr_co_captains db)))
    with false.
  2:{ symmetry. rewrite <- negb_orb. apply negb_false_iff, orb_true_iff.
      destruct Hauth as [->|Hcc]; [left; apply N.eqb_refl|by right]. }
  rewrite Hu, Hnp.
  replace (Z.of_nat (length (players_of db ttrID)) >=? TTR.MaxPlayers ttr)
    with false by (symmetry; rewrite Z.geb_leb; apply Z.leb_gt; lia).
  done.
Qed.

(** X17.  Once an invitation has left PENDING (answered or canceled), its
    invitee cannot be invited to that TTR again: with the five earlier
    preconditions satisfied the duplicate check passes, since the existing
    invitation is not PENDING, and the UNIQUE (ttr_id, invitee_user_id)
    index (or another constraint) then rejects the insert.  The call fails
    as an internal error and writes nothing. *)
Theorem answered_invitee_not_reinvited (db : DB) (id : UUID)
    (inv : Invitation.t) (ttr : TTR.t) :
  store_consistent db ->
  invitations db !! id = Some inv ->
  Invitation.Status inv <> InvitationStatusPending ->
  ttrRepository.find db (Invitation.TTRID inv) = Some ttr ->
  is_Some (userRepository.find db (Invitation.InviteeUserID inv)) ->
  Z.of_nat (length (TTR.Players ttr)) < TTR.MaxPlayers ttr ->
  is_player ttr (Invitation.InviteeUserID inv) = false ->
  forall gen inviter message,
    inviter = TTR.CaptainUserID ttr \/ is_co_captain ttr inviter = true ->
    CreateInvitation_first_failure db (Invitation.TTRID inv) inviter
      (Invitation.InviteeUserID inv) = None /\
    fails_with Internal
      (fst (InvitationService.CreateInvitation gen (Invitation.TTRID inv)
              inviter (Invitation.InviteeUserID inv) message db)) /\
    snd (InvitationService.CreateInvitation gen (Invitation.TTRID inv)
           inviter (Invitation.InviteeUserID inv) message db) = db.
Proof.
  intros Hc Hi Hst Hf Hu Hlt Hnp gen inviter message Hauth.
  assert (Hin : (id, inv) ∈ invitations_for (Invitation.TTRID inv)
                  (Invitation.InviteeUserID inv) (invitations db))
    by (by apply invitations_for_spec).
  assert (Hlist : invitations_for (Invitation.TTRID inv)
                    (Invitation.InviteeUserID inv) (invitations db)
                  = [(id, inv)]).
  { destruct (invitations_for_at_most_one db (Invitation.TTRID inv)
                (Invitation.InviteeUserID inv) Hc) as [E|(i & a & E)];
      rewrite E in Hin.
    - by apply elem_of_nil in Hin.
    - apply list_elem_of_singleton in Hin. by rewrite Hin. }
  assert (Hnotp : String.eqb (Invitation.Status inv) InvitationStatusPending
                  = false) by (by apply String.eqb_neq).
  split.
  { unfold CreateInvitation_first_failure. rewrite Hf.
    replace ((TTR.CaptainUserID ttr =? inviter)%N
             || is_co_captain ttr inviter) with true.
    2:{ symmetry. apply orb_true_iff.
        destruct Hauth as [->|Hcc]; [left; apply N.eqb_refl|by right]. }
    cbn [negb]. rewrite (bool_decide_eq_true_2 _ Hu). cbn [negb].
    replace (_ <? _) with true by (symmetry; by apply Z.ltb_lt).
    cbn [negb]. rewrite Hnp. unfold has_pending_invitation.
    rewrite Hlist. simpl. by rewrite Hnotp. }
  rewrite (CreateInvitation_past_five db gen _ inviter _ message ttr
             Hf Hauth Hu Hlt Hnp).
  rewrite Hlist. simpl. rewrite Hnotp.
  rewrite invitation_Create_new_run. cbv zeta.
  destruct (has_row gen (invitations db)) eqn:Hgen.
  { simpl. split; [eexists; split; reflexivity|done]. }
  destruct (negb (_ && _ && _)).
  { simpl. split; [eexists; split; reflexivity|done]. }
  assert (Hnn : is_nil (invitations_for (Invitation.TTRID inv)
                          (Invitation.InviteeUserID inv)
                          (delete gen (invitations db))) = false).
  { destruct (is_nil _) eqn:E; [|done]. apply is_nil_true in E.
    assert (Hin' : (id, inv) ∈ invitations_for (Invitation.TTRID inv)
                     (Invitation.InviteeUserID inv)
                     (delete gen (invitations db))).
    { apply invitations_for_spec. split; [|done].
      rewrite lookup_delete_ne; [done|]. intros <-.
      apply has_row_false in Hgen. congruence. }
    rewrite E in Hin'. by apply elem_of_nil in Hin'. }
  rewrite Hnn. simpl. split; [eexists; split; reflexivity|done].
Qed.

Lemma answered_invitee_not_reinvited_witness :
  fails_with Internal
    (fst (InvitationService.CreateInvitation 8 1 10 13 None sample.store)) /\
  snd (InvitationService.CreateInvitation 8 1 10 13 None sample.store)
  = sample.store.
Proof.
  assert (Hc : store_consistent sample.store).
  { apply store_consistentb_sound. vm_compute. reflexivity. }
  destruct (ttrRepository.find sample.store 1) as [ttr|] eqn:Hf;
    [|vm_compute in Hf; discriminate].
  assert (Httr : ttr = TTR.mk 1 "Pebble Beach" None 20250 600 2 10%N 10%N
                         TTRStatusOpen None None [TTRCoCaptain.mk 1 11]
                         [TTRPlayer.mk 1 10 TTRPlayerStatusConfirmed]).
  { vm_compute in Hf. by injection Hf as <-. }
  pose proof (answered_invitee_not_reinvited sample.store 7%N
                (Invitation.mk 7 1 11 13 InvitationStatusNo None (Some 100))
                ttr Hc) as H.
  simpl in H. subst ttr.
  apply (H eq_refl); try done. by left.
Defined.

Lemma CreateInvitation_pending_run db gen ttrID inviter invitee message ttr :
  store_consistent db ->
  pending_invitation db ttrID invitee ->
  ttrRepository.find db ttrID = Some ttr ->
  inviter = TTR.CaptainUserID ttr \/ is_co_captain ttr inviter = true ->
  is_Some (userRepository.find db invitee) ->
  Z.of_nat (length (TTR.Players ttr)) < TTR.MaxPlayers ttr ->
  is_player ttr invitee = false ->
  InvitationService.CreateInvitation gen ttrID inviter invitee message db
  = (Err (errors_New "pending invitation already exists for this user"), db).
Proof.
  intros Hc Hpend Hf Hauth Hu Hlt Hnp.
  rewrite (CreateInvitation_past_five db gen _ inviter _ message ttr
             Hf Hauth Hu Hlt Hnp).
  rewrite (pending_check_agrees db ttrID invitee Hc).
  apply has_pending_invitation_spec in Hpend. by rewrite Hpend.
Qed.

Lemma find_set_invitations db v id :
  ttrRepository.find (set_invitations v db) id = ttrRepository.find db id.
Proof. reflexivity. Qed.

(** X18.  When the five earlier preconditions hold, no invitation of any
    status exists for the (TTR, invitee) pair, the generated id is unused
    and the inviter has a row in [users], CreateInvitation succeeds: it
    stores and returns a PENDING invitation with no respondedAt, and
    GetInvitation returns it.  From then on a further CreateInvitation
    for the same pair fails with AlreadyExists and writes nothing, whoever
    the authorized inviter. *)
Theorem CreateInvitation_creates (db : DB) (gen ttrID inviter invitee : UUID)
    (message : option string) (ttr : TTR.t) :
  store_consistent db ->
  ttrRepository.find db ttrID = Some ttr ->
  inviter = TTR.CaptainUserID ttr \/ is_co_captain ttr inviter = true ->
  is_Some (userRepository.find db invitee) ->
  is_Some (users db !! inviter) ->
  Z.of_nat (length (TTR.Players ttr)) < TTR.MaxPlayers ttr ->
  is_player ttr invitee = false ->
  invitations_for ttrID invitee (invitations db) = [] ->
  invitations db !! gen = None ->
  let (r, db') :=
    InvitationService.CreateInvitation gen ttrID inviter invitee message db in
  let inv := Invitation.mk gen ttrID inviter invitee InvitationStatusPending
               message None in
  r = Ok (Some inv) /\
  db' = set_invitations (<[gen := inv]> (invitations db)) db /\
  InvitationService.GetInvitation gen db' = (Ok inv, db') /\
  (forall gen' inviter' message',
      inviter' = TTR.CaptainUserID ttr \/ is_co_captain ttr inviter' = true ->
      InvitationService.CreateInvitation gen' ttrID inviter' invitee message'
        db'
      = (Err (errors_New "pending invitation already exists for this user"),
         db')).
Proof.
  intros Hc Hf Hauth Hu Ha Hlt Hnp Hnone Hgen.
  pose proof (invitation_Create_keeps gen
                (new_invitation 0 ttrID inviter invitee message) db Hc) as Hc'.
  rewrite (CreateInvitation_past_five db gen _ inviter _ message ttr
             Hf Hauth Hu Hlt Hnp).
  rewrite Hnone. simpl.
  rewrite invitation_Create_new_run in Hc' |- *. cbv zeta in *.
  rewrite (proj2 (has_row_false _ _) Hgen) in Hc' |- *.
  rewrite (find_has_row _ _ _ Hf), (proj2 (has_row_true _ _) Ha),
    (user_find_has_row _ _ Hu) in Hc' |- *.
  rewrite (delete_id _ _ Hgen), Hnone in Hc' |- *. simpl in Hc' |- *.
  rewrite lookup_insert_eq. simpl.
  split; [done|]. split; [done|]. split.
  - unfold InvitationService.GetInvitation, invitationRepository.FindByID.
    mrun. by rewrite lookup_insert_eq.
  - intros gen' inviter' message' Hauth'.
    apply (CreateInvitation_pending_run _ _ _ _ _ _ ttr); try done.
    exists gen, (new_invitation gen ttrID inviter invitee message).
    simpl. by rewrite lookup_insert_eq.
Qed.

Lemma CreateInvitation_creates_witness :
  fst (InvitationService.CreateInvitation 8 1 11 11 (Some "hi") sample.store)
  = Ok (Some (Invitation.mk 8 1 11 11 InvitationStatusPending (Some "hi")
                None)) /\
  fails_with AlreadyExists
    (fst (InvitationService.CreateInvitation 9 1 10 11 None
            (snd (InvitationService.CreateInvitation 8 1 11 11 (Some "hi")
                    sample.store)))).
Proof.
  assert (Hc : store_consistent sample.store).
  { apply store_consistentb_sound. vm_compute. reflexivity. }
  destruct (ttrRepository.find sample.store 1) as [ttr|] eqn:Hf;
    [|vm_compute in Hf; discriminate].
  assert (Httr : ttr = TTR.mk 1 "Pebble Beach" None 20250 600 2 10%N 10%N
                         TTRStatusOpen None None [TTRCoCaptain.mk 1 11]
                         [TTRPlayer.mk 1 10 TTRPlayerStatusConfirmed]).
  { vm_compute in Hf. by injection Hf as <-. }
  pose proof (CreateInvitation_creates sample.store 8%N 1%N 11%N 11%N
                (Some "hi") ttr Hc Hf) as H.
  destruct (InvitationService.CreateInvitation 8 1 11 11 (Some "hi")
              sample.store) as [r db'].
  subst ttr. destruct H as (-> & _ & _ & H).
  - right. vm_compute. reflexivity.
  - vm_compute. eauto.
  - vm_compute. eauto.
  - vm_compute. reflexivity.
  - vm_compute. reflexivity.
  - vm_compute. reflexivity.
  - vm_compute. reflexivity.
  - split; [done|]. simpl. rewrite (H 9%N 10%N None); [|by left].
    eexists; split; reflexivity.
Defined.

(** X19.  An invitation that CreateInvitation has just created can be
    accepted: for every successful CreateInvitation, RespondToInvitation
    with YES by the invitee on the resulting store succeeds, returns the
    invitation with status YES, and the invitee is on the roster of the
    TTR as CONFIRMED. *)
Theorem invite_then_accept (db db1 : DB) (gen ttrID inviter invitee : UUID)
    (message : option string) (inv : Invitation.t) (now : Time) :
  InvitationService.CreateInvitation gen ttrID inviter invitee message db
  = (Ok (Some inv), db1) ->
  let (r, db2) :=
    InvitationService.RespondToInvitation now (Invitation.ID inv) invitee
      InvitationStatusYes db1 in
  r = Ok (Some (Invitation.mk (Invitation.ID inv) ttrID inviter invitee
                  InvitationStatusYes message (Some now))) /\
  ttr_players db2
  = <[(ttrID, invitee) := TTRPlayerStatusConfirmed]> (ttr_players db) /\
  ttr_players db !! (ttrID, invitee) = None.
Proof.
  rewrite CreateInvitation_cases.
  destruct (ttrRepository.find db ttrID) as [ttr|] eqn:Hf; [|done].
  destruct (negb _ && negb _); [done|].
  destruct (userRepository.find db invitee); [|done].
  destruct (Z.geb_spec (Z.of_nat (length (players_of db ttrID)))
              (TTR.MaxPlayers ttr)) as [|Hlt]; [done|].
  destruct (has_row (ttrID, invitee) (ttr_players db)) eqn:Hnp; [done|].
  destruct (match _ <$> first_by_key _ with Some _ => _ | None => _ end);
    [done|].
  rewrite invitation_Create_new_run. cbv zeta.
  destruct (has_row gen (invitations db)) eqn:Hgen; [done|].
  destruct (has_row ttrID (ttrs db) && has_row inviter (users db)
            && has_row invitee (users db)) eqn:Hfk; [|done].
  destruct (is_nil _) eqn:Hnil; [|done].
  simpl. rewrite lookup_insert_eq. simpl. intros [= <- <-]. simpl.
  set (new := new_invitation gen ttrID inviter invitee message).
  set (db1 := set_invitations (<[gen := new]> (invitations db)) db).
  assert (Hi : invitations db1 !! gen = Some new)
    by (simpl; by rewrite lookup_insert_eq).
  assert (Hf1 : ttrRepository.find db1 (Invitation.TTRID new) = Some ttr)
    by exact Hf.
  assert (Hlt1 : Z.of_nat (length (TTR.Players ttr)) < TTR.MaxPlayers ttr)
    by (by rewrite (find_Players _ _ _ Hf)).
  pose proof (Respond_YES_run db1 now gen new ttr Hi eq_refl Hf1 Hlt1) as Hrun.
  simpl in Hrun. rewrite Hrun.
  rewrite (is_player_has_row _ _ _ _ Hf), Hnp.
  apply andb_true_iff in Hfk as [Hfk Hu]. rewrite Hu. cbn [negb].
  unfold invitationRepository.check_row. simpl.
  rewrite Hfk, Hu, delete_insert_eq, Hnil. simpl.
  split; [done|]. split; [done|]. by apply has_row_false.
Qed.

Lemma invite_then_accept_witness :
  fst (InvitationService.RespondToInvitation 200 8 11 InvitationStatusYes
         (snd (InvitationService.CreateInvitation 8 1 10 11 None
                 sample.store)))
  = Ok (Some (Invitation.mk 8 1 10 11 InvitationStatusYes None (Some 200))).
Proof.
  destruct (InvitationService.CreateInvitation 8 1 10 11 None sample.store)
    as [r db1] eqn:E.
  assert (Hr : r = Ok (Some (new_invitation 8 1 10 11 None))).
  { vm_compute in E. by injection E as <- _. }
  subst r.
  pose proof (invite_then_accept sample.store db1 8%N 1%N 10%N 11%N None _ 200
                E) as H.
  simpl in H |- *.
  destruct (InvitationService.RespondToInvitation 200 8 11
              InvitationStatusYes db1) as [r2 db2].
  by destruct H as [-> _].
Defined.

(** ** Updating a TTR: who may, and what is not rechecked *)

Lemma check_row_MaxPlayers ttr db v :
  ttrRepository.check_row ttr db = None ->
  int4 v = true ->
  ttrRepository.check_row (TTR.with_MaxPlayers v ttr) db = None.
Proof.
  unfold ttrRepository.check_row. simpl. intros Hrow ->.
  destruct (negb (varchar 255 (TTR.CourseName ttr) && _ && _)); [done|].
  destruct (negb (int4 (TTR.MaxPlayers ttr))); [done|].
  by cbn [negb].
Qed.

(** X20.  On an existing TTR, UpdateTTR by a user who is neither its
    captain nor one of its co-captains fails with Unauthorized and leaves
    the store as it was, whatever fields the call supplies: the
    permission check comes before the check of maxPlayers. *)
Theorem UpdateTTR_unauthorized (db : DB) (ttrID actor : UUID) (ttr : TTR.t)
    (courseName courseLocation : option string)
    (teeDate teeTime : option Time) (maxPlayers : option Z)
    (status notes : option string) :
  ttrRepository.find db ttrID = Some ttr ->
  actor <> TTR.CaptainUserID ttr ->
  is_co_captain ttr actor = false ->
  let (r, db') :=
    TTRService.UpdateTTR ttrID actor courseName courseLocation teeDate
      teeTime maxPlayers status notes db in
  fails_with Unauthorized r /\ db' = db.
Proof.
  intros Hf Hne Hcc. unfold TTRService.UpdateTTR.
  unfold bind at 1, wrapped at 1.
  rewrite (canManageTTR_run _ _ _ _ Hf), Hcc.
  replace (TTR.CaptainUserID ttr =? actor)%N with false
    by (symmetry; apply N.eqb_neq; congruence).
  simpl. split; [|done]. eexists. split; reflexivity.
Qed.

Lemma UpdateTTR_unauthorized_witness :
  fails_with Unauthorized
    (fst (TTRService.UpdateTTR 1 12 None None None None (Some 0) None None
            sample.store)) /\
  snd (TTRService.UpdateTTR 1 12 None None None None (Some 0) None None
         sample.store) = sample.store.
Proof.
  destruct (ttrRepository.find sample.store 1) as [ttr|] eqn:Hf;
    [|vm_compute in Hf; discriminate].
  pose proof (UpdateTTR_unauthorized sample.store 1%N 12%N ttr None None None
                None (Some 0) None None Hf) as H.
  destruct (TTRService.UpdateTTR 1 12 None None None None (Some 0) None None
              sample.store) as [r db'].
  vm_compute in Hf. injection Hf as <-.
  apply H; [intros [=]|reflexivity].
Defined.

(** X21.  UpdateTTR does not compare a new maxPlayers with the roster: a
    captain or co-captain who supplies any maxPlayers from 1 to 2^31-1
    for a TTR whose stored row the schema accepts succeeds, the row takes
    that maxPlayers and nothing else in the store changes.  So a
    maxPlayers below the size of the roster leaves the TTR over its
    capacity, and the store no longer has every roster within its
    capacity. *)
Theorem UpdateTTR_capacity_not_rechecked (db : DB) (ttrID actor : UUID)
    (ttr : TTR.t) (v : Z) :
  ttrRepository.find db ttrID = Some ttr ->
  actor = TTR.CaptainUserID ttr \/ is_co_captain ttr actor = true ->
  ttrRepository.check_row ttr db = None ->
  0 < v <= 2147483647 ->
  let (r, db') :=
    TTRService.UpdateTTR ttrID actor None None None None (Some v) None None
      db in
  r = Ok (Some (TTR.with_MaxPlayers v ttr)) /\
  ttrRepository.find db' ttrID = Some (TTR.with_MaxPlayers v ttr) /\
  (forall id, id <> ttrID -> ttrs db' !! id = ttrs db !! id) /\
  users db' = users db /\ ttr_players db' = ttr_players db /\
  ttr_co_captains db' = ttr_co_captains db /\
  invitations db' = invitations db /\
  (v < Z.of_nat (length (TTR.Players ttr)) ->
   ~ within_capacity (TTR.with_MaxPlayers v ttr) /\
   ~ capacity_invariant db').
Proof.
  intros Hf Hauth Hrow [Hpos Hmax].
  assert (Hint : int4 v = true).
  { unfold int4. apply andb_true_iff. split; apply Z.leb_le; lia. }
  rewrite (UpdateTTR_cases _ _ _ _ _ _ _ _ _ _ _ Hf Hauth).
  destruct (Z.leb_spec v 0) as [|_]; [lia|].
  change (updated_fields None None None None (Some v) None None ttr)
    with (TTR.with_MaxPlayers v ttr).
  cbv zeta. rewrite (check_row_MaxPlayers _ _ _ Hrow Hint).
  assert (Hfind : ttrRepository.find
                    (set_ttrs (<[ttrID := ttrRepository.columns
                                           (TTR.with_MaxPlayers v ttr)]>
                                 (ttrs db)) db) ttrID
                  = Some (TTR.with_MaxPlayers v ttr))
    by (by apply (find_after_Update db ttrID ttr)).
  split; [done|]. split; [exact Hfind|].
  split; [intros id Hne; simpl; by rewrite lookup_insert_ne|].
  repeat (split; [done|]).
  intros Hlt.
  assert (Hover : ~ within_capacity (TTR.with_MaxPlayers v ttr)).
  { unfold within_capacity. simpl. lia. }
  split; [exact Hover|]. intros Hinv. exact (Hover (Hinv _ _ Hfind)).
Qed.

Lemma UpdateTTR_capacity_not_rechecked_witness :
  let db := snd (TTRService.JoinTTR 1 11 sample.store) in
  capacity_invariant db /\
  length (players_of db 1) = 2%nat /\
  (exists ttr',
     fst (TTRService.UpdateTTR 1 11 None None None None (Some 1) None None db)
     = Ok (Some ttr') /\
     TTR.MaxPlayers ttr' = 1 /\ length (TTR.Players ttr') = 2%nat) /\
  ~ capacity_invariant
      (snd (TTRService.UpdateTTR 1 11 None None None None (Some 1) None None
              db)).
Proof.
  intros db.
  split; [apply capacity_invariantb_sound; vm_compute; reflexivity|].
  split; [vm_compute; reflexivity|].
  destruct (ttrRepository.find db 1) as [ttr|] eqn:Hf;
    [|vm_compute in Hf; discriminate].
  pose proof (UpdateTTR_capacity_not_rechecked db 1%N 11%N ttr 1 Hf) as H.
  destruct (TTRService.UpdateTTR 1 11 None None None None (Some 1) None None
              db) as [r db'].
  vm_compute in Hf. injection Hf as <-.
  destruct H as (-> & _ & _ & _ & _ & _ & _ & H).
  - right. reflexivity.
  - reflexivity.
  - lia.
  - split; [by eexists|]. apply H. simpl. lia.
Defined.

(** ** The capacity invariant across the two services *)

Lemma players_of_length_delete_le db k id :
  (length (players_of (set_ttr_players (delete k (ttr_players db)) db) id)
   <= length (players_of db id))%nat.
Proof.
  destruct k as [t u]. destruct (ttr_players db !! (t, u)) as [s|] eqn:E.
  - rewrite (players_of_length_delete db t u s id E).
    destruct (decide (id = t)); lia.
  - rewrite (delete_id _ _ E), set_ttr_players_id. lia.
Qed.

Lemma players_of_length_overwrite db t u s0 s id :
  ttr_players db !! (t, u) = Some s0 ->
  length (players_of (set_ttr_players (<[(t, u) := s]> (ttr_players db)) db)
            id)
  = length (players_of db id).
Proof.
  intros Hs.
  rewrite (players_of_length_delete db t u s0 id Hs).
  rewrite <- (insert_delete_eq (ttr_players db)).
  pose proof (players_of_length_insert
                (set_ttr_players (delete (t, u) (ttr_players db)) db)
                t u s id (lookup_delete_eq _ _)) as Hins.
  simpl in Hins. destruct (decide (id = t)); exact Hins.
Qed.

(** A store whose live TTR rows are live rows of [db] with the same
    maxPlayers and a roster that is no longer is within capacity when
    [db] is. *)
Lemma capacity_invariant_from db db' :
  capacity_invariant db ->
  (forall id row,
      ttrs db' !! id = Some row -> TTR.DeletedAt row = None ->
      exists row0,
        ttrs db !! id = Some row0 /\ TTR.DeletedAt row0 = None /\
        TTR.MaxPlayers row = TTR.MaxPlayers row0 /\
        (length (players_of db' id) <= length (players_of db id))%nat) ->
  capacity_invariant db'.
Proof.
  intros Hinv Hrows id ttr' Hf'.
  destruct (find_columns _ _ _ Hf') as (row & Hrow & Hdel & ->).
  destruct (Hrows id row Hrow Hdel) as (row0 & Hrow0 & Hdel0 & Hmax & Hlen).
  assert (Hold : ttrRepository.find db id
                 = Some (TTR.with_associations (co_captains_of db id)
                           (players_of db id) (TTR.with_ID id row0))).
  { unfold ttrRepository.find. by rewrite Hrow0, Hdel0. }
  pose proof (Hinv _ _ Hold) as Hw.
  unfold within_capacity in *. simpl in *. lia.
Qed.

Lemma capacity_invariant_remove_player db k :
  capacity_invariant db ->
  capacity_invariant (set_ttr_players (delete k (ttr_players db)) db).
Proof.
  intros Hinv. apply (capacity_invariant_from db); [done|].
  intros id row Hrow Hdel. exists row. repeat split; try done.
  apply players_of_length_delete_le.
Qed.

Lemma capacity_invariant_overwrite_player db t u s0 s :
  capacity_invariant db ->
  ttr_players db !! (t, u) = Some s0 ->
  capacity_invariant (set_ttr_players (<[(t, u) := s]> (ttr_players db)) db).
Proof.
  intros Hinv Hs. apply (capacity_invariant_from db); [done|].
  intros id row Hrow Hdel. exists row. repeat split; try done.
  by rewrite (players_of_length_overwrite db t u s0 s id Hs).
Qed.

Lemma capacity_invariant_add_player db t u s ttr :
  capacity_invariant db ->
  ttrRepository.find db t = Some ttr ->
  Z.of_nat (length (TTR.Players ttr)) < TTR.MaxPlayers ttr ->
  ttr_players db !! (t, u) = None ->
  capacity_invariant (set_ttr_players (<[(t, u) := s]> (ttr_players db)) db).
Proof.
  intros Hinv Hf Hlt Hnone.
  apply (capacity_kept_invariant db); [|done].
  apply (capacity_kept_add_player db t u s ttr); try done.
  by rewrite <- (find_Players _ _ _ Hf).
Qed.

Lemma capacity_invariant_co_captains db v :
  capacity_invariant db -> capacity_invariant (set_ttr_co_captains v db).
Proof.
  intros Hinv. apply (capacity_invariant_from db); [done|].
  intros id row Hrow Hdel. exists row. by repeat split.
Qed.

Lemma capacity_invariant_invitations db v :
  capacity_invariant db -> capacity_invariant (set_invitations v db).
Proof. intros Hinv id ttr Hf. exact (Hinv id ttr Hf). Qed.

Lemma capacity_invariant_soft_delete db id now row :
  capacity_invariant db ->
  capacity_invariant
    (set_ttrs (<[id := TTR.with_DeletedAt (Some now) row]> (ttrs db)) db).
Proof.
  intros Hinv. apply (capacity_invariant_from db); [done|].
  intros id' row' Hrow Hdel. simpl in Hrow.
  destruct (decide (id' = id)) as [->|Hne].
  - rewrite lookup_insert_eq in Hrow. injection Hrow as <-. done.
  - rewrite lookup_insert_ne in Hrow by done. exists row'. by repeat split.
Qed.

Lemma ttr_Delete_keeps_capacity now id :
  keeps capacity_invariant (ttrRepository.Delete now id).
Proof.
  apply keeps_wrapped. intros db Hinv. unfold exec. simpl.
  destruct (ttrs db !! id) as [row|]; [|done].
  destruct (TTR.DeletedAt row); [done|].
  by apply capacity_invariant_soft_delete.
Qed.

Lemma AddCoCaptain_keeps_capacity t u :
  keeps capacity_invariant (ttrRepository.AddCoCaptain t u).
Proof.
  apply keeps_wrapped. intros db Hinv. cbv beta.
  repeat match goal with
         | |- context [if ?c then _ else _] => destruct c
         end; simpl; try done.
  all: by apply capacity_invariant_co_captains.
Qed.

Lemma RemoveCoCaptain_keeps_capacity t u :
  keeps capacity_invariant (ttrRepository.RemoveCoCaptain t u).
Proof.
  apply keeps_wrapped. intros db Hinv.
  by apply capacity_invariant_co_captains.
Qed.

Lemma RemovePlayer_keeps_capacity t u :
  keeps capacity_invariant (ttrRepository.RemovePlayer t u).
Proof.
  apply keeps_wrapped. intros db Hinv.
  by apply capacity_invariant_remove_player.
Qed.

Lemma invitation_Create_keeps_capacity gen inv :
  keeps capacity_invariant (invitationRepository.Create gen inv).
Proof.
  apply keeps_wrapped. intros db Hinv. cbv beta zeta.
  repeat match goal with
         | |- context [if ?c then _ else _] => destruct c
         | |- context [match ?c with Some _ => _ | None => _ end] => destruct c
         end; simpl; try done.
Qed.

Lemma invitation_Update_keeps_capacity inv :
  keeps capacity_invariant (invitationRepository.Update inv).
Proof.
  apply keeps_wrapped. intros db Hinv. cbv beta.
  repeat match goal with
         | |- context [if ?c then _ else _] => destruct c
         | |- context [match ?c with Some _ => _ | None => _ end] => destruct c
         end; simpl; try done.
Qed.

#[local] Hint Resolve ttr_Delete_keeps_capacity AddCoCaptain_keeps_capacity
  RemoveCoCaptain_keeps_capacity RemovePlayer_keeps_capacity
  invitation_Create_keeps_capacity invitation_Update_keeps_capacity
  : keeps_db.

Lemma JoinTTR_keeps_capacity ttrID userID :
  keeps capacity_invariant (TTRService.JoinTTR ttrID userID).
Proof.
  intros db Hinv. destruct (ttrRepository.find db ttrID) as [ttr|] eqn:Hf.
  - rewrite (JoinTTR_cases _ _ _ _ Hf).
    destruct (Z.geb_spec (Z.of_nat (length (TTR.Players ttr)))
                (TTR.MaxPlayers ttr)) as [|Hlt]; [done|].
    destruct (is_player ttr userID) eqn:Hp; [done|].
    destruct (has_row userID (users db)); [|done]. simpl.
    apply (capacity_invariant_add_player db ttrID userID _ ttr); try done.
    apply has_row_false. by rewrite <- (is_player_has_row _ _ _ _ Hf).
  - unfold TTRService.JoinTTR, ttrRepository.FindByID. mrun. by rewrite Hf.
Qed.

Lemma UpdatePlayerStatus_keeps_capacity ttrID manager player status :
  keeps capacity_invariant
    (TTRService.UpdatePlayerStatus ttrID manager player status).
Proof.
  intros db Hinv. destruct (ttrRepository.find db ttrID) as [ttr|] eqn:Hf.
  - rewrite (UpdatePlayerStatus_cases _ _ _ _ _ _ Hf).
    destruct (negb (_ || _)); [done|].
    destruct (negb (one_of _ _)); [done|].
    destruct (is_player ttr player) eqn:Hp; [|done]. cbn [negb].
    rewrite (is_player_has_row _ _ _ _ Hf) in Hp.
    apply has_row_true in Hp as [s0 Hs0].
    destruct (has_row player (users db)); simpl.
    + by apply (capacity_invariant_overwrite_player db ttrID player s0).
    + by apply capacity_invariant_remove_player.
  - unfold TTRService.UpdatePlayerStatus. unfold bind at 1, wrapped at 1.
    unfold TTRService.canManageTTR. unfold bind at 1.
    by rewrite (isCaptain_missing _ _ _ Hf).
Qed.

Lemma RespondToInvitation_keeps_capacity now id actor status :
  keeps capacity_invariant
    (InvitationService.RespondToInvitation now id actor status).
Proof.
  intros db Hinv. rewrite Respond_checks_run.
  destruct (one_of status InvitationService.validStatuses) eqn:Hv; [|done].
  cbn [negb].
  destruct (invitations db !! id) as [inv|] eqn:Hi; [|done].
  destruct (N.eqb_spec (Invitation.InviteeUserID inv) actor) as [<-|];
    [|done]. cbn [negb].
  destruct (String.eqb_spec (Invitation.Status inv) InvitationStatusPending)
    as [Hs|]; [|done]. cbn [negb].
  destruct (valid_answer_cases _ Hv) as [->|Hno].
  - destruct (ttrRepository.find db (Invitation.TTRID inv)) as [ttr|] eqn:Hf.
    + destruct (Z_lt_dec (Z.of_nat (length (TTR.Players ttr)))
                  (TTR.MaxPlayers ttr)) as [Hlt|Hge].
      * rewrite (Respond_YES_run db now id inv ttr Hi Hs Hf Hlt). cbv zeta.
        destruct (is_player ttr (Invitation.InviteeUserID inv)) eqn:Hp;
          [done|].
        destruct (has_row (Invitation.InviteeUserID inv) (users db));
          [|done]. cbn [negb].
        assert (Hadd : capacity_invariant
                  (set_ttr_players
                     (<[(Invitation.TTRID inv, Invitation.InviteeUserID inv)
                        := TTRPlayerStatusConfirmed]> (ttr_players db)) db)).
        { apply (capacity_invariant_add_player db _ _ _ ttr); try done.
          apply has_row_false. by rewrite <- (is_player_has_row _ _ _ _ Hf). }
        destruct (invitationRepository.check_row _ db); simpl; [done|].
        by apply capacity_invariant_invitations.
      * rewrite (Respond_YES_full db now id _ inv ttr Hi Hs eq_refl Hf);
          [done|]. unfold at_capacity. lia.
    + by rewrite (Respond_YES_missing_TTR db now id inv Hi Hs Hf).
  - rewrite (Respond_decline_run db now id inv status Hi Hs Hno). cbv zeta.
    destruct (invitationRepository.check_row _ db); simpl; [done|].
    by apply capacity_invariant_invitations.
Qed.

Lemma capacity_invariant_new_ttr db gen u s row :
  capacity_invariant db ->
  ttrs db !! gen = None ->
  (forall u', ttr_players db !! (gen, u') = None) ->
  1 <= TTR.MaxPlayers row ->
  capacity_invariant (set_ttrs (<[gen := row]> (ttrs db)) db) /\
  capacity_invariant
    (set_ttr_players (<[(gen, u) := s]> (ttr_players db))
       (set_ttrs (<[gen := row]> (ttrs db)) db)).
Proof.
  intros Hinv Hnone Hfresh Hmax.
  assert (Hempty : players_of db gen = []).
  { unfold players_of.
    replace (filter (fun kv : N * N * string => kv.1.1 = gen)
               (map_to_list (ttr_players db))) with (@nil (N * N * string));
      [done|].
    symmetry. apply elem_of_nil_inv. intros [[t' u'] s'] Hin.
    apply list_elem_of_filter in Hin as [Ht Hin]. simpl in Ht. subst t'.
    apply elem_of_map_to_list in Hin. by rewrite Hfresh in Hin. }
  split; intros id ttr' Hf'.
  all: destruct (find_columns _ _ _ Hf') as (row' & Hrow & Hdel & ->).
  all: simpl in Hrow; unfold within_capacity; simpl.
  all: destruct (decide (id = gen)) as [->|Hne].
  - change (players_of (set_ttrs _ db) gen) with (players_of db gen).
    rewrite Hempty. rewrite lookup_insert_eq in Hrow. injection Hrow as <-.
    simpl. lia.
  - rewrite lookup_insert_ne in Hrow by done.
    assert (Hold : ttrRepository.find db id
                   = Some (TTR.with_associations (co_captains_of db id)
                             (players_of db id) (TTR.with_ID id row'))).
    { unfold ttrRepository.find. by rewrite Hrow, Hdel. }
    exact (Hinv _ _ Hold).
  - erewrite (players_of_insert_fresh db); [|exact Hfresh|reflexivity].
    rewrite lookup_insert_eq in Hrow. injection Hrow as <-. simpl. lia.
  - rewrite lookup_insert_ne in Hrow by done.
    assert (Hold : ttrRepository.find db id
                   = Some (TTR.with_associations (co_captains_of db id)
                             (players_of db id) (TTR.with_ID id row'))).
    { unfold ttrRepository.find. by rewrite Hrow, Hdel. }
    pose proof (Hinv _ _ Hold) as Hw. unfold within_capacity in Hw.
    simpl in Hw.
    pose proof (players_of_length_insert db gen u s id (Hfresh u)) as Hlen.
    rewrite decide_False in Hlen by done.
    rewrite <- Hlen in Hw. exact Hw.
Qed.

Lemma CreateTTR_keeps_capacity db gen userID courseName courseLocation
    teeDate teeTime maxPlayers notes :
  store_consistent db ->
  capacity_invariant db ->
  capacity_invariant
    (snd (TTRService.CreateTTR gen userID courseName courseLocation teeDate
            teeTime maxPlayers notes db)).
Proof.
  intros [Hfk _] Hinv.
  unfold TTRService.CreateTTR, userRepository.FindByID, ttrRepository.Create,
    ttrRepository.AddPlayer, ttrRepository.FindByID. mrun.
  destruct (Z.leb_spec maxPlayers 0) as [|Hpos]; simpl; [done|].
  destruct (userRepository.find db userID); simpl; [|done].
  destruct (Z.eqb_spec maxPlayers 0) as [|_]; [lia|]. simpl.
  destruct (ttrRepository.check_row _ db); simpl; [done|].
  destruct (has_row gen (ttrs db)) eqn:Hk; simpl; [done|].
  apply has_row_false in Hk.
  assert (Hfresh : forall u', ttr_players db !! (gen, u') = None).
  { intros u'. destruct (ttr_players db !! (gen, u')) eqn:E; [|done].
    destruct (Hfk gen u') as [row Hrow]; [by rewrite E|congruence]. }
  rewrite (proj2 (has_row_false _ _) (Hfresh userID)). simpl.
  unfold has_row at 1. rewrite lookup_insert_eq. simpl.
  match goal with
  | |- context [set_ttrs (<[gen := ?row]> (ttrs db)) db] =>
      destruct (capacity_invariant_new_ttr db gen userID
                  TTRPlayerStatusConfirmed row Hinv Hk Hfresh) as [H1 H2];
        [simpl; lia|]
  end.
  destruct (has_row userID (users db)); simpl; done.
Qed.

(** X22.  Every operation of the two services other than UpdateTTR keeps
    the capacity invariant: if every live TTR of the store has at most
    maxPlayers players before the call, so it has after it, whether the
    call succeeds or fails (CreateTTR on a store that satisfies the
    constraints of the schema). *)
Theorem capacity_invariant_kept (db : DB) :
  capacity_invariant db ->
  (forall gen userID courseName courseLocation teeDate teeTime maxPlayers
          notes,
      store_consistent db ->
      capacity_invariant
        (snd (TTRService.CreateTTR gen userID courseName courseLocation
                teeDate teeTime maxPlayers notes db))) /\
  (forall now ttrID userID,
      capacity_invariant (snd (TTRService.DeleteTTR now ttrID userID db))) /\
  (forall ttrID captain coCaptain,
      capacity_invariant
        (snd (TTRService.AddCoCaptain ttrID captain coCaptain db))) /\
  (forall ttrID captain coCaptain,
      capacity_invariant
        (snd (TTRService.RemoveCoCaptain ttrID captain coCaptain db))) /\
  (forall ttrID userID,
      capacity_invariant (snd (TTRService.JoinTTR ttrID userID db))) /\
  (forall ttrID userID,
      capacity_invariant (snd (TTRService.LeaveTTR ttrID userID db))) /\
  (forall ttrID manager player status,
      capacity_invariant
        (snd (TTRService.UpdatePlayerStatus ttrID manager player status db)))
  /\
  (forall gen ttrID inviter invitee message,
      capacity_invariant
        (snd (InvitationService.CreateInvitation gen ttrID inviter invitee
                message db))) /\
  (forall now id actor status,
      capacity_invariant
        (snd (InvitationService.RespondToInvitation now id actor status db)))
  /\
  (forall id actor,
      capacity_invariant
        (snd (InvitationService.CancelInvitation id actor db))).
Proof.
  intros Hinv. repeat apply conj; intros.
  - by apply CreateTTR_keeps_capacity.
  - revert db Hinv. change (keeps capacity_invariant
                              (TTRService.DeleteTTR now ttrID userID)).
    unfold TTRService.DeleteTTR, TTRService.isCaptain,
      ttrRepository.FindByID. keeps_tac.
  - revert db Hinv. change (keeps capacity_invariant
                              (TTRService.AddCoCaptain ttrID captain
                                 coCaptain)).
    unfold TTRService.AddCoCaptain, TTRService.isCaptain,
      userRepository.FindByID, ttrRepository.IsCoCaptain,
      ttrRepository.FindByID. keeps_tac.
  - revert db Hinv. change (keeps capacity_invariant
                              (TTRService.RemoveCoCaptain ttrID captain
                                 coCaptain)).
    unfold TTRService.RemoveCoCaptain, TTRService.isCaptain,
      ttrRepository.FindByID. keeps_tac.
  - by apply JoinTTR_keeps_capacity.
  - revert db Hinv. change (keeps capacity_invariant
                              (TTRService.LeaveTTR ttrID userID)).
    unfold TTRService.LeaveTTR, ttrRepository.FindByID. keeps_tac.
  - by apply UpdatePlayerStatus_keeps_capacity.
  - revert db Hinv. change (keeps capacity_invariant
                              (InvitationService.CreateInvitation gen ttrID
                                 inviter invitee message)).
    unfold InvitationService.CreateInvitation, TTRService.GetTTR,
      TTRService.canManageTTR, TTRService.isCaptain, TTRService.isCoCaptain,
      TTRService.GetPlayers, ttrRepository.GetPlayers,
      ttrRepository.IsCoCaptain, ttrRepository.IsPlayer,
      userRepository.FindByID, invitationRepository.FindByTTRAndInvitee,
      invitationRepository.FindByID, NotificationService.CreateNotification,
      ttrRepository.FindByID. keeps_tac.
  - by apply RespondToInvitation_keeps_capacity.
  - revert db Hinv. change (keeps capacity_invariant
                              (InvitationService.CancelInvitation id actor)).
    unfold InvitationService.CancelInvitation,
      invitationRepository.FindByID. keeps_tac.
Qed.

Lemma capacity_invariant_kept_witness :
  capacity_invariant sample.store /\
  capacity_invariant (snd (TTRService.JoinTTR 1 11 sample.store)) /\
  capacity_invariant
    (snd (TTRService.CreateTTR 3 11 "St Andrews" None 20300 540 4 None
            sample.store)).
Proof.
  assert (Hinv : capacity_invariant sample.store).
  { apply capacity_invariantb_sound. vm_compute. reflexivity. }
  pose proof (capacity_invariant_kept sample.store Hinv)
    as (Hc & _ & _ & _ & Hj & _).
  split; [exact Hinv|]. split; [apply Hj|]. apply Hc.
  apply store_consistentb_sound. vm_compute. reflexivity.
Defined.

(** ** What each service leaves alone *)

Section frames.

Variable db0 : DB.

Lemma ttr_Create_frame gen ttr :
  keeps (TTRService_frame db0) (ttrRepository.Create gen ttr).
Proof.
  apply keeps_wrapped. intros db (Hu & Hi & Ht). cbv beta zeta.
  destruct (ttrRepository.check_row _ db); [done|].
  destruct (has_row _ (ttrs db)); [done|]. simpl.
  split; [done|]. split; [done|]. intros id Hid.
  apply lookup_insert_is_Some'. right. by apply Ht.
Qed.

Lemma ttr_Update_frame ttr :
  keeps (TTRService_frame db0) (ttrRepository.Update ttr).
Proof.
  apply keeps_wrapped. intros db (Hu & Hi & Ht). cbv beta.
  destruct (ttrRepository.check_row _ db); [done|]. simpl.
  split; [done|]. split; [done|]. intros id Hid.
  apply lookup_insert_is_Some'. right. by apply Ht.
Qed.

Lemma ttr_Delete_frame now id :
  keeps (TTRService_frame db0) (ttrRepository.Delete now id).
Proof.
  apply keeps_wrapped. intros db (Hu & Hi & Ht). unfold exec. simpl.
  destruct (ttrs db !! id) as [row|]; [|done].
  destruct (TTR.DeletedAt row); [done|]. simpl.
  split; [done|]. split; [done|]. intros id' Hid.
  apply lookup_insert_is_Some'. right. by apply Ht.
Qed.

Lemma AddCoCaptain_frame t u :
  keeps (TTRService_frame db0) (ttrRepository.AddCoCaptain t u).
Proof.
  apply keeps_wrapped. intros db Hdb. cbv beta.
  repeat match goal with
         | |- context [if ?c then _ else _] => destruct c
         end; simpl; done.
Qed.

Lemma RemoveCoCaptain_frame t u :
  keeps (TTRService_frame db0) (ttrRepository.RemoveCoCaptain t u).
Proof. apply keeps_wrapped. by intros db Hdb. Qed.

Lemma AddPlayer_frame t u s :
  keeps (TTRService_frame db0) (ttrRepository.AddPlayer t u s).
Proof.
  apply keeps_wrapped. intros db Hdb. cbv beta.
  repeat match goal with
         | |- context [if ?c then _ else _] => destruct c
         end; simpl; done.
Qed.

Lemma RemovePlayer_frame t u :
  keeps (TTRService_frame db0) (ttrRepository.RemovePlayer t u).
Proof. apply keeps_wrapped. by intros db Hdb. Qed.

Lemma AddPlayer_invitation_frame t u s :
  keeps (InvitationService_frame db0) (ttrRepository.AddPlayer t u s).
Proof.
  apply keeps_wrapped. intros db Hdb. cbv beta.
  repeat match goal with
         | |- context [if ?c then _ else _] => destruct c
         end; simpl; done.
Qed.

Lemma invitation_Create_frame gen inv :
  keeps (InvitationService_frame db0) (invitationRepository.Create gen inv).
Proof.
  apply keeps_wrapped. intros db (Hu & Ht & Hc & Hi). cbv beta zeta.
  repeat match goal with
         | |- context [if ?c then _ else _] => destruct c
         | |- context [match ?c with Some _ => _ | None => _ end] => destruct c
         end; simpl; try done.
  all: repeat (split; [done|]); intros id Hid.
  all: apply lookup_insert_is_Some'; right; by apply Hi.
Qed.

Lemma invitation_Update_frame inv :
  keeps (InvitationService_frame db0) (invitationRepository.Update inv).
Proof.
  apply keeps_wrapped. intros db (Hu & Ht & Hc & Hi). cbv beta.
  repeat match goal with
         | |- context [if ?c then _ else _] => destruct c
         | |- context [match ?c with Some _ => _ | None => _ end] => destruct c
         end; simpl; try done.
  all: repeat (split; [done|]); intros id Hid.
  all: apply lookup_insert_is_Some'; right; by apply Hi.
Qed.

End frames.

#[local] Hint Resolve ttr_Create_frame ttr_Update_frame ttr_Delete_frame
  AddCoCaptain_frame RemoveCoCaptain_frame AddPlayer_frame RemovePlayer_frame
  AddPlayer_invitation_frame invitation_Create_frame invitation_Update_frame
  : keeps_db.

Lemma TTRService_frame_refl db : TTRService_frame db db.
Proof. by repeat split. Qed.

Lemma InvitationService_frame_refl db : InvitationService_frame db db.
Proof. by repeat split. Qed.

Lemma TTRService_keeps_frame db0 :
  (forall gen userID courseName courseLocation teeDate teeTime maxPlayers
          notes,
      keeps (TTRService_frame db0)
        (TTRService.CreateTTR gen userID courseName courseLocation teeDate
           teeTime maxPlayers notes)) /\
  (forall ttrID userID courseName courseLocation teeDate teeTime maxPlayers
          status notes,
      keeps (TTRService_frame db0)
        (TTRService.UpdateTTR ttrID userID courseName courseLocation teeDate
           teeTime maxPlayers status notes)) /\
  (forall now ttrID userID,
      keeps (TTRService_frame db0) (TTRService.DeleteTTR now ttrID userID)) /\
  (forall ttrID captain coCaptain,
      keeps (TTRService_frame db0)
        (TTRService.AddCoCaptain ttrID captain coCaptain)) /\
  (forall ttrID captain coCaptain,
      keeps (TTRService_frame db0)
        (TTRService.RemoveCoCaptain ttrID captain coCaptain)) /\
  (forall ttrID userID,
      keeps (TTRService_frame db0) (TTRService.JoinTTR ttrID userID)) /\
  (forall ttrID userID,
      keeps (TTRService_frame db0) (TTRService.LeaveTTR ttrID userID)) /\
  (forall ttrID manager player status,
      keeps (TTRService_frame db0)
        (TTRService.UpdatePlayerStatus ttrID manager player status)).
Proof.
  repeat apply conj; intros.
  - unfold TTRService.CreateTTR, userRepository.FindByID,
      ttrRepository.FindByID. keeps_tac.
  - unfold TTRService.UpdateTTR, TTRService.canManageTTR,
      TTRService.isCaptain, TTRService.isCoCaptain,
      ttrRepository.IsCoCaptain, ttrRepository.FindByID. keeps_tac.
  - unfold TTRService.DeleteTTR, TTRService.isCaptain,
      ttrRepository.FindByID. keeps_tac.
  - unfold TTRService.AddCoCaptain, TTRService.isCaptain,
      userRepository.FindByID, ttrRepository.IsCoCaptain,
      ttrRepository.FindByID. keeps_tac.
  - unfold TTRService.RemoveCoCaptain, TTRService.isCaptain,
      ttrRepository.FindByID. keeps_tac.
  - unfold TTRService.JoinTTR, TTRService.getPlayerCount,
      ttrRepository.GetPlayers, ttrRepository.IsPlayer,
      ttrRepository.FindByID. keeps_tac.
  - unfold TTRService.LeaveTTR, ttrRepository.FindByID. keeps_tac.
  - unfold TTRService.UpdatePlayerStatus, TTRService.canManageTTR,
      TTRService.isCaptain, TTRService.isCoCaptain,
      ttrRepository.IsCoCaptain, ttrRepository.GetPlayers,
      ttrRepository.FindByID. keeps_tac.
Qed.

Lemma InvitationService_keeps_frame db0 :
  (forall gen ttrID inviter invitee message,
      keeps (InvitationService_frame db0)
        (InvitationService.CreateInvitation gen ttrID inviter invitee
           message)) /\
  (forall now id actor status,
      keeps (InvitationService_frame db0)
        (InvitationService.RespondToInvitation now id actor status)) /\
  (forall id actor,
      keeps (InvitationService_frame db0)
        (InvitationService.CancelInvitation id actor)).
Proof.
  repeat apply conj; intros.
  - unfold InvitationService.CreateInvitation, TTRService.GetTTR,
      TTRService.canManageTTR, TTRService.isCaptain, TTRService.isCoCaptain,
      TTRService.GetPlayers, ttrRepository.GetPlayers,
      ttrRepository.IsCoCaptain, ttrRepository.IsPlayer,
      userRepository.FindByID, invitationRepository.FindByTTRAndInvitee,
      invitationRepository.FindByID, NotificationService.CreateNotification,
      ttrRepository.FindByID. keeps_tac.
  - unfold InvitationService.RespondToInvitation,
      invitationRepository.FindByID, ttrRepository.GetPlayers,
      ttrRepository.FindByID. keeps_tac.
  - unfold InvitationService.CancelInvitation,
      invitationRepository.FindByID. keeps_tac.
Qed.

(** X23.  What the two services never touch.  No operation of either
    service writes [users] or removes a row of [ttrs] or [invitations]
    (DeleteTTR and CancelInvitation keep the row).  The operations of
    TTRService leave [invitations] as they were, DeleteTTR included; those
    of InvitationService leave [ttrs] and [ttr_co_captains] as they
    were. *)
Theorem services_frame (db : DB) :
  (forall gen userID courseName courseLocation teeDate teeTime maxPlayers
          notes,
      TTRService_frame db
        (snd (TTRService.CreateTTR gen userID courseName courseLocation
                teeDate teeTime maxPlayers notes db))) /\
  (forall ttrID userID courseName courseLocation teeDate teeTime maxPlayers
          status notes,
      TTRService_frame db
        (snd (TTRService.UpdateTTR ttrID userID courseName courseLocation
                teeDate teeTime maxPlayers status notes db))) /\
  (forall now ttrID userID,
      TTRService_frame db (snd (TTRService.DeleteTTR now ttrID userID db))) /\
  (forall ttrID captain coCaptain,
      TTRService_frame db
        (snd (TTRService.AddCoCaptain ttrID captain coCaptain db))) /\
  (forall ttrID captain coCaptain,
      TTRService_frame db
        (snd (TTRService.RemoveCoCaptain ttrID captain coCaptain db))) /\
  (forall ttrID userID,
      TTRService_frame db (snd (TTRService.JoinTTR ttrID userID db))) /\
  (forall ttrID userID,
      TTRService_frame db (snd (TTRService.LeaveTTR ttrID userID db))) /\
  (forall ttrID manager player status,
      TTRService_frame db
        (snd (TTRService.UpdatePlayerStatus ttrID manager player status db)))
  /\
  (forall gen ttrID inviter invitee message,
      InvitationService_frame db
        (snd (InvitationService.CreateInvitation gen ttrID inviter invitee
                message db))) /\
  (forall now id actor status,
      InvitationService_frame db
        (snd (InvitationService.RespondToInvitation now id actor status db)))
  /\
  (forall id actor,
      InvitationService_frame db
        (snd (InvitationService.CancelInvitation id actor db))).
Proof.
  pose proof (TTRService_frame_refl db) as Ht.
  pose proof (InvitationService_frame_refl db) as Hi.
  pose proof (TTRService_keeps_frame db)
    as (H1 & H2 & H3 & H4 & H5 & H6 & H7 & H8).
  pose proof (InvitationService_keeps_frame db) as (H9 & H10 & H11).
  repeat apply conj; intros.
  - by apply H1.
  - by apply H2.
  - by apply H3.
  - by apply H4.
  - by apply H5.
  - by apply H6.
  - by apply H7.
  - by apply H8.
  - by apply H9.
  - by apply H10.
  - by apply H11.
Qed.
